(** * hidemysearch: the proxy routes of [server/routes.ts]

    A shallow embedding of the URL normalizer, the response relay, the HTML
    rewriter and the recent-searches handlers, with the properties the
    specification states about them.

    Text.  A JavaScript string is held as a [string] of 8-bit characters: the
    UTF-8 bytes of its text.  Every pattern of [routes.ts] is made of ASCII
    characters and a UTF-8 sequence of a non-ASCII character contains no
    ASCII byte, so matching, splitting and searching on the bytes agree with
    the same operations on the UTF-16 code units.  A string with a lone
    surrogate has no such bytes; no decoded body contains one
    ([Buffer_toString_valid]).

    The platform.  [new URL] is an argument, [new_URL], of everything that
    calls it, and the general statements hold whatever it answers;
    [URL_model] follows the URL standard on http and https addresses with an
    ASCII host name and serves the examples.  [fetch] is an argument of the
    proxy handler.  The recent-searches table is a list of rows with the
    counter of its serial key, and the clock is an argument of the handler
    that reads it.  PostgreSQL refuses a text with the character NUL and a
    key outside 32 bits: the statement throws then and the [catch] of the
    route answers.  The query parameter and the headers of a request are
    strings; a field of a JSON body is a text or another value, of which the
    route uses the truth only. *)

From Stdlib Require Import Ascii String NArith ZArith Bool List Lia Sorted Permutation.
From stdpp Require Import base option list strings pretty gmap fin_maps.

Local Open Scope N_scope.

(** ** Characters *)

Definition dquote : ascii := "034"%char.
Definition squote : ascii := "'"%char.

Definition code (c : ascii) : N := N_of_ascii c.

Definition is_quote (c : ascii) : bool :=
  (code c =? 34) || (code c =? 39).

Definition is_upper (c : ascii) : bool := (65 <=? code c) && (code c <=? 90).
Definition is_lower (c : ascii) : bool := (97 <=? code c) && (code c <=? 122).
Definition is_digit (c : ascii) : bool := (48 <=? code c) && (code c <=? 57).
Definition is_alpha (c : ascii) : bool := is_upper c || is_lower c.

(** [String.prototype.toLowerCase] on one ASCII character. *)
Definition lower (c : ascii) : ascii :=
  if is_upper c then ascii_of_N (code c + 32) else c.

(** Equality of two characters under the [i] flag of a pattern without the
    [u] flag: only the ASCII letters have two spellings. *)
Definition eq_ci (a b : ascii) : bool := (code (lower a) =? code (lower b)).

Definition eqb_ascii (a b : ascii) : bool := (code a =? code b).

(** ** Strings *)

Fixpoint strlen (s : string) : nat :=
  match s with
  | EmptyString => O
  | String _ r => S (strlen r)
  end.

Fixpoint drop_str (n : nat) (s : string) : string :=
  match n, s with
  | O, _ => s
  | S k, String _ r => drop_str k r
  | S _, EmptyString => EmptyString
  end.

Definition is_empty (s : string) : bool :=
  match s with EmptyString => true | _ => false end.

Fixpoint toLowerCase (s : string) : string :=
  match s with
  | EmptyString => EmptyString
  | String c r => String (lower c) (toLowerCase r)
  end.

(** [s.startsWith(p)]: the rest of [s] after [p], when [p] is a prefix. *)
Fixpoint strip_prefix (p s : string) : option string :=
  match p, s with
  | EmptyString, _ => Some s
  | String a p', String b s' => if eqb_ascii a b then strip_prefix p' s' else None
  | String _ _, EmptyString => None
  end.

Definition startsWith (s p : string) : bool :=
  match strip_prefix p s with Some _ => true | None => false end.

(** A literal of a pattern under the [i] flag: the text of [s] it matches
    (in the spelling of [s]) and the rest of [s]. *)
Fixpoint lit_ci (p s : string) : option (string * string) :=
  match p, s with
  | EmptyString, _ => Some (EmptyString, s)
  | String a p', String b s' =>
      if eq_ci a b then
        match lit_ci p' s' with
        | Some (m, r) => Some (String b m, r)
        | None => None
        end
      else None
  | String _ _, EmptyString => None
  end.

(** [s.includes(sub)]. *)
Fixpoint includes (s sub : string) : bool :=
  startsWith s sub ||
  match s with
  | EmptyString => false
  | String _ r => includes r sub
  end.

(** A greedy character class [[...]*]: the longest run of characters that
    satisfy [p], and what follows it. *)
Fixpoint span (p : ascii -> bool) (s : string) : string * string :=
  match s with
  | EmptyString => (EmptyString, EmptyString)
  | String c r =>
      if p c then let '(m, t) := span p r in (String c m, t)
      else (EmptyString, s)
  end.

(** One character of a class. *)
Definition one (p : ascii -> bool) (s : string) : option (ascii * string) :=
  match s with
  | String c r => if p c then Some (c, r) else None
  | EmptyString => None
  end.

Definition str1 (c : ascii) : string := String c EmptyString.

(** ** [String.prototype.replace]

    [exec s] is the pattern tried at the head of the remaining input [s]: the
    number of characters the match takes and the text the replacer returns
    for it.  With the [g] flag the scan goes left to right, resumes after
    each match, and copies what no match covers. *)

Section Replace.
Variable exec : string -> option (nat * string).

Fixpoint replace_from (skip : nat) (s : string) : string :=
  match skip, s with
  | S k, String _ r => replace_from k r
  | S _, EmptyString => EmptyString
  | O, EmptyString =>
      match exec EmptyString with
      | Some (_, rep) => rep
      | None => EmptyString
      end
  | O, String c r =>
      match exec s with
      | Some (O, rep) => rep +:+ String c (replace_from O r)
      | Some (S k, rep) => rep +:+ replace_from k r
      | None => String c (replace_from O r)
      end
  end.

(** [s.replace(/.../g, replacer)] *)
Definition replace_all (s : string) : string := replace_from O s.

(** [s.replace(/.../, replacer)]: the leftmost match only. *)
Fixpoint replace_first (s : string) : string :=
  match exec s with
  | Some (n, rep) => rep +:+ drop_str n s
  | None =>
      match s with
      | EmptyString => EmptyString
      | String c r => String c (replace_first r)
      end
  end.
End Replace.

(** [s.match(/.../)] without the [g] flag: the captures of the leftmost
    match. *)
Fixpoint search {A} (exec : string -> option A) (s : string) : option A :=
  match exec s with
  | Some a => Some a
  | None =>
      match s with
      | EmptyString => None
      | String _ r => search exec r
      end
  end.

(** ** UTF-8 well-formedness

    The table of the Unicode standard (3-7): what a first byte announces, as
    the number of bytes still to come and the range of the next one.  It
    excludes overlong forms, surrogates and values above U+10FFFF. *)

Definition utf8_lead (b : N) : option (nat * N * N) :=
  if b <=? 127 then Some (O, 128, 191)
  else if b <? 194 then None
  else if b <=? 223 then Some (1%nat, 128, 191)
  else if b =? 224 then Some (2%nat, 160, 191)
  else if b =? 237 then Some (2%nat, 128, 159)
  else if b <=? 239 then Some (2%nat, 128, 191)
  else if b =? 240 then Some (3%nat, 144, 191)
  else if b <=? 243 then Some (3%nat, 128, 191)
  else if b =? 244 then Some (3%nat, 128, 143)
  else None.

Definition in_range (lo hi : N) (c : ascii) : bool :=
  (lo <=? code c) && (code c <=? hi).

Fixpoint utf8_from (need : nat) (lo hi : N) (s : string) : bool :=
  match s with
  | EmptyString => match need with O => true | S _ => false end
  | String c r =>
      match need with
      | O =>
          match utf8_lead (code c) with
          | Some (n, l, h) => utf8_from n l h r
          | None => false
          end
      | S k => in_range lo hi c && utf8_from k 128 191 r
      end
  end.

(** The text is well-formed UTF-8: what every string decoded from a buffer
    is, and what [encodeURIComponent] needs not to throw. *)
Definition utf8_valid (s : string) : bool := utf8_from O 128 191 s.

(** ** [encodeURIComponent] and [decodeURIComponent] *)

Definition uri_mark (c : ascii) : bool :=
  existsb (N.eqb (code c)) [45; 95; 46; 33; 126; 42; 39; 40; 41].

(** The characters [encodeURIComponent] leaves as they are: letters, digits
    and [- _ . ! ~ * ' ( )]. *)
Definition uri_unreserved (c : ascii) : bool :=
  is_alpha c || is_digit c || uri_mark c.

Definition hex_digit (n : N) : ascii :=
  if n <? 10 then ascii_of_N (48 + n) else ascii_of_N (55 + n).

Definition hex_val (c : ascii) : option N :=
  let n := code c in
  if is_digit c then Some (n - 48)
  else if (65 <=? n) && (n <=? 70) then Some (n - 55)
  else if (97 <=? n) && (n <=? 102) then Some (n - 87)
  else None.

Definition percent : ascii := "%"%char.

Definition uri_escape (c : ascii) : string :=
  String percent (String (hex_digit (code c / 16))
                 (String (hex_digit (code c mod 16)) EmptyString)).

Fixpoint encodeURIComponent (s : string) : string :=
  match s with
  | EmptyString => EmptyString
  | String c r =>
      if uri_unreserved c then String c (encodeURIComponent r)
      else uri_escape c +:+ encodeURIComponent r
  end.

(** First half of [decodeURIComponent]: every [%XX] becomes the byte it
    names (marked [true]); a [%] not followed by two hexadecimal digits is a
    [URIError]. *)
Fixpoint uri_unescape (s : string) : option (list (bool * ascii)) :=
  match s with
  | EmptyString => Some []
  | String c r =>
      if code c =? 37 then
        match r with
        | String h1 (String h2 r') =>
            match hex_val h1, hex_val h2 with
            | Some a, Some b =>
                match uri_unescape r' with
                | Some l => Some ((true, ascii_of_N (16 * a + b)) :: l)
                | None => None
                end
            | _, _ => None
            end
        | _ => None
        end
      else
        match uri_unescape r with
        | Some l => Some ((false, c) :: l)
        | None => None
        end
  end.

(** Second half: an escaped byte above 127 must start a well-formed UTF-8
    sequence whose other bytes are escaped too; anything else is a
    [URIError]. *)
Fixpoint uri_octets (need : nat) (lo hi : N) (l : list (bool * ascii))
  : option string :=
  match l with
  | [] => match need with O => Some EmptyString | S _ => None end
  | (esc, c) :: t =>
      match need with
      | O =>
          if esc then
            match utf8_lead (code c) with
            | Some (n, lo', hi') => String c <$> uri_octets n lo' hi' t
            | None => None
            end
          else String c <$> uri_octets O 128 191 t
      | S k =>
          if esc && in_range lo hi c then String c <$> uri_octets k 128 191 t
          else None
      end
  end.

Definition decodeURIComponent (s : string) : option string :=
  match uri_unescape s with
  | Some l => uri_octets O 128 191 l
  | None => None
  end.

(** ** The [URL] class of the platform

    [routes.ts] reads three getters of a parsed URL: [protocol] (the scheme
    and a colon), [hostname], and [host] (the host name and, when the port is
    not the default of the scheme, a colon and the port). *)

Record URL := mkURL {
  url_scheme : string;
  hostname : string;
  url_port : option N
}.

Definition protocol (u : URL) : string := url_scheme u +:+ ":".

Definition host (u : URL) : string :=
  match url_port u with
  | Some p => hostname u +:+ ":" +:+ pretty p
  | None => hostname u
  end.

(** What [new URL(s)] does with one argument, as far as this model follows
    the URL standard: the URL record, a failure (the constructor throws), or
    an input the model does not follow (other schemes than http and https, IP
    literals, percent-escapes and IDNA labels in the host). *)
Inductive parsed : Type :=
| Parsed (u : URL)
| Failure
| Unmodelled.

Definition is_c0_or_space (c : ascii) : bool := code c <=? 32.
Definition is_tab_or_newline (c : ascii) : bool :=
  (code c =? 9) || (code c =? 10) || (code c =? 13).

Fixpoint lstrip (p : ascii -> bool) (s : string) : string :=
  match s with
  | String c r => if p c then lstrip p r else s
  | EmptyString => EmptyString
  end.

Fixpoint rstrip (p : ascii -> bool) (s : string) : string :=
  match s with
  | EmptyString => EmptyString
  | String c r =>
      match rstrip p r with
      | EmptyString => if p c then EmptyString else str1 c
      | r' => String c r'
      end
  end.

Fixpoint remove_chars (p : ascii -> bool) (s : string) : string :=
  match s with
  | EmptyString => EmptyString
  | String c r => if p c then remove_chars p r else String c (remove_chars p r)
  end.

Fixpoint all_chars (p : ascii -> bool) (s : string) : bool :=
  match s with
  | EmptyString => true
  | String c r => p c && all_chars p r
  end.

Fixpoint any_char (p : ascii -> bool) (s : string) : bool :=
  match s with
  | EmptyString => false
  | String c r => p c || any_char p r
  end.

Definition is_scheme_char (c : ascii) : bool :=
  is_alpha c || is_digit c || (code c =? 43) || (code c =? 45) || (code c =? 46).

(** The end of the authority of a special URL: [/], [\], [?] or [#]. *)
Definition ends_authority (c : ascii) : bool :=
  (code c =? 47) || (code c =? 92) || (code c =? 63) || (code c =? 35).

Definition is_slash (c : ascii) : bool := (code c =? 47) || (code c =? 92).

(** The text after the last [@] of the authority, and whether there was one. *)
Fixpoint after_last_at (s : string) : string * bool :=
  match s with
  | EmptyString => (EmptyString, false)
  | String c r =>
      let '(t, seen) := after_last_at r in
      if seen then (t, true)
      else if code c =? 64 then (r, true)
      else (s, false)
  end.

Definition forbidden_domain_char (c : ascii) : bool :=
  (code c <=? 32) || (code c =? 127) ||
  existsb (N.eqb (code c)) [35; 37; 47; 58; 60; 62; 63; 64; 91; 92; 93; 94; 124].

(** The labels of a domain, split on the dots. *)
Fixpoint split_on (sep : ascii) (s : string) : list string :=
  match s with
  | EmptyString => [EmptyString]
  | String c r =>
      if eqb_ascii c sep then EmptyString :: split_on sep r
      else
        match split_on sep r with
        | l :: ls => String c l :: ls
        | [] => [str1 c]
        end
  end.

Definition is_hex_digit (c : ascii) : bool :=
  match hex_val c with Some _ => true | None => false end.

(** The last label is a number for the IPv4 parser: digits only, or [0x]
    and hexadecimal digits. *)
Definition ends_in_number (labels : list string) : bool :=
  let labels' :=
    match List.rev labels with
    | EmptyString :: (_ :: _) as rest => rest
    | other => other
    end in
  match labels' with
  | last :: _ =>
      (negb (is_empty last) && all_chars is_digit last) ||
      match last with
      | String z (String x r) =>
          (code z =? 48) && (code (lower x) =? 120) && all_chars is_hex_digit r
      | _ => false
      end
  | [] => false
  end.

(** The host parser on a non-empty host of a special URL. *)
Definition parse_host (h : string) : parsed :=
  let mk d := Parsed (mkURL EmptyString d None) in
  if startsWith h "[" then Unmodelled
  else if any_char (fun c => (128 <=? code c) || (code c =? 37)) h then Unmodelled
  else
    let d := toLowerCase h in
    if existsb (fun l => startsWith l "xn--") (split_on "."%char d) then Unmodelled
    else if any_char forbidden_domain_char d then Failure
    else if ends_in_number (split_on "."%char d) then Unmodelled
    else mk d.

Fixpoint decimal_value (acc : N) (s : string) : N :=
  match s with
  | EmptyString => acc
  | String c r => decimal_value (10 * acc + (code c - 48)) r
  end.

Definition default_port (scheme : string) : option N :=
  if String.eqb scheme "http" then Some 80
  else if String.eqb scheme "https" then Some 443
  else None.

(** The port state: digits up to the end of the authority. *)
Definition parse_port (scheme port : string) : option (option N) :=
  if is_empty port then Some None
  else if all_chars is_digit port then
    let p := decimal_value 0 port in
    if 65535 <? p then None
    else if decide (default_port scheme = Some p) then Some None
    else Some (Some p)
  else None.

(** [new URL(input)], without a base. *)
Definition URL_parse (input : string) : parsed :=
  let s := remove_chars is_tab_or_newline
             (rstrip is_c0_or_space (lstrip is_c0_or_space input)) in
  match s with
  | EmptyString => Failure
  | String c _ =>
      if negb (is_alpha c) then Failure
      else
        let '(sch, rest) := span is_scheme_char s in
        match rest with
        | String colon rest' =>
            if negb (code colon =? 58) then Failure
            else
              let scheme := toLowerCase sch in
              if negb (String.eqb scheme "http" || String.eqb scheme "https")
              then Unmodelled
              else
                let '(auth, _) :=
                  span (fun c => negb (ends_authority c)) (lstrip is_slash rest') in
                let '(hostport, at_seen) := after_last_at auth in
                let '(h, after) := span (fun c => negb (code c =? 58)) hostport in
                if is_empty h then Failure
                else
                  match parse_host h with
                  | Parsed u =>
                      match parse_port scheme (drop_str 1 after) with
                      | Some p => Parsed (mkURL scheme (hostname u) p)
                      | None => Failure
                      end
                  | other => other
                  end
        | EmptyString => Failure
        end
  end.

(** The constructor as the handlers call it: [Some] when it returns, [None]
    when it throws. *)
Definition URL_model (input : string) : option URL :=
  match URL_parse input with
  | Parsed u => Some u
  | _ => None
  end.

(** ** URL Normalizer *)

Definition sanitizeUrl (url : string) : string :=
  if negb (startsWith url "http://") && negb (startsWith url "https://")
  then "https://" +:+ url
  else url.

(** ** The patterns of the HTML Rewriter *)

Definition urlAttributes : list string :=
  ["href"; "src"; "action"; "data-src"; "srcset"; "data-srcset"; "poster";
   "background"; "formaction"; "cite"; "longdesc"; "usemap"].

Definition not_quote (c : ascii) : bool := negb (is_quote c).
Definition is_char (n : N) (c : ascii) : bool := code c =? n.

(** [(?:href|src|...)=]: the alternatives in their order, each with the [=]
    that follows the group.  No name contains [=], so at most one
    alternative is followed by it, and a failure further right finds no other
    way through the group. *)
Fixpoint attr_eq (alts : list string) (s : string) : option (string * string) :=
  match alts with
  | [] => None
  | a :: alts' =>
      match lit_ci (a +:+ "=") s with
      | Some r => Some r
      | None => attr_eq alts' s
      end
  end.

(** [https?:\/\/] under the [i] flag. *)
Definition http_scheme (s : string) : option (string * string) :=
  '(h, r) ← lit_ci "http" s;
  match lit_ci "s://" r with
  | Some (t, r') => Some (h +:+ t, r')
  | None => '(t, r') ← lit_ci "://" r; Some (h +:+ t, r')
  end.

(** An optional character of a class, [[...]?]. *)
Definition opt (p : ascii -> bool) (s : string) : string * string :=
  match one p s with
  | Some (c, r) => (str1 c, r)
  | None => (EmptyString, s)
  end.

(** In the comments below [Q] stands for the character class of the two
    quote characters and [^Q] for its complement, so that the patterns of
    [routes.ts] can be quoted here; a blank is put between a star and a closing parenthesis.

    [attributePattern], [((?:href|...)=Q)(?:https?:\/\/[^Q]+)(Q)] with the
    flags [gi]: the first group, the text of the middle group, the last group
    and what follows the match.  The run [[^Q]+] is the longest one: a
    shorter run is followed by a character that is not a quote. *)
Definition attributePattern (s : string)
  : option (string * string * string * string) :=
  '(name, r1) ← attr_eq urlAttributes s;
  '(q, r2) ← one is_quote r1;
  '(sch, r3) ← http_scheme r2;
  let '(body, r4) := span not_quote r3 in
  if is_empty body then None
  else
    '(q', r5) ← one is_quote r4;
    Some (name +:+ str1 q, sch +:+ body, str1 q', r5).

(** [/Q(https?:\/\/[^Q]+)Q/i], tried at the head of [s]: group 1. *)
Definition quotedUrlPattern (s : string) : option string :=
  '(_, r1) ← one is_quote s;
  '(sch, r2) ← http_scheme r1;
  let '(body, r3) := span not_quote r2 in
  if is_empty body then None
  else
    '(_, _) ← one is_quote r3;
    Some (sch +:+ body).

(** [/srcset=Q([^Q]+)Q/gi]: the match and group 1. *)
Definition srcsetPattern (s : string) : option (string * string) :=
  '(name, r1) ← lit_ci "srcset=" s;
  '(q, r2) ← one is_quote r1;
  let '(v, r3) := span not_quote r2 in
  if is_empty v then None
  else
    '(q', _) ← one is_quote r3;
    Some (name +:+ str1 q +:+ v +:+ str1 q', v).

(** [relativeUrlPattern], [((?:href|...)=Q)\/([^Q]* )(Q)] with the flags
    [gi]: the three groups and what follows the match. *)
Definition relativeUrlPattern (s : string)
  : option (string * string * string * string) :=
  '(name, r1) ← attr_eq urlAttributes s;
  '(q, r2) ← one is_quote r1;
  '(_, r3) ← one (is_char 47) r2;
  let '(rel, r4) := span not_quote r3 in
  '(q', r5) ← one is_quote r4;
  Some (name +:+ str1 q, rel, str1 q', r5).

(** [/url\(Q?([^)Q]+)Q?\)/gi]: the match and group 1.  Each optional
    quote is taken when it is there, and the run is the longest one: none of
    the other choices lets the rest of the pattern match. *)
Definition cssUrlPattern (s : string) : option (string * string) :=
  '(u, r1) ← lit_ci "url(" s;
  let '(q, r2) := opt is_quote r1 in
  let '(v, r3) := span (fun c => negb (is_quote c || is_char 41 c)) r2 in
  if is_empty v then None
  else
    let '(q', r4) := opt is_quote r3 in
    '(_, _) ← one (is_char 41) r4;
    Some (u +:+ q +:+ v +:+ q' +:+ ")", v).

(** The part of the inline-style pattern that follows group 1,
    [background-image:url\(([^)]+)\)([^Q]* )Q]: the text of the literal,
    groups 2 and 3 and the closing quote. *)
Definition styleTail (s : string) : option (string * string * string * string) :=
  '(lit, r1) ← lit_ci "background-image:url(" s;
  let '(bg, r2) := span (fun c => negb (is_char 41 c)) r1 in
  if is_empty bg then None
  else
    '(_, r3) ← one (is_char 41) r2;
    let '(suf, r4) := span not_quote r3 in
    '(q, _) ← one is_quote r4;
    Some (lit, bg, suf, str1 q).

(** Group 1, [([^Q]* )], is greedy: of the places inside the run of
    non-quote characters where the rest of the pattern matches, the last one
    is taken.  [g1] is the part of the run already passed. *)
Fixpoint styleBody (g1 : string) (s : string)
  : option (string * string * string * string * string) :=
  let here :=
    '(lit, bg, suf, q) ← styleTail s; Some (g1, lit, bg, suf, q) in
  match s with
  | EmptyString => here
  | String c r =>
      if is_quote c then here
      else
        match styleBody (g1 +:+ str1 c) r with
        | Some m => Some m
        | None => here
        end
  end.

(** [/style=Q([^Q]* )background-image:url\(([^)]+)\)([^Q]* )Q/gi]: the
    match and groups 1, 2, 3. *)
Definition stylePattern (s : string) : option (string * string * string * string) :=
  '(name, r1) ← lit_ci "style=" s;
  '(q, r2) ← one is_quote r1;
  '(g1, lit, bg, suf, q') ← styleBody EmptyString r2;
  Some (name +:+ str1 q +:+ g1 +:+ lit +:+ bg +:+ ")" +:+ suf +:+ q', g1, bg, suf).

(** [/<head[^>]*>/]: the match. *)
Definition headPattern (s : string) : option string :=
  r1 ← strip_prefix "<head" s;
  let '(a, r2) := span (fun c => negb (is_char 62 c)) r1 in
  '(_, _) ← one (is_char 62) r2;
  Some ("<head" +:+ a +:+ ">").

(** ** White space, [trim] and [split]

    The white space of [\s] and of [trim], on UTF-8 bytes: the number of
    bytes of the white-space character at the head of [s], or 0. *)
Definition ws_len (s : string) : nat :=
  match s with
  | String a r =>
      let a := code a in
      if ((9 <=? a) && (a <=? 13)) || (a =? 32) then 1%nat
      else
        match r with
        | String b r' =>
            let b := code b in
            if (a =? 194) && (b =? 160) then 2%nat
            else
              match r' with
              | String c _ =>
                  let c := code c in
                  if (a =? 225) && (b =? 154) && (c =? 128) then 3%nat
                  else if (a =? 226) && (b =? 128) &&
                          (((128 <=? c) && (c <=? 138)) || (c =? 168) ||
                           (c =? 169) || (c =? 175)) then 3%nat
                  else if (a =? 226) && (b =? 129) && (c =? 159) then 3%nat
                  else if (a =? 227) && (b =? 128) && (c =? 128) then 3%nat
                  else if (a =? 239) && (b =? 187) && (c =? 191) then 3%nat
                  else O
              | EmptyString => O
              end
        | EmptyString => O
        end
  | EmptyString => O
  end.

(** A run of white space, [\s*], skipped. *)
Fixpoint skip_ws_from (k : nat) (s : string) : string :=
  match s with
  | EmptyString => EmptyString
  | String _ r =>
      match k with
      | S k' => skip_ws_from k' r
      | O =>
          match ws_len s with
          | S n => skip_ws_from n r
          | O => s
          end
      end
  end.

Definition skip_ws (s : string) : string := skip_ws_from O s.

Fixpoint trimEnd (s : string) : string :=
  match s with
  | EmptyString => EmptyString
  | String c r => if is_empty (skip_ws s) then EmptyString else String c (trimEnd r)
  end.

Definition trim (s : string) : string := trimEnd (skip_ws s).

(** The text up to the next white space, and the rest. *)
Fixpoint token (s : string) : string * string :=
  match s with
  | EmptyString => (EmptyString, EmptyString)
  | String c r =>
      match ws_len s with
      | S _ => (EmptyString, s)
      | O => let '(t, r') := token r in (String c t, r')
      end
  end.

Fixpoint join (sep : string) (l : list string) : string :=
  match l with
  | [] => EmptyString
  | [x] => x
  | x :: xs => x +:+ sep +:+ join sep xs
  end.

(** ** The Client Event Bridge script, as [routes.ts] writes it *)

Definition enhancementScript : string := "
        <script>
          // Notify parent window when page is fully loaded
          window.addEventListener('load', function() {
            window.parent.postMessage('iframe:loaded', '*');
          });

          // Catch errors and send them to parent
          window.addEventListener('error', function(e) {
            window.parent.postMessage('error:' + e.message, '*');
            return false;
          });

          // Handle all link clicks
          document.addEventListener('click', function(e) {
            // Find closest anchor tag
            let target = e.target;
            while (target && target.tagName !== 'A') {
              target = target.parentElement;
            }

            // If we found an anchor and it has an href
            if (target && target.tagName === 'A' && target.href) {
              // Only process if it's not already handled by our proxy
              if (!target.href.includes('/api/proxy')) {
                e.preventDefault();
                window.location.href = '/api/proxy?url=' + encodeURIComponent(target.href);
              }
            }
          }, true);

          // Intercept all XHR requests
          (function(open) {
            XMLHttpRequest.prototype.open = function(method, url) {
              // Only proxy absolute or root-relative URLs
              if (url.startsWith('http') || url.startsWith('/')) {
                // If it's a relative URL, convert to absolute based on current page
                const absoluteUrl = url.startsWith('http') ? url : new URL(url, window.location.href).toString();
                arguments[1] = '/api/proxy?url=' + encodeURIComponent(absoluteUrl);
              }
              return open.apply(this, arguments);
            };
          })(XMLHttpRequest.prototype.open);

          // Intercept fetch requests
          (function(fetch) {
            window.fetch = function(resource, init) {
              // Handle both string URLs and Request objects
              let url = resource;
              if (resource instanceof Request) {
                url = resource.url;
              }

              // Only proxy absolute or root-relative URLs
              if (typeof url === 'string' && (url.startsWith('http') || url.startsWith('/'))) {
                // If it's a relative URL, convert to absolute based on current page
                const absoluteUrl = url.startsWith('http') ? url : new URL(url, window.location.href).toString();
                const proxiedUrl = '/api/proxy?url=' + encodeURIComponent(absoluteUrl);

                if (resource instanceof Request) {
                  resource = new Request(proxiedUrl, resource);
                } else {
                  resource = proxiedUrl;
                }
              }

              return fetch.call(this, resource, init);
            };
          })(window.fetch);

          // Handle form submissions
          document.addEventListener('DOMContentLoaded', function() {
            // Send load notification again after DOM content loaded
            window.parent.postMessage('iframe:loaded', '*');

            // Handle form submissions
            document.querySelectorAll('form').forEach(form => {
              form.addEventListener('submit', function(e) {
                e.preventDefault();
                const formAction = this.action || window.location.href;
                const formMethod = this.method || 'GET';
                const formData = new FormData(this);

                if (formMethod.toUpperCase() === 'GET') {
                  const queryString = new URLSearchParams(formData).toString();
                  const separator = formAction.includes('?') ? '&' : '?';
                  window.location.href = '/api/proxy?url=' + encodeURIComponent(formAction + separator + queryString);
                } else {
                  // POST handling
                  const xhr = new XMLHttpRequest();
                  xhr.open(formMethod, '/api/proxy?url=' + encodeURIComponent(formAction), true);
                  xhr.setRequestHeader('Content-Type', 'application/x-www-form-urlencoded');
                  xhr.onreadystatechange = function() {
                    if (xhr.readyState === 4) {
                      if (xhr.status >= 200 && xhr.status < 400) {
                        // Create a DOM parser to handle the response HTML
                        const parser = new DOMParser();
                        const responseDoc = parser.parseFromString(xhr.responseText, 'text/html');

                        // Replace the current document's HTML
                        document.documentElement.innerHTML = responseDoc.documentElement.innerHTML;

                        // Execute any scripts in the new document
                        const scripts = document.getElementsByTagName('script');
                        for (let i = 0; i < scripts.length; i++) {
                          if (scripts[i].text) {
                            try {
                              eval(scripts[i].text);
                            } catch (error) {
                              console.error('Error executing script:', error);
                            }
                          }
                        }

                        // Notify parent that we've loaded new content
                        window.parent.postMessage('iframe:loaded', '*');
                      } else {
                        console.error('Form submission failed:', xhr.status);
                        window.parent.postMessage('error:Form submission failed with status ' + xhr.status, '*');
                      }
                    }
                  };
                  xhr.send(new URLSearchParams(formData).toString());
                }
              });
            });
          });

          // Fix window.open to use proxy
          const originalWindowOpen = window.open;
          window.open = function(url, name, specs) {
            if (url && (url.startsWith('http') || url.startsWith('/'))) {
              const absoluteUrl = url.startsWith('http') ? url : new URL(url, window.location.href).toString();
              return originalWindowOpen.call(window, '/api/proxy?url=' + encodeURIComponent(absoluteUrl), name, specs);
            }
            return originalWindowOpen.call(window, url, name, specs);
          };
        </script>
        ".

(** ** HTML Rewriter *)

Definition proxyPrefix : string := "/api/proxy?url=".

Section Rewriter.
(** [new URL(s)]: the parsed URL, or [None] when the constructor throws. *)
Variable new_URL : string -> option URL.

(** The page address, [url] in the handler. *)
Variable url : string.

(** [`${originalUrlObj.protocol}//${originalUrlObj.host}`] *)
Definition base_of (originalUrlObj : URL) : string :=
  protocol originalUrlObj +:+ "//" +:+ host originalUrlObj.

(** Pass 1.  The replacer reads [prefix] and [suffix] from the groups and
    finds the address again inside the match. *)
Definition attributeReplacer (match_ prefix suffix : string) : string :=
  match search quotedUrlPattern match_ with
  | Some resourceUrl =>
      if is_empty resourceUrl then match_
      else prefix +:+ proxyPrefix +:+ encodeURIComponent resourceUrl +:+ suffix
  | None => match_
  end.

Definition attributeExec (s : string) : option (nat * string) :=
  '(prefix, u, suffix, _) ← attributePattern s;
  let match_ := prefix +:+ u +:+ suffix in
  Some (strlen match_, attributeReplacer match_ prefix suffix).

Definition rewriteAttributes (html : string) : string :=
  replace_all attributeExec html.

(** Pass 2.  Inside the replacer [url] is the address of the entry, not
    the page address: the destructuring declares a new [url]. *)
Definition srcsetEntry (src : string) : string :=
  let '(url, r) := token (trim src) in
  let descriptor := fst (token (skip_ws r)) in
  let tail := if is_empty descriptor then EmptyString else " " +:+ descriptor in
  if startsWith url "http" then
    proxyPrefix +:+ encodeURIComponent url +:+ tail
  else if startsWith url "/" then
    match new_URL url with
    | Some originalUrlObj =>
        proxyPrefix +:+ encodeURIComponent (base_of originalUrlObj +:+ url) +:+ tail
    | None => src
    end
  else src.

Definition srcsetReplacer (srcset : string) : string :=
  let newSrcset := join ", " (map srcsetEntry (split_on ","%char srcset)) in
  "srcset=" +:+ str1 dquote +:+ newSrcset +:+ str1 dquote.

Definition srcsetExec (s : string) : option (nat * string) :=
  '(match_, srcset) ← srcsetPattern s;
  Some (strlen match_, srcsetReplacer srcset).

Definition rewriteSrcset (html : string) : string :=
  replace_all srcsetExec html.

(** Pass 3. *)
Definition relativeReplacer (match_ prefix relativeUrl suffix : string) : string :=
  match new_URL url with
  | Some originalUrlObj =>
      prefix +:+ proxyPrefix +:+
      encodeURIComponent (base_of originalUrlObj +:+ "/" +:+ relativeUrl) +:+ suffix
  | None => match_
  end.

Definition relativeExec (s : string) : option (nat * string) :=
  '(prefix, relativeUrl, suffix, _) ← relativeUrlPattern s;
  let match_ := prefix +:+ "/" +:+ relativeUrl +:+ suffix in
  Some (strlen match_, relativeReplacer match_ prefix relativeUrl suffix).

Definition rewriteRelative (html : string) : string :=
  replace_all relativeExec html.

(** Pass 4: CSS [url()] references. *)
Definition cssUrlReplacer (match_ resourceUrl : string) : string :=
  if startsWith resourceUrl "http" then
    "url('" +:+ proxyPrefix +:+ encodeURIComponent resourceUrl +:+ "')"
  else if startsWith resourceUrl "/" then
    match new_URL url with
    | Some originalUrlObj =>
        "url('" +:+ proxyPrefix +:+
        encodeURIComponent (base_of originalUrlObj +:+ resourceUrl) +:+ "')"
    | None => match_
    end
  else match_.

Definition cssUrlExec (s : string) : option (nat * string) :=
  '(match_, resourceUrl) ← cssUrlPattern s;
  Some (strlen match_, cssUrlReplacer match_ resourceUrl).

Definition rewriteCssUrls (html : string) : string :=
  replace_all cssUrlExec html.

(** Pass 5: inline styles with a background image. *)
Definition styleReplacer (match_ prefix bgUrl suffix : string) : string :=
  let cleanBgUrl := trim (remove_chars is_quote bgUrl) in
  let wrap (target : string) : string :=
    "style=" +:+ str1 dquote +:+ prefix +:+ "background-image:url('" +:+
    proxyPrefix +:+ encodeURIComponent target +:+ "')" +:+ suffix +:+ str1 dquote in
  if startsWith cleanBgUrl "http" then wrap cleanBgUrl
  else if startsWith cleanBgUrl "/" then
    match new_URL url with
    | Some originalUrlObj => wrap (base_of originalUrlObj +:+ cleanBgUrl)
    | None => match_
    end
  else match_.

Definition styleExec (s : string) : option (nat * string) :=
  '(match_, prefix, bgUrl, suffix) ← stylePattern s;
  Some (strlen match_, styleReplacer match_ prefix bgUrl suffix).

Definition rewriteInlineStyles (html : string) : string :=
  replace_all styleExec html.

(** Pass 6: [/window\.location/g] and its replacement text, which has no
    dollar sign. *)
Definition locationExec (s : string) : option (nat * string) :=
  match strip_prefix "window.location" s with
  | Some _ =>
      Some (strlen "window.location",
            "window.parent.postMessage('navigate:', '*'); window.location")
  | None => None
  end.

Definition rewriteLocation (html : string) : string :=
  replace_all locationExec html.

(** Pass 7: the base tag after the first opening head tag. *)
Definition baseTag : string :=
  "<base href=" +:+ str1 dquote +:+ url +:+ str1 dquote +:+ ">".

Definition headExec (s : string) : option (nat * string) :=
  match_ ← headPattern s;
  Some (strlen match_, match_ +:+ baseTag).

Definition injectBaseTag (html : string) : string :=
  replace_first headExec html.

(** Pass 8: the script before the first closing head tag.  The pattern is
    a string, and the script has no dollar sign for [replace] to expand. *)
Definition closeHeadExec (s : string) : option (nat * string) :=
  match strip_prefix "</head>" s with
  | Some _ => Some (strlen "</head>", enhancementScript +:+ "</head>")
  | None => None
  end.

Definition injectScript (html : string) : string :=
  replace_first closeHeadExec html.

(** The body of the [text/html] branch of the handler. *)
Definition rewriteHtml (html : string) : string :=
  let html := rewriteAttributes html in
  let html := rewriteSrcset html in
  let html := rewriteRelative html in
  let html := rewriteCssUrls html in
  let html := rewriteInlineStyles html in
  let html := rewriteLocation html in
  let html := injectBaseTag html in
  injectScript html.
End Rewriter.

(** ** Buffers

    [body.toString()] decodes UTF-8 and puts U+FFFD in the place of each
    ill-formed sequence, so the text it returns is always well-formed. *)

Abbreviation Buffer := (list Byte.byte).

Definition replacement_char : string :=
  String (ascii_of_N 239) (String (ascii_of_N 191) (String (ascii_of_N 189) EmptyString)).

Fixpoint utf8_decode (need : nat) (lo hi : N) (pending : string) (l : Buffer)
  : string :=
  match l with
  | [] => match need with O => EmptyString | S _ => replacement_char end
  | b :: t =>
      let c := ascii_of_byte b in
      let start :=
        match utf8_lead (code c) with
        | Some (O, _, _) => String c (utf8_decode O 128 191 EmptyString t)
        | Some (n, lo', hi') => utf8_decode n lo' hi' (str1 c) t
        | None => replacement_char +:+ utf8_decode O 128 191 EmptyString t
        end in
      match need with
      | O => start
      | S k =>
          if in_range lo hi c then
            match k with
            | O => pending +:+ String c (utf8_decode O 128 191 EmptyString t)
            | S _ => utf8_decode k 128 191 (pending +:+ str1 c) t
            end
          else replacement_char +:+ start
      end
  end.

Definition Buffer_toString (body : Buffer) : string :=
  utf8_decode O 128 191 EmptyString body.

(** ** Responses *)

Inductive JsonValue : Type :=
| JNull
| JBool (b : bool)
| JNum (n : Z)
| JStr (s : string)
| JDate (t : Z).

(** The objects the handlers answer with are flat. *)
Abbreviation Json := (list (string * JsonValue)).

(** What the handler hands to [res.send] or [res.json]. *)
Inductive Body : Type :=
| NoBody
| SendText (html : string)
| SendBuffer (bytes : Buffer)
| SendJson (j : Json).

(** The response as the handler's calls leave it.  [setHeader] files a header
    under its lower-cased name and keeps the spelling of the last call. *)
Record Response := mkResponse {
  status : N;
  headers : gmap string (string * string);
  body : Body
}.

Definition setHeader (name value : string) (h : gmap string (string * string))
  : gmap string (string * string) :=
  <[toLowerCase name := (name, value)]> h.

Definition json_message (code : N) (message : string) : Response :=
  mkResponse code ∅ (SendJson [("message", JStr message)]).

(** ** Response Relay *)

(** A [Headers] object of the fetch client, as the list [entries()] runs
    through. *)
Abbreviation Headers := (list (string * string)).

Definition headers_get (h : Headers) (name : string) : option string :=
  snd <$> List.find (fun kv => String.eqb (toLowerCase (fst kv)) (toLowerCase name)) h.

Definition safeHeaderKeys : list string :=
  ["content-type"; "content-length"; "date"; "connection";
   "last-modified"; "etag"; "vary"; "content-encoding";
   "content-language"; "expires"; "pragma"; "cache-control";
   "accept-ranges"; "content-range"; "set-cookie"].

Definition list_includes (l : list string) (x : string) : bool :=
  existsb (String.eqb x) l.

(** The loop over [response.headers.entries()]. *)
Definition forwardHeaders (upstream : Headers) (h : gmap string (string * string))
  : gmap string (string * string) :=
  fold_left
    (fun acc kv =>
       if list_includes safeHeaderKeys (toLowerCase (fst kv))
       then setHeader (fst kv) (snd kv) acc
       else acc)
    upstream h.

Definition contentSecurityPolicy : string :=
  "default-src * 'unsafe-inline' 'unsafe-eval' data: blob:; connect-src * data: blob:; img-src * data: blob:; media-src * data: blob:; font-src * data: blob:; script-src * 'unsafe-inline' 'unsafe-eval'; style-src * 'unsafe-inline';".

(** The headers the relay sets after the loop, in the order of the calls. *)
Definition overrideHeaders : Headers :=
  [("Access-Control-Allow-Origin", "*");
   ("Access-Control-Allow-Methods", "GET, POST, PUT, DELETE, OPTIONS, HEAD, PATCH");
   ("Access-Control-Allow-Headers",
    "Origin, X-Requested-With, Content-Type, Accept, Authorization, X-HTTP-Method-Override");
   ("Access-Control-Allow-Credentials", "true");
   ("Access-Control-Max-Age", "86400");
   ("X-Frame-Options", "ALLOWALL");
   ("X-XSS-Protection", "1; mode=block");
   ("X-Content-Type-Options", "nosniff");
   ("Cache-Control", "no-cache, no-store, must-revalidate");
   ("Content-Security-Policy", contentSecurityPolicy)].

Definition setHeaders (l : Headers) (h : gmap string (string * string))
  : gmap string (string * string) :=
  fold_left (fun acc kv => setHeader (fst kv) (snd kv) acc) l h.

Definition relayHeaders (upstream : Headers) : gmap string (string * string) :=
  setHeaders overrideHeaders (forwardHeaders upstream ∅).

(** [response.headers.get('content-type') || 'text/html'] *)
Definition contentTypeOf (upstream : Headers) : string :=
  match headers_get upstream "content-type" with
  | Some v => if is_empty v then "text/html" else v
  | None => "text/html"
  end.

(** ** The proxy endpoint, [app.all('/api/proxy', ...)] *)

Record Request := mkRequest {
  method : string;
  query_url : option string;
  cookie : option string;
  authorization : option string;
  content_type : option string;
  req_body : Buffer
}.

(** The arguments of a call of [fetch]. *)
Record FetchCall := mkFetchCall {
  fetch_url : string;
  fetch_method : string;
  fetch_headers : Headers;
  fetch_body : option Buffer
}.

(** What the upstream answers: its headers and its body, or the error with
    which [arrayBuffer()] rejects. *)
Record Upstream := mkUpstream {
  up_headers : Headers;
  up_body : Buffer + string
}.

(** [fetch] rejects (a network failure) or resolves after the redirects. *)
Inductive FetchOutcome : Type :=
| Rejected (error : string)
| Resolved (response : Upstream).

(** A JavaScript value used as a condition: an absent or empty string is
    falsy. *)
Definition truthy (v : option string) : option string :=
  match v with
  | Some s => if is_empty s then None else Some s
  | None => None
  end.

Definition browserHeaders (url : string) : Headers :=
  [("User-Agent", "Mozilla/5.0 (Windows NT 10.0; Win64; x64) AppleWebKit/537.36 (KHTML, like Gecko) Chrome/120.0.0.0 Safari/537.36");
   ("Referer", url);
   ("Origin", "null");
   ("Accept", "text/html,application/xhtml+xml,application/xml;q=0.9,image/avif,image/webp,image/apng,*/*;q=0.8,application/signed-exchange;v=b3;q=0.7");
   ("Accept-Encoding", "gzip, deflate, br");
   ("Accept-Language", "en-US,en;q=0.9");
   ("Upgrade-Insecure-Requests", "1");
   ("Cache-Control", "max-age=0");
   ("Viewport-Width", "1024");
   ("Sec-Fetch-Dest", "document");
   ("Sec-Fetch-Mode", "navigate");
   ("Sec-Fetch-Site", "none");
   ("Sec-Fetch-User", "?1");
   ("Sec-Ch-Ua", String dquote "Not_A Brand" +:+ String dquote ";v=" +:+
                 String dquote "8" +:+ String dquote ", " +:+
                 String dquote "Chromium" +:+ String dquote ";v=" +:+
                 String dquote "120" +:+ str1 dquote);
   ("Sec-Ch-Ua-Mobile", "?0");
   ("Sec-Ch-Ua-Platform", String dquote "Windows" +:+ str1 dquote)].

Definition optional_header (name : string) (v : option string) : Headers :=
  match truthy v with
  | Some s => [(name, s)]
  | None => []
  end.

Definition proxyFetchCall (req : Request) (url : string) : FetchCall :=
  mkFetchCall url (method req)
    (browserHeaders url ++
     optional_header "Cookie" (cookie req) ++
     optional_header "Authorization" (authorization req) ++
     (if String.eqb (method req) "POST"
      then optional_header "Content-Type" (content_type req) else []))
    (if negb (String.eqb (method req) "GET") && negb (String.eqb (method req) "HEAD")
     then Some (req_body req) else None).

Section Handlers.
Variable new_URL : string -> option URL.

Definition isValidUrl (url : string) : bool :=
  match new_URL url with
  | Some _ => true
  | None => false
  end.

Definition proxyError (h : gmap string (string * string)) (error : string) : Response :=
  mkResponse 500 h
    (SendJson [("message", JStr "Failed to proxy the request"); ("error", JStr error)]).

(** The handler: the response, and the calls of [fetch] it made. *)
Definition proxyHandler (fetch : FetchCall -> FetchOutcome) (req : Request)
  : Response * list FetchCall :=
  match truthy (query_url req) with
  | None => (json_message 400 "URL parameter is required", [])
  | Some urlParam =>
      let url := sanitizeUrl urlParam in
      if negb (isValidUrl url) then (json_message 400 "Invalid URL provided", [])
      else
        let call := proxyFetchCall req url in
        match fetch call with
        | Rejected error => (proxyError ∅ error, [call])
        | Resolved response =>
            let contentType := contentTypeOf (up_headers response) in
            let h := relayHeaders (up_headers response) in
            match up_body response with
            | inr error => (proxyError h error, [call])
            | inl body =>
                if includes contentType "text/html" then
                  let html := Buffer_toString body in
                  (mkResponse 200 h (SendText (rewriteHtml new_URL url html)), [call])
                else (mkResponse 200 h (SendBuffer body), [call])
            end
        end
  end.
End Handlers.

(** ** The recent-searches table, [shared/schema.ts] *)

Record RecentSearch := mkRecentSearch {
  rs_id : Z;
  rs_url : string;
  rs_title : option string;
  rs_favicon : option string;
  rs_visited_at : Z;
  rs_user_id : option Z
}.

(** The table and the sequence behind its [serial] key. *)
Record Db := mkDb {
  rows : list RecentSearch;
  next_id : Z
}.

Definition json_opt_str (v : option string) : JsonValue :=
  match v with Some s => JStr s | None => JNull end.

Definition json_opt_num (v : option Z) : JsonValue :=
  match v with Some n => JNum n | None => JNull end.

Definition row_json (r : RecentSearch) : Json :=
  [("id", JNum (rs_id r)); ("url", JStr (rs_url r));
   ("title", json_opt_str (rs_title r)); ("favicon", json_opt_str (rs_favicon r));
   ("visited_at", JDate (rs_visited_at r)); ("user_id", json_opt_num (rs_user_id r))].

(** [select().from(recentSearches).where(eq(recentSearches.url, u))] *)
Definition select_by_url (u : string) (db : Db) : list RecentSearch :=
  List.filter (fun r => String.eqb (rs_url r) u) (rows db).

(** [update(recentSearches).set({ visited_at }).where(eq(recentSearches.url, u))] *)
Definition touch_url (u : string) (visited_at : Z) (db : Db) : Db :=
  mkDb
    (map (fun r =>
            if String.eqb (rs_url r) u
            then mkRecentSearch (rs_id r) (rs_url r) (rs_title r) (rs_favicon r)
                                visited_at (rs_user_id r)
            else r)
         (rows db))
    (next_id db).

(** [insert(recentSearches).values(search).returning()]: the key comes from
    the sequence, [visited_at] from its default and [user_id] is null. *)
Definition insert_search (u : string) (title favicon : option string) (now : Z) (db : Db)
  : RecentSearch * Db :=
  let r := mkRecentSearch (next_id db) u title favicon now None in
  (r, mkDb (rows db ++ [r]) (next_id db + 1)%Z).

(** [delete(recentSearches).where(eq(recentSearches.id, id))] *)
Definition delete_by_id (id : Z) (db : Db) : Db :=
  mkDb (List.filter (fun r => negb (Z.eqb (rs_id r) id)) (rows db)) (next_id db).

(** ** [parseInt] with no radix

    Leading white space is dropped, then a sign, then [0x] or [0X] (which
    makes the radix 16); the digits that follow are the number, and there is
    no number ([NaN], here [None]) when there is none.  The value is the exact
    integer; the [Number] of JavaScript is that integer up to 2^53. *)

Definition digit_val (radix : N) (c : ascii) : option Z :=
  match hex_val c with
  | Some d => if d <? radix then Some (Z.of_N d) else None
  | None => None
  end.

(** The digits at the head of [s], read in [radix] after [acc]. *)
Fixpoint read_digits (radix : N) (acc : option Z) (s : string) : option Z :=
  match s with
  | EmptyString => acc
  | String c r =>
      match digit_val radix c with
      | Some d =>
          read_digits radix
            (Some (Z.of_N radix * (match acc with Some a => a | None => 0 end) + d)%Z) r
      | None => acc
      end
  end.

Definition parseInt (input : string) : option Z :=
  let s := skip_ws input in
  let '(sign, s) :=
    match s with
    | String c r =>
        if code c =? 45 then ((-1)%Z, r)
        else if code c =? 43 then (1%Z, r)
        else (1%Z, s)
    | EmptyString => (1%Z, s)
    end in
  let '(radix, s) :=
    match s with
    | String z (String x r) =>
        if (code z =? 48) && (code (lower x) =? 120) then (16, r) else (10, s)
    | _ => (10, s)
    end in
  match read_digits radix None s with
  | Some n => Some (sign * n)%Z
  | None => None
  end.

(** ** The recent-searches handlers *)

(** What PostgreSQL takes for a parameter.  A text has no character NUL;
    the key is the column [id] of type [serial] ([schema.ts]), a 32-bit
    integer.  A statement with another parameter is refused, its [await]
    throws, and the [catch] of the route answers 500; the statement has
    changed nothing then. *)
Definition pg_text (s : string) : bool := negb (any_char (is_char 0) s).

Definition pg_int4 (n : Z) : bool :=
  (-2147483648 <=? n)%Z && (n <=? 2147483647)%Z.

(** A field of [req.body], the parsed JSON of the request: a text, or a
    value that is not a text ([null], a boolean, a number, an array, an
    object).  Of such a value the route uses whether it is truthy, and it may
    hand it to the driver; what the value is beyond that is left open. *)
Inductive BodyValue (Other : Type) : Type :=
| BString (s : string)
| BOther (v : Other).

Arguments BString {Other} s.
Arguments BOther {Other} v.

Section RecentSearches.
Variable new_URL : string -> option URL.

Variable Other : Type.

(** A value that is not a text, used as a condition: [null], [false] and
    [0] are falsy. *)
Variable other_truthy : Other -> bool.

(** The text that the driver binds to a text column for a value that is not
    a text, or [None] when the statement is refused for it. *)
Variable driver_text : Other -> option string.

(** A field used as a condition: the field itself when it is truthy. *)
Definition truthy_value (v : option (BodyValue Other)) : option (BodyValue Other) :=
  match v with
  | Some (BString s) => if is_empty s then None else v
  | Some (BOther o) => if other_truthy o then v else None
  | None => None
  end.

(** [a || b], with a text for [b]. *)
Definition value_or (a : option (BodyValue Other)) (b : string) : BodyValue Other :=
  match truthy_value a with
  | Some v => v
  | None => BString b
  end.

(** The text stored for a value bound to a text column, or [None] when the
    statement is refused. *)
Definition text_param (v : BodyValue Other) : option string :=
  match v with
  | BString s => if pg_text s then Some s else None
  | BOther o => driver_text o
  end.

(** [app.post('/api/recent-searches', ...)], at the time [now], on the
    fields [url], [title] and [favicon] of the request body.  A [url] that is
    truthy and not a text has no [startsWith]: the call of [sanitizeUrl]
    throws.  The three statements are the [select], the [update] and the
    [insert] of the route. *)
Definition postRecentSearch (now : Z) (url title favicon : option (BodyValue Other))
    (db : Db) : Response * Db :=
  let failed := (json_message 500 "Failed to save recent search", db) in
  match truthy_value url with
  | None => (json_message 400 "URL is required", db)
  | Some (BOther _) => failed
  | Some (BString url) =>
      let sanitizedUrl := sanitizeUrl url in
      if negb (isValidUrl new_URL sanitizedUrl)
      then (json_message 400 "Invalid URL provided", db)
      else
        match new_URL sanitizedUrl with
        | None => failed
        | Some parsed =>
            let title := value_or title (hostname parsed) in
            let favicon :=
              value_or favicon ("https://www.google.com/s2/favicons?domain=" +:+ sanitizedUrl) in
            if negb (pg_text sanitizedUrl) then failed
            else
              match select_by_url sanitizedUrl db with
              | existing0 :: _ =>
                  (mkResponse 200 ∅ (SendJson (row_json existing0)),
                   touch_url sanitizedUrl now db)
              | [] =>
                  match text_param title, text_param favicon with
                  | Some title, Some favicon =>
                      let '(inserted0, db') :=
                        insert_search sanitizedUrl (Some title) (Some favicon) now db in
                      (mkResponse 200 ∅ (SendJson (row_json inserted0)), db')
                  | _, _ => failed
                  end
              end
        end
  end.

(** [app.delete('/api/recent-searches/:id', ...)] *)
Definition deleteRecentSearch (id_param : string) (db : Db) : Response * Db :=
  match parseInt id_param with
  | None => (json_message 400 "Invalid ID provided", db)
  | Some id =>
      if pg_int4 id
      then (mkResponse 200 ∅ (SendJson [("success", JBool true)]), delete_by_id id db)
      else (json_message 500 "Failed to delete recent search", db)
  end.
End RecentSearches.

Arguments truthy_value {Other} other_truthy v.
Arguments value_or {Other} other_truthy a b.
Arguments text_param {Other} driver_text v.
Arguments postRecentSearch new_URL {Other} other_truthy driver_text now url title favicon db.

(** * The rest of the routes, and the client that calls them *)

(** ** The preflight route, [app.options('/api/proxy', ...)]

    [res.sendStatus(200)] sends the status with its reason phrase as the
    body. *)

Definition preflightHeaders : Headers :=
  [("Access-Control-Allow-Origin", "*");
   ("Access-Control-Allow-Methods", "GET, POST, PUT, DELETE, OPTIONS, HEAD, PATCH");
   ("Access-Control-Allow-Headers",
    "Origin, X-Requested-With, Content-Type, Accept, Authorization, X-HTTP-Method-Override");
   ("Access-Control-Allow-Credentials", "true");
   ("Access-Control-Max-Age", "86400")].

Definition optionsHandler : Response :=
  mkResponse 200 (setHeaders preflightHeaders ∅) (SendText "OK").

(** ** The list route, [app.get('/api/recent-searches', ...)]

    [orderBy(desc(recentSearches.visited_at)).limit(10)].  The order of two
    rows of the same time is left open by the query; here the row stored
    first comes first. *)

Fixpoint insert_desc (r : RecentSearch) (l : list RecentSearch) : list RecentSearch :=
  match l with
  | [] => [r]
  | x :: t =>
      if (rs_visited_at x <=? rs_visited_at r)%Z then r :: l
      else x :: insert_desc r t
  end.

Fixpoint order_by_visited_desc (l : list RecentSearch) : list RecentSearch :=
  match l with
  | [] => []
  | x :: t => insert_desc x (order_by_visited_desc t)
  end.

Definition select_recent (db : Db) : list RecentSearch :=
  firstn 10 (order_by_visited_desc (rows db)).

(** The status and the array the handler answers with. *)
Definition getRecentSearches (db : Db) : N * list Json :=
  (200, map row_json (select_recent db)).

(** ** [client/src/lib/proxyUtils.ts] *)

Module ProxyUtils.
Section WithURL.
Variable new_URL : string -> option URL.

Definition proxyUrl (url : string) : string :=
  "/api/proxy?url=" +:+ encodeURIComponent url.

(** The sanitized address, or [None] for [false]. *)
Definition sanitizeUrl (url : string) : option string :=
  let sanitized :=
    if negb (startsWith url "http://") && negb (startsWith url "https://")
    then "https://" +:+ url
    else url in
  match new_URL sanitized with
  | Some _ => Some sanitized
  | None => None
  end.
End WithURL.
End ProxyUtils.

(** ** The search form, [SearchForm.tsx] *)

Module SearchForm.
Section WithURL.
Variable new_URL : string -> option URL.

(** [isValidUrl]: the address with its scheme, or [None] for [false]. *)
Definition isValidUrl (text : string) : option string :=
  let url :=
    if negb (startsWith text "http://") && negb (startsWith text "https://")
    then "https://" +:+ text
    else text in
  match new_URL url with
  | Some _ => Some url
  | None => None
  end.

(** [handleSubmit]: the address handed to [onSearch], or [None] when the
    form shows its error. *)
Definition handleSubmit (urlInput : string) : option string :=
  match truthy (isValidUrl urlInput) with
  | Some sanitizedUrl => Some sanitizedUrl
  | None => None
  end.
End WithURL.
End SearchForm.

(** ** The page, [pages/Home.tsx] *)

(** The body of a [POST /api/recent-searches]. *)
Record SearchData := mkSearchData {
  sd_url : string;
  sd_title : option string;
  sd_favicon : option string
}.

Module Home.
Section WithURL.
Variable new_URL : string -> option URL.

(** [handleSearch]: what [saveSearchMutation.mutate] is given, or [None]
    when [new URL(url)] throws and the handler shows its toast. *)
Definition handleSearch (url : string) : option SearchData :=
  match new_URL url with
  | Some parsed =>
      Some (mkSearchData url (Some (hostname parsed))
              (Some ("https://www.google.com/s2/favicons?domain=" +:+ url)))
  | None => None
  end.
End WithURL.

(** [handleRemoveSearch]: the path of the [DELETE] request that
    [deleteSearchMutation] sends, [`/api/recent-searches/${id}`].  The id is
    a key of the table, a whole number, which the template prints in
    decimal. *)
Definition handleRemoveSearch (id : Z) : string :=
  "/api/recent-searches/" +:+ pretty id.
End Home.

(** ** The page that keeps its list in the browser (the earlier [Home.tsx]) *)

Record LocalSearch := mkLocalSearch {
  ls_url : string;
  ls_favicon : string;
  ls_title : string
}.

Module HomeLocal.
Section WithURL.
Variable new_URL : string -> option URL.

(** [handleSearch], on the list of recent searches: the new list, or [None]
    when [new URL(url)] throws. *)
Definition handleSearch (url : string) (recentSearches : list LocalSearch)
  : option (list LocalSearch) :=
  let searchExists :=
    existsb (fun search => String.eqb (ls_url search) url) recentSearches in
  if negb searchExists then
    match new_URL url with
    | Some parsed =>
        Some (mkLocalSearch url
                ("https://www.google.com/s2/favicons?domain=" +:+ url)
                (hostname parsed)
              :: firstn 4 recentSearches)
    | None => None
    end
  else Some recentSearches.

Definition handleRemoveSearch (urlToRemove : string) (prev : list LocalSearch)
  : list LocalSearch :=
  List.filter (fun search => negb (String.eqb (ls_url search) urlToRemove)) prev.
End WithURL.
End HomeLocal.

(** ** The frame host, [ProxyFrame.tsx] *)

(** What the listener does with a message of the frame. *)
Inductive FrameAction : Type :=
| CallOnLoad
| CallOnError (message : string)
| LogNavigation (navigationUrl : string)
| NoAction.

Module ProxyFrame.
(** [handleIframeEvent], on the text of [event.data]. *)
Definition handleIframeEvent (data : string) : FrameAction :=
  if String.eqb data "iframe:loaded" then CallOnLoad
  else if startsWith data "error:" then CallOnError (drop_str 6 data)
  else if startsWith data "navigate:" then
    let navigationUrl := drop_str 9 data in
    if is_empty navigationUrl then NoAction else LogNavigation navigationUrl
  else NoAction.

(** [setSecureConnection(url.startsWith('https://'))] *)
Definition secureConnection (url : string) : bool := startsWith url "https://".
End ProxyFrame.

(** ** [script.js] *)

Record PageAnalysisResult := mkPageAnalysis {
  trackers : list string;
  ads : list string;
  trackerCount : nat;
  adCount : nat
}.

Module Script.
Definition trackerDomains : list string :=
  ["google-analytics.com"; "facebook.net"; "doubleclick.net"; "adobe.com";
   "hotjar.com"; "clicktale.net"; "quantserve.com"; "scorecardresearch.com"].

Definition adDomains : list string :=
  ["googleadservices.com"; "googlesyndication.com"; "adnxs.com";
   "rubiconproject.com"; "advertising.com"; "adroll.com"; "moatads.com";
   "amazon-adsystem.com"].

(** One [domains.forEach] over the address of one script: a domain the
    address contains is pushed unless it is there already. *)
Definition note_domains (domains : list string) (found : list string) (src : string)
  : list string :=
  fold_left
    (fun found domain =>
       if includes src domain && negb (list_includes found domain)
       then found ++ [domain]
       else found)
    domains found.

(** [analyzePageContent], on the [src] of the scripts of the document (the
    empty text for a script without one). *)
Definition analyzePageContent (scripts : list string) : PageAnalysisResult :=
  let trackersFound := fold_left (note_domains trackerDomains) scripts [] in
  let adsFound := fold_left (note_domains adDomains) scripts [] in
  mkPageAnalysis trackersFound adsFound (length trackersFound) (length adsFound).

Definition blockedDomains : list string :=
  ["malware-site.com"; "scam-redirect.net"; "data-harvester.org";
   "tracking-redirect.com"].

Section WithURL.
Variable new_URL : string -> option URL.

Definition shouldBlockRedirect (url : string) : bool :=
  match new_URL url with
  | Some urlObj => existsb (fun domain => includes (hostname urlObj) domain) blockedDomains
  | None => false
  end.

(** [handleNavigation] with a function for [navCallback]: what it returns,
    and the address the callback is called with, if it is called.  The
    result of [getSecurityInfo] is not used. *)
Definition handleNavigation (navigationUrl : string) : bool * option string :=
  let url :=
    if negb (startsWith navigationUrl "http://") &&
       negb (startsWith navigationUrl "https://")
    then "https://" +:+ navigationUrl
    else navigationUrl in
  if shouldBlockRedirect url then (false, None)
  else (true, Some url).

Definition sanitizeUrl (url : string) : option string :=
  let sanitized :=
    if negb (startsWith url "http://") && negb (startsWith url "https://")
    then "https://" +:+ url
    else url in
  match new_URL sanitized with
  | Some _ => Some sanitized
  | None => None
  end.
End WithURL.
End Script.

(** * The vocabulary of the statements *)

(** The escapes of [encodeURIComponent] read back as the bytes they name. *)
Definition encoded_items (s : string) : list (bool * ascii) :=
  map (fun c => (negb (uri_unreserved c), c)) (list_ascii_of_string s).

(** No match of the pattern starts inside [pre] when the text is
    [pre +:+ rest]: the scan reaches [rest] having copied [pre]. *)
Fixpoint unmatched {A} (pattern : string -> option A) (pre rest : string) : bool :=
  match pre with
  | EmptyString => true
  | String c pre' =>
      match pattern (pre +:+ rest) with
      | Some _ => false
      | None => unmatched pattern pre' rest
      end
  end.

(** The scan of [replace_all] over [pre +:+ rest] comes to stand exactly
    between [pre] and [rest], no match reaching across: what it has written
    for [pre] by then.  [skip] counts the characters of a match still to be
    passed over. *)
Fixpoint scanned (exec : string -> option (nat * string)) (skip : nat)
    (pre rest : string) : option string :=
  match pre with
  | EmptyString => match skip with O => Some EmptyString | S _ => None end
  | String c pre' =>
      match skip with
      | S k => scanned exec k pre' rest
      | O =>
          match exec (pre +:+ rest) with
          | Some (O, rep) =>
              option_map (fun out => rep +:+ String c out) (scanned exec O pre' rest)
          | Some (S k, rep) =>
              option_map (fun out => rep +:+ out) (scanned exec k pre' rest)
          | None => option_map (String c) (scanned exec O pre' rest)
          end
      end
  end.

(** The names of the monitored attributes, in any spelling of the letters. *)
Definition monitored (name : string) : Prop :=
  In (toLowerCase name) urlAttributes.

(** The two spellings of the scheme of an absolute address, in any case. *)
Definition http_scheme_text (sch : string) : Prop :=
  toLowerCase sch = "http://" \/ toLowerCase sch = "https://".

(** An absolute address as the first pattern reads it between two quotes:
    the scheme, then at least one character, and no quote of either kind. *)
Definition absolute_http (u : string) : Prop :=
  exists sch body,
    u = sch +:+ body /\ http_scheme_text sch /\ body <> EmptyString /\
    all_chars not_quote u = true.

(** The text of an attribute: its name, the equals sign, and the value
    between an opening and a closing quote. *)
Definition attribute (name : string) (q : ascii) (value : string) (q' : ascii)
  : string :=
  name +:+ "=" +:+ str1 q +:+ value +:+ str1 q'.

(** A request [GET /api/proxy?url=...] with no cookie and no body. *)
Definition get_request (url : string) : Request :=
  mkRequest "GET" (Some url) None None None [].

(** An upstream that answers every call with a small HTML page and no
    [Content-Type]. *)
Definition sample_page : Buffer :=
  String.list_byte_of_string "<html><head></head><img src='https://cdn.x.com/a.png'></html>".

Definition typeless_upstream (call : FetchCall) : FetchOutcome :=
  Resolved (mkUpstream [("etag", "abc")] (inl sample_page)).

(** An upstream that answers with the same page and an empty
    [Content-Type]. *)
Definition empty_type_upstream (call : FetchCall) : FetchOutcome :=
  Resolved (mkUpstream [("content-type", EmptyString)] (inl sample_page)).

Definition png_bytes : Buffer :=
  [Byte.x89; Byte.x50; Byte.x4e; Byte.x47; Byte.x0d; Byte.x0a; Byte.x1a; Byte.x0a].

Definition png_upstream (call : FetchCall) : FetchOutcome :=
  Resolved (mkUpstream [("content-type", "image/png")] (inl png_bytes)).

(** The last header of a list filed under the lower-cased name [k]. *)
Definition last_named (l : Headers) (k : string) : option (string * string) :=
  List.find (fun kv => String.eqb (toLowerCase (fst kv)) k) (rev l).

Definition is_safe (kv : string * string) : bool :=
  list_includes safeHeaderKeys (toLowerCase (fst kv)).

(** An upstream that sends an allow-listed header, two headers outside the
    list and its own cache policy. *)
Definition guarded_upstream_headers : Headers :=
  [("cache-control", "max-age=3600"); ("content-type", "image/png");
   ("etag", "abc"); ("x-frame-options", "DENY"); ("x-powered-by", "PHP")].

Definition guarded_upstream (call : FetchCall) : FetchOutcome :=
  Resolved (mkUpstream guarded_upstream_headers (inl png_bytes)).




(** Requests whose fields are all texts: there is no other value. *)
Definition no_other_truthy (v : Empty_set) : bool := match v with end.

Definition no_other_text (v : Empty_set) : option string := match v with end.




(** A numeric id: decimal digits, and at least one. *)
Definition is_decimal (s : string) : bool :=
  negb (is_empty s) && all_chars is_digit s.

Definition sample_row (id : Z) : RecentSearch :=
  mkRecentSearch id "https://foo.com" (Some "foo.com") None 100 None.


(** [a] is not older than [b]. *)
Definition not_older (a b : RecentSearch) : Prop :=
  (rs_visited_at b <= rs_visited_at a)%Z.

(** A list in the order of the query: each record is not older than the
    records after it. *)
Definition newest_first (l : list RecentSearch) : Prop :=
  StronglySorted not_older l.

(** A character that may stand inside a CSS [url()] reference as the
    pattern reads it: no quote and no closing parenthesis. *)
Definition css_plain (c : ascii) : bool := negb (is_quote c || is_char 41 c).

(** Nothing, or one quote character. *)
Definition optional_quote (s : string) : Prop :=
  s = EmptyString \/ exists q, is_quote q = true /\ s = str1 q.

(** The text of a CSS reference: [url(], the reference between optional
    quotes, and the closing parenthesis. *)
Definition css_url (lit oq v cq : string) : string :=
  lit +:+ oq +:+ v +:+ cq +:+ ")".

(** A character that stands for itself inside one parameter of a query
    string: an unreserved one, or the percent sign of an escape. *)
Definition query_safe (c : ascii) : bool := uri_unreserved c || is_char 37 c.

(** * Properties *)

(** ** Strings *)

#[local] Arguments String.append : simpl nomatch.

Lemma append_assoc (a b c : string) : (a +:+ b) +:+ c = a +:+ (b +:+ c).
Proof. induction a as [|x a IH]; simpl; [reflexivity | now rewrite IH]. Qed.

(** A fact about every character, by enumeration. *)
Ltac each_char c :=
  destruct c as [[] [] [] [] [] [] [] []]; vm_compute; try reflexivity;
  try discriminate; try (intros; discriminate); try (split; reflexivity).

(** ** The round trip of percent-encoding *)

Lemma hex_digits_of_char (c : ascii) :
  hex_val (hex_digit (code c / 16)) = Some (code c / 16) /\
  hex_val (hex_digit (code c mod 16)) = Some (code c mod 16) /\
  ascii_of_N (16 * (code c / 16) + code c mod 16) = c.
Proof. each_char c; repeat split. Qed.

Lemma unreserved_is_plain (c : ascii) :
  uri_unreserved c = true ->
  (code c =? 37) = false /\ utf8_lead (code c) = Some (O, 128, 191).
Proof. each_char c. Qed.

Lemma high_byte_is_escaped (c : ascii) :
  (128 <=? code c) = true -> uri_unreserved c = false.
Proof. each_char c. Qed.

Lemma utf8_lead_lo (b : N) (n : nat) (lo hi : N) :
  utf8_lead b = Some (n, lo, hi) -> 128 <= lo.
Proof.
  unfold utf8_lead.
  repeat match goal with
         | |- context [if ?t then _ else _] => destruct t
         end; intros H; inversion H; subst; lia.
Qed.

Lemma uri_unescape_encode (s : string) :
  uri_unescape (encodeURIComponent s) = Some (encoded_items s).
Proof.
  induction s as [|c r IH]; [reflexivity |].
  unfold encoded_items in *. cbn [encodeURIComponent list_ascii_of_string map].
  destruct (uri_unreserved c) eqn:Hu.
  - destruct (unreserved_is_plain c Hu) as [Hp _].
    cbn [uri_unescape]. rewrite Hp, IH. reflexivity.
  - destruct (hex_digits_of_char c) as (Hh & Hl & Hc).
    unfold uri_escape. cbn [String.append uri_unescape].
    change (code percent =? 37) with true. cbn iota.
    rewrite Hh, Hl, IH, Hc. reflexivity.
Qed.

Lemma uri_octets_encoded (s : string) :
  forall need lo hi,
    (need <> O -> 128 <= lo) ->
    utf8_from need lo hi s = true ->
    uri_octets need lo hi (encoded_items s) = Some s.
Proof.
  induction s as [|c r IH]; intros need lo hi Hlo Hv.
  - destruct need; [reflexivity | discriminate].
  - unfold encoded_items in *. cbn [list_ascii_of_string map uri_octets].
    cbn [utf8_from] in Hv. destruct need as [|k].
    + destruct (utf8_lead (code c)) as [[[n l] h]|] eqn:Hlead; [|discriminate].
      destruct (uri_unreserved c) eqn:Hu; cbn [negb].
      * destruct (unreserved_is_plain c Hu) as [_ Hplain].
        rewrite Hplain in Hlead. inversion Hlead; subst.
        rewrite (IH O 128 191); [reflexivity | intros; lia | exact Hv].
      * rewrite (IH n l h); [reflexivity | | exact Hv].
        intros _. exact (utf8_lead_lo _ _ _ _ Hlead).
    + apply andb_true_iff in Hv. destruct Hv as [Hr Hv].
      assert (Hesc : uri_unreserved c = false).
      { apply high_byte_is_escaped. unfold in_range in Hr.
        apply andb_true_iff in Hr. destruct Hr as [Hr _].
        apply N.leb_le in Hr. apply N.leb_le. specialize (Hlo ltac:(discriminate)). lia. }
      rewrite Hesc. cbn [negb andb]. rewrite Hr.
      rewrite (IH k 128 191); [reflexivity | intros; lia | exact Hv].
Qed.

(** Decoding what [encodeURIComponent] wrote gives the text back. *)
Lemma decode_encode (s : string) :
  utf8_valid s = true -> decodeURIComponent (encodeURIComponent s) = Some s.
Proof.
  intros Hv. unfold decodeURIComponent. rewrite uri_unescape_encode.
  apply uri_octets_encoded; [intros H; now destruct H | exact Hv].
Qed.

(** ** The scan of [replace] *)

Lemma unmatched_tail {A} (pattern : string -> option A) c pre rest :
  unmatched pattern (String c pre) rest = true ->
  pattern (String c (pre +:+ rest)) = None /\ unmatched pattern pre rest = true.
Proof.
  simpl. destruct (pattern (String c (pre +:+ rest))); [discriminate | auto].
Qed.

Section ReplaceFacts.
Variable exec : string -> option (nat * string).

Lemma replace_from_skip (a b : string) :
  replace_from exec (strlen a) (a +:+ b) = replace_all exec b.
Proof. induction a as [|x a IH]; simpl; [reflexivity | exact IH]. Qed.

(** A match at the head is replaced, and the scan resumes after it. *)
Lemma replace_all_match (m rep post : string) :
  m <> EmptyString ->
  exec (m +:+ post) = Some (strlen m, rep) ->
  replace_all exec (m +:+ post) = rep +:+ replace_all exec post.
Proof.
  intros Hm He. destruct m as [|c m]; [congruence |].
  unfold replace_all at 1. simpl in *. rewrite He.
  now rewrite replace_from_skip.
Qed.

(** What no match covers is copied. *)
Lemma replace_all_prefix (pre rest : string) :
  unmatched exec pre rest = true ->
  replace_all exec (pre +:+ rest) = pre +:+ replace_all exec rest.
Proof.
  induction pre as [|c pre IH]; intros Hn; [reflexivity |].
  destruct (unmatched_tail _ _ _ _ Hn) as [H0 Hn'].
  unfold replace_all in *. simpl. rewrite H0. f_equal. now apply IH.
Qed.

(** The scan up to a point where it stands between two matches. *)
Lemma replace_from_scanned (pre rest : string) :
  forall skip out,
    scanned exec skip pre rest = Some out ->
    replace_from exec skip (pre +:+ rest) = out +:+ replace_all exec rest.
Proof.
  induction pre as [|c pre IH]; intros skip out Hs.
  - destruct skip; [| discriminate]. now injection Hs as <-.
  - cbn [scanned] in Hs. destruct skip as [|k].
    + cbn [String.append replace_from].
      change (String c (pre +:+ rest)) with (String c pre +:+ rest).
      destruct (exec (String c pre +:+ rest)) as [[[|j] rep]|].
      * destruct (scanned exec O pre rest) as [o|] eqn:E; [| discriminate].
        injection Hs as <-. rewrite (IH O o E). now rewrite !append_assoc.
      * destruct (scanned exec j pre rest) as [o|] eqn:E; [| discriminate].
        injection Hs as <-. rewrite (IH j o E). now rewrite !append_assoc.
      * destruct (scanned exec O pre rest) as [o|] eqn:E; [| discriminate].
        injection Hs as <-. now rewrite (IH O o E).
    + cbn [String.append replace_from]. now apply IH.
Qed.

Lemma replace_all_reached (pre m rep post out : string) :
  scanned exec O pre (m +:+ post) = Some out ->
  m <> EmptyString ->
  exec (m +:+ post) = Some (strlen m, rep) ->
  replace_all exec (pre +:+ m +:+ post)
  = out +:+ rep +:+ replace_all exec post.
Proof.
  intros Hs Hm He. unfold replace_all at 1.
  rewrite (replace_from_scanned _ _ _ _ Hs).
  now rewrite (replace_all_match m rep post Hm He).
Qed.
End ReplaceFacts.

(** ** Pieces of the patterns *)

Lemma is_quote_lower (c : ascii) : is_quote (lower c) = is_quote c.
Proof. each_char c. Qed.

Lemma one_head (p : ascii -> bool) (c : ascii) (r : string) :
  p c = true -> one p (String c r) = Some (c, r).
Proof. intros H. simpl. now rewrite H. Qed.

Lemma span_all (p : ascii -> bool) (m : string) (c : ascii) (r : string) :
  all_chars p m = true -> p c = false ->
  span p (m +:+ String c r) = (m, String c r).
Proof.
  intros Hm Hc. induction m as [|x m IH]; simpl in *.
  - now rewrite Hc.
  - apply andb_true_iff in Hm. destruct Hm as [Hx Hm].
    rewrite Hx, (IH Hm). reflexivity.
Qed.

Lemma search_skip {A} (exec : string -> option A) (pre s : string) :
  unmatched exec pre s = true -> search exec (pre +:+ s) = search exec s.
Proof.
  induction pre as [|c pre IH]; intros Hn; [reflexivity |].
  destruct (unmatched_tail _ _ _ _ Hn) as [H0 Hn'].
  simpl. rewrite H0. now apply IH.
Qed.

(** A name is taken apart into its characters, each known up to its case. *)
Ltac spell name H :=
  repeat (destruct name as [|?c name];
          [discriminate H |
           cbn [toLowerCase] in H; injection H as ? H]);
  try (destruct name; [clear H | discriminate H]).

Ltac by_spelling :=
  unfold eq_ci, not_quote;
  repeat match goal with
         | H : lower ?c = _ |- _ =>
             rewrite <- ?(is_quote_lower c); rewrite ?H; clear H
         end;
  reflexivity.

Lemma monitored_attr_eq (name r : string) :
  monitored name ->
  attr_eq urlAttributes (name +:+ "=" +:+ r) = Some (name +:+ "=", r).
Proof.
  unfold monitored, urlAttributes. cbn [In]. intros H.
  repeat (destruct H as [H|H]; [symmetry in H|]); try contradiction;
    spell name H;
    cbn [attr_eq lit_ci String.append]; by_spelling.
Qed.

Lemma monitored_no_quote (name : string) :
  monitored name -> all_chars not_quote (name +:+ "=") = true.
Proof.
  unfold monitored, urlAttributes. cbn [In]. intros H.
  repeat (destruct H as [H|H]; [symmetry in H|]); try contradiction;
    spell name H; cbn [all_chars String.append]; by_spelling.
Qed.

Lemma lower_idem (c : ascii) : lower (lower c) = lower c.
Proof. each_char c. Qed.

Lemma eq_ci_lower_r (a c : ascii) : eq_ci a (lower c) = eq_ci a c.
Proof. unfold eq_ci. now rewrite lower_idem. Qed.

(** The tests on characters known up to their case are decided one by one,
    as the reduction of the pattern meets them. *)
Ltac decide_ci :=
  repeat match goal with
         | H : lower ?c = ?k |- context [eq_ci ?a ?c] =>
             rewrite <- (eq_ci_lower_r a c), H
         | |- context [eq_ci ?a ?b] =>
             let v := eval vm_compute in (eq_ci a b) in
             match v with
             | true => change (eq_ci a b) with true
             | false => change (eq_ci a b) with false
             end
         end.

Lemma http_scheme_match (sch r : string) :
  http_scheme_text sch -> http_scheme (sch +:+ r) = Some (sch, r).
Proof.
  intros [H|H]; spell sch H; unfold http_scheme;
    repeat (progress (cbn [lit_ci String.append mbind option_bind]; decide_ci));
    reflexivity.
Qed.

Lemma http_scheme_text_not_empty (sch body : string) :
  http_scheme_text sch -> is_empty (sch +:+ body) = false.
Proof. intros [H|H]; destruct sch; try discriminate H; reflexivity. Qed.

Lemma not_quote_unmatched {A} (pattern : string -> option A) (pre s : string) :
  (forall c r, is_quote c = false -> pattern (String c r) = None) ->
  all_chars not_quote pre = true ->
  unmatched pattern pre s = true.
Proof.
  intros Hp. induction pre as [|c pre IH]; intros Hq; [reflexivity |].
  simpl in Hq. apply andb_true_iff in Hq. destruct Hq as [Hc Hq].
  simpl. rewrite Hp; [now apply IH |].
  unfold not_quote in Hc. now destruct (is_quote c).
Qed.

Lemma quotedUrlPattern_needs_quote (c : ascii) (r : string) :
  is_quote c = false -> quotedUrlPattern (String c r) = None.
Proof. intros H. unfold quotedUrlPattern. simpl. now rewrite H. Qed.

Lemma quotedUrlPattern_match (q q' : ascii) (sch body post : string) :
  is_quote q = true -> is_quote q' = true ->
  http_scheme_text sch -> body <> EmptyString ->
  all_chars not_quote body = true ->
  quotedUrlPattern (String q (sch +:+ body +:+ String q' post)) = Some (sch +:+ body).
Proof.
  intros Hq Hq' Hs Hb Hnq. unfold quotedUrlPattern.
  rewrite one_head by exact Hq. cbn [mbind option_bind].
  rewrite http_scheme_match by exact Hs. cbn [mbind option_bind].
  rewrite span_all; [| exact Hnq | unfold not_quote; now rewrite Hq'].
  destruct body; [congruence |]. cbn [is_empty].
  rewrite one_head by exact Hq'. reflexivity.
Qed.

Lemma attributePattern_match (name sch body post : string) (q q' : ascii) :
  monitored name -> is_quote q = true -> is_quote q' = true ->
  http_scheme_text sch -> body <> EmptyString ->
  all_chars not_quote body = true ->
  attributePattern (name +:+ "=" +:+ String q (sch +:+ body +:+ String q' post))
  = Some (name +:+ "=" +:+ str1 q, sch +:+ body, str1 q', post).
Proof.
  intros Hm Hq Hq' Hs Hb Hnq. unfold attributePattern.
  rewrite monitored_attr_eq by exact Hm. cbn [mbind option_bind].
  rewrite one_head by exact Hq. cbn [mbind option_bind].
  rewrite http_scheme_match by exact Hs. cbn [mbind option_bind].
  rewrite span_all; [| exact Hnq | unfold not_quote; now rewrite Hq'].
  destruct body; [congruence |]. cbn [is_empty].
  rewrite one_head by exact Hq'. cbn [mbind option_bind].
  now rewrite append_assoc.
Qed.

Lemma all_chars_append (p : ascii -> bool) (a b : string) :
  all_chars p (a +:+ b) = all_chars p a && all_chars p b.
Proof.
  induction a as [|x a IH]; simpl; [reflexivity |].
  rewrite IH. now rewrite andb_assoc.
Qed.

Lemma search_head {A} (exec : string -> option A) (s : string) (a : A) :
  exec s = Some a -> search exec s = Some a.
Proof. intros H. destruct s; simpl; now rewrite H. Qed.

Lemma attributeReplacer_match (name sch body : string) (q q' : ascii) :
  monitored name -> is_quote q = true -> is_quote q' = true ->
  http_scheme_text sch -> body <> EmptyString ->
  all_chars not_quote body = true ->
  attributeReplacer
    ((name +:+ "=" +:+ str1 q) +:+ (sch +:+ body) +:+ str1 q')
    (name +:+ "=" +:+ str1 q) (str1 q')
  = (name +:+ "=" +:+ str1 q) +:+ proxyPrefix +:+
    encodeURIComponent (sch +:+ body) +:+ str1 q'.
Proof.
  intros Hm Hq Hq' Hs Hb Hnq. unfold attributeReplacer.
  replace ((name +:+ "=" +:+ str1 q) +:+ (sch +:+ body) +:+ str1 q')
    with ((name +:+ "=") +:+ String q (sch +:+ body +:+ String q' EmptyString))
    by (rewrite !append_assoc; reflexivity).
  rewrite search_skip.
  - rewrite (search_head _ _ _ (quotedUrlPattern_match q q' sch body _ Hq Hq' Hs Hb Hnq)).
    now rewrite http_scheme_text_not_empty.
  - apply not_quote_unmatched.
    + apply quotedUrlPattern_needs_quote.
    + now apply monitored_no_quote.
Qed.

Lemma attributeExec_match (name sch body post : string) (q q' : ascii) :
  monitored name -> is_quote q = true -> is_quote q' = true ->
  http_scheme_text sch -> body <> EmptyString ->
  all_chars not_quote body = true ->
  let m := (name +:+ "=" +:+ str1 q) +:+ (sch +:+ body) +:+ str1 q' in
  attributeExec (m +:+ post)
  = Some (strlen m,
          (name +:+ "=" +:+ str1 q) +:+ proxyPrefix +:+
          encodeURIComponent (sch +:+ body) +:+ str1 q').
Proof.
  intros Hm Hq Hq' Hs Hb Hnq m. unfold attributeExec.
  replace (m +:+ post)
    with (name +:+ "=" +:+ String q (sch +:+ body +:+ String q' post))
    by (subst m; rewrite !append_assoc; reflexivity).
  rewrite attributePattern_match by assumption. cbn [mbind option_bind].
  subst m. now rewrite attributeReplacer_match.
Qed.

Lemma attribute_split (name value post : string) (q q' : ascii) :
  attribute name q value q' +:+ post
  = ((name +:+ "=" +:+ str1 q) +:+ value +:+ str1 q') +:+ post.
Proof. unfold attribute. now rewrite !append_assoc. Qed.

Lemma attribute_not_empty (name value : string) (q q' : ascii) :
  (name +:+ "=" +:+ str1 q) +:+ value +:+ str1 q' <> EmptyString.
Proof. destruct name; discriminate. Qed.

(** ** Pass 1: absolute addresses in attributes *)

(** What the attribute pass does by itself.  A monitored attribute that
    the scan reaches, whose value between the quotes is an absolute http(s)
    address with no quote character of either kind inside, comes out with
    [/api/proxy?url=] and the percent-encoding of exactly that address as its
    value; before it stands what the scan has written so far, and the text
    after it goes through the same pass. *)
Lemma attribute_pass_writes_proxied_value
    (pre out name u post : string) (q q' : ascii) :
  monitored name ->
  is_quote q = true -> is_quote q' = true ->
  absolute_http u ->
  scanned attributeExec O pre (attribute name q u q' +:+ post) = Some out ->
  rewriteAttributes (pre +:+ attribute name q u q' +:+ post)
  = out +:+ attribute name q (proxyPrefix +:+ encodeURIComponent u) q'
        +:+ rewriteAttributes post.
Proof.
  intros Hm Hq Hq' (sch & body & -> & Hs & Hb & Hnq) Hsc.
  rewrite all_chars_append in Hnq. apply andb_true_iff in Hnq.
  destruct Hnq as [_ Hnq].
  pose proof (attributeExec_match name sch body post q q' Hm Hq Hq' Hs Hb Hnq) as He.
  cbv zeta in He.
  rewrite attribute_split in Hsc |- *.
  unfold rewriteAttributes.
  rewrite (replace_all_reached attributeExec pre _ _ post out Hsc
             (attribute_not_empty _ _ _ _) He).
  unfold attribute. now rewrite !append_assoc.
Qed.

(** A limit of the pattern of the attribute pass: the value
    [https://a.com/a'b/c] between double quotes is cut at the apostrophe, so
    neither the attribute pass nor the Rewriter writes the percent-encoding
    of that address. *)
Lemma attribute_value_cut_at_quote :
  let u := "https://a.com/a'b/c" in
  let html := "<a " +:+ attribute "href" dquote u dquote +:+ ">" in
  monitored "href" /\ utf8_valid u = true /\
  rewriteAttributes html
  = "<a " +:+ attribute "href" dquote "/api/proxy?url=https%3A%2F%2Fa.com%2Fa'b/c" dquote +:+ ">" /\
  includes (rewriteAttributes html) (proxyPrefix +:+ encodeURIComponent u) = false /\
  includes (rewriteHtml URL_model "https://example.com" html)
           (proxyPrefix +:+ encodeURIComponent u) = false.
Proof.
  cbv zeta. split; [unfold monitored; simpl; tauto |].
  repeat split; vm_compute; reflexivity.
Qed.

(** ** Pass 3: root-relative addresses in attributes *)

Lemma relativeUrlPattern_match (name path post : string) (q q' : ascii) :
  monitored name -> is_quote q = true -> is_quote q' = true ->
  all_chars not_quote path = true ->
  relativeUrlPattern (name +:+ "=" +:+ String q ("/" +:+ path +:+ String q' post))
  = Some (name +:+ "=" +:+ str1 q, path, str1 q', post).
Proof.
  intros Hm Hq Hq' Hnq. unfold relativeUrlPattern.
  rewrite monitored_attr_eq by exact Hm. cbn [mbind option_bind].
  rewrite one_head by exact Hq. cbn [mbind option_bind String.append].
  rewrite one_head by reflexivity. cbn [mbind option_bind].
  rewrite span_all; [| exact Hnq | unfold not_quote; now rewrite Hq'].
  rewrite one_head by exact Hq'. cbn [mbind option_bind].
  now rewrite append_assoc.
Qed.

Lemma relativeExec_match new_URL url (o : URL) (name path post : string) (q q' : ascii) :
  new_URL url = Some o ->
  monitored name -> is_quote q = true -> is_quote q' = true ->
  all_chars not_quote path = true ->
  let m := (name +:+ "=" +:+ str1 q) +:+ ("/" +:+ path) +:+ str1 q' in
  relativeExec new_URL url (m +:+ post)
  = Some (strlen m,
          (name +:+ "=" +:+ str1 q) +:+ proxyPrefix +:+
          encodeURIComponent (base_of o +:+ "/" +:+ path) +:+ str1 q').
Proof.
  intros Ho Hm Hq Hq' Hnq m. unfold relativeExec.
  replace (m +:+ post)
    with (name +:+ "=" +:+ String q ("/" +:+ path +:+ String q' post))
    by (subst m; rewrite !append_assoc; reflexivity).
  rewrite relativeUrlPattern_match by assumption. cbn [mbind option_bind].
  unfold relativeReplacer. rewrite Ho. subst m.
  now rewrite !append_assoc.
Qed.

Lemma base_of_origin (o : URL) :
  base_of o = url_scheme o +:+ "://" +:+ host o.
Proof. unfold base_of, protocol. now rewrite append_assoc. Qed.

(** C6, as amended.  In the root-relative pass, at every place that the
    scan reaches where the name of a monitored attribute (in any letter case)
    is followed directly by [=], a quote character, a value and a quote
    character, the value beginning with [/] but not with [//] and having no
    quote character of either kind inside, and the page address parsing: the
    value comes out as [/api/proxy?url=] and the percent-encoding of the
    scheme, [://], the host and the original value, and for well-formed text
    the decoded [url] parameter is the scheme, [://], the host and the
    original path, exactly. *)
Theorem relative_pass_proxies_root_relative
    (new_URL : string -> option URL) (url : string) (o : URL)
    (pre out name path post : string) (q q' : ascii) :
  new_URL url = Some o ->
  monitored name ->
  is_quote q = true -> is_quote q' = true ->
  startsWith path "/" = false ->
  all_chars not_quote path = true ->
  utf8_valid (url_scheme o +:+ "://" +:+ host o +:+ "/" +:+ path) = true ->
  scanned (relativeExec new_URL url) O pre
    (attribute name q ("/" +:+ path) q' +:+ post) = Some out ->
  rewriteRelative new_URL url (pre +:+ attribute name q ("/" +:+ path) q' +:+ post)
  = out +:+ attribute name q
              (proxyPrefix +:+
               encodeURIComponent (url_scheme o +:+ "://" +:+ host o +:+ "/" +:+ path)) q'
        +:+ rewriteRelative new_URL url post
  /\ decodeURIComponent
       (encodeURIComponent (url_scheme o +:+ "://" +:+ host o +:+ "/" +:+ path))
     = Some (url_scheme o +:+ "://" +:+ host o +:+ "/" +:+ path).
Proof.
  intros Ho Hm Hq Hq' _ Hnq Hv Hsc.
  split; [| now apply decode_encode].
  pose proof (relativeExec_match new_URL url o name path post q q' Ho Hm Hq Hq' Hnq) as He.
  cbv zeta in He. rewrite base_of_origin in He.
  rewrite attribute_split in Hsc |- *.
  unfold rewriteRelative.
  rewrite (replace_all_reached (relativeExec new_URL url) pre _ _ post out Hsc
             (attribute_not_empty _ _ _ _) He).
  unfold attribute. now rewrite !append_assoc.
Qed.

(** The statement above at the second tag of
    [<img src='/logo.png'><a href='/docs/a.html'>] on the page
    [https://example.com]. *)
Lemma relative_pass_proxies_root_relative_witness :
  rewriteRelative URL_model "https://example.com"
    ("<img src='/logo.png'><a " +:+ attribute "href" squote "/docs/a.html" squote +:+ ">")
  = "<img src='/api/proxy?url=https%3A%2F%2Fexample.com%2Flogo.png'><a " +:+
    attribute "href" squote
      (proxyPrefix +:+ encodeURIComponent "https://example.com/docs/a.html") squote
    +:+ rewriteRelative URL_model "https://example.com" ">"
  /\ decodeURIComponent (encodeURIComponent "https://example.com/docs/a.html")
     = Some "https://example.com/docs/a.html".
Proof.
  apply (relative_pass_proxies_root_relative URL_model "https://example.com"
           (mkURL "https" "example.com" None) "<img src='/logo.png'><a "
           "<img src='/api/proxy?url=https%3A%2F%2Fexample.com%2Flogo.png'><a "
           "href" "docs/a.html" ">" squote squote).
  - reflexivity.
  - unfold monitored. simpl. tauto.
  - reflexivity.
  - reflexivity.
  - reflexivity.
  - reflexivity.
  - reflexivity.
  - vm_compute. reflexivity.
Defined.

(** C6, as the specification states it, fails: the value [/a'b&c=d] between
    double quotes begins with one slash, and the pass cuts it at the
    apostrophe; the parameter it writes decodes to
    [https://example.com/a], not to the host and the whole path. *)
Lemma relative_value_cut_at_quote :
  let path := "/a'b&c=d" in
  let html := "<a " +:+ attribute "href" dquote path dquote +:+ ">" in
  monitored "href" /\ startsWith path "/" = true /\ startsWith path "//" = false /\
  URL_parse "https://example.com" = Parsed (mkURL "https" "example.com" None) /\
  rewriteRelative URL_model "https://example.com" html
  = "<a " +:+ attribute "href" dquote
                ("/api/proxy?url=" +:+ encodeURIComponent "https://example.com/a" +:+ "'b&c=d")
                dquote +:+ ">" /\
  includes (rewriteRelative URL_model "https://example.com" html)
           (proxyPrefix +:+ encodeURIComponent ("https://example.com" +:+ path)) = false.
Proof.
  cbv zeta. split; [unfold monitored; simpl; tauto |].
  repeat split; vm_compute; reflexivity.
Qed.

(** The pattern has no white space around the equals sign: an attribute
    written with a blank before it is not matched, and stays as it is. *)
Lemma relative_pass_needs_adjacent_equals :
  rewriteRelative URL_model "https://example.com" "<a href ='/docs/a.html'>"
  = "<a href ='/docs/a.html'>" /\
  rewriteAttributes "<a href = 'https://a.com/'>" = "<a href = 'https://a.com/'>".
Proof. split; vm_compute; reflexivity. Qed.

(** The pass makes no exception for a value that begins with two slashes:
    it is resolved as a path of the page's host. *)
Lemma relative_pass_takes_double_slash :
  rewriteRelative URL_model "https://example.com" "<img src='//cdn.x.com/a.png'>"
  = "<img src='/api/proxy?url=https%3A%2F%2Fexample.com%2F%2Fcdn.x.com%2Fa.png'>".
Proof. vm_compute. reflexivity. Qed.

(** ** The Rewriter on text that is already proxied *)

(** C7: the claim fails on the code.  A value [/api/proxy?url=...] begins
    with a slash, so the root-relative pass takes it for a path of the page's
    host and encodes it a second time ([%3A] becomes [%253A]): a full run of
    the Rewriter does not leave the value unchanged. *)
Theorem rewriter_rewraps_proxied_value :
  let html := "<a href='/api/proxy?url=https%3A%2F%2Fa.com%2F'>" in
  rewriteAttributes html = html /\
  rewriteHtml URL_model "https://example.com" html
  = "<a href='/api/proxy?url=https%3A%2F%2Fexample.com%2Fapi%2Fproxy%3Furl%3Dhttps%253A%252F%252Fa.com%252F'>" /\
  rewriteHtml URL_model "https://example.com" html <> html.
Proof.
  cbv zeta. split; [vm_compute; reflexivity |].
  split; [vm_compute; reflexivity | vm_compute; discriminate].
Qed.

(** The same defect in a single run: the value the attribute pass has just
    written is rewritten again by the root-relative pass. *)
Lemma rewriter_rewraps_its_own_output :
  rewriteHtml URL_model "https://example.com" "<img src='https://cdn.x.com/a.png'>"
  = "<img src='/api/proxy?url=https%3A%2F%2Fexample.com%2Fapi%2Fproxy%3Furl%3Dhttps%253A%252F%252Fcdn.x.com%252Fa.png'>".
Proof. vm_compute. reflexivity. Qed.

Lemma uri_escape_not_quote (c : ascii) : all_chars not_quote (uri_escape c) = true.
Proof. each_char c. Qed.

Lemma encodeURIComponent_not_quote (s : string) :
  all_chars not_quote s = true -> all_chars not_quote (encodeURIComponent s) = true.
Proof.
  induction s as [|c r IH]; intros H; [reflexivity |].
  cbn [all_chars] in H. apply andb_true_iff in H. destruct H as [Hc Hr].
  cbn [encodeURIComponent]. destruct (uri_unreserved c).
  - cbn [all_chars]. now rewrite Hc, IH.
  - now rewrite all_chars_append, uri_escape_not_quote, IH.
Qed.

Lemma strlen_append (a b : string) : strlen (a +:+ b) = (strlen a + strlen b)%nat.
Proof. induction a as [|x a IH]; cbn [String.append strlen]; [reflexivity | now rewrite IH]. Qed.

Lemma strlen_uri_escape (c : ascii) : strlen (uri_escape c) = 3%nat.
Proof. reflexivity. Qed.

Lemma strlen_encodeURIComponent (s : string) :
  (strlen s <= strlen (encodeURIComponent s))%nat.
Proof.
  induction s as [|c r IH]; [reflexivity |]. cbn [encodeURIComponent].
  destruct (uri_unreserved c); cbn [strlen]; [lia |].
  rewrite strlen_append, strlen_uri_escape. lia.
Qed.

(** C1: the claim fails on the code.  The attribute pass writes the proxied
    value the claim speaks of, but that value begins with a slash: wherever
    the root-relative pass, which runs after it, reaches the attribute, it
    takes the value for a path of the page's host and wraps it again.  The
    value that the Rewriter leaves is [/api/proxy?url=] and the
    percent-encoding of the page's origin followed by the proxied value, which
    is another text than the proxied value. *)
Theorem attribute_pass_output_is_rewrapped
    (new_URL : string -> option URL) (url : string) (originalUrlObj : URL)
    (pre out name u post : string) (q q' : ascii) :
  new_URL url = Some originalUrlObj ->
  monitored name ->
  is_quote q = true -> is_quote q' = true ->
  absolute_http u ->
  scanned attributeExec O pre (attribute name q u q' +:+ post) = Some out ->
  let proxied := proxyPrefix +:+ encodeURIComponent u in
  let rewrapped :=
    proxyPrefix +:+ encodeURIComponent (base_of originalUrlObj +:+ proxied) in
  rewriteAttributes (pre +:+ attribute name q u q' +:+ post)
  = out +:+ attribute name q proxied q' +:+ rewriteAttributes post /\
  (forall pre' out' post',
     scanned (relativeExec new_URL url) O pre'
       (attribute name q proxied q' +:+ post') = Some out' ->
     rewriteRelative new_URL url (pre' +:+ attribute name q proxied q' +:+ post')
     = out' +:+ attribute name q rewrapped q' +:+ rewriteRelative new_URL url post') /\
  rewrapped <> proxied.
Proof.
  intros Ho Hm Hq Hq' Hu Hsc proxied rewrapped.
  split; [now apply attribute_pass_writes_proxied_value |].
  split.
  - intros pre' out' post' Hsc'.
    assert (Hnq : all_chars not_quote ("api/proxy?url=" +:+ encodeURIComponent u) = true).
    { destruct Hu as (sch & body & _ & _ & _ & Hnq).
      rewrite all_chars_append, (encodeURIComponent_not_quote u Hnq). reflexivity. }
    pose proof (relativeExec_match new_URL url originalUrlObj name
                  ("api/proxy?url=" +:+ encodeURIComponent u) post' q q'
                  Ho Hm Hq Hq' Hnq) as He.
    cbv zeta in He.
    change ("/" +:+ "api/proxy?url=" +:+ encodeURIComponent u) with proxied in He.
    rewrite attribute_split in Hsc' |- *.
    unfold rewriteRelative.
    rewrite (replace_all_reached (relativeExec new_URL url) pre' _ _ post' out' Hsc'
               (attribute_not_empty _ _ _ _) He).
    unfold attribute, rewrapped. now rewrite !append_assoc.
  - intros E. apply (f_equal strlen) in E. subst rewrapped proxied.
    rewrite !strlen_append in E.
    pose proof (strlen_encodeURIComponent
                  (base_of originalUrlObj +:+ proxyPrefix +:+ encodeURIComponent u)) as Hle.
    rewrite !strlen_append in Hle. cbn [strlen proxyPrefix] in *. lia.
Qed.

(** The statement above on the image of
    [<img src='https://cdn.x.com/a.png'>] on the page [https://example.com]:
    after the first pass, after the third, and after the whole Rewriter. *)
Lemma attribute_pass_output_is_rewrapped_witness :
  let proxied := "/api/proxy?url=https%3A%2F%2Fcdn.x.com%2Fa.png" in
  let rewrapped :=
    "/api/proxy?url=https%3A%2F%2Fexample.com%2Fapi%2Fproxy%3Furl%3Dhttps%253A%252F%252Fcdn.x.com%252Fa.png" in
  rewriteAttributes ("<img " +:+ attribute "src" squote "https://cdn.x.com/a.png" squote +:+ ">")
  = "<img " +:+ attribute "src" squote proxied squote +:+ ">" /\
  rewriteRelative URL_model "https://example.com"
    ("<img " +:+ attribute "src" squote proxied squote +:+ ">")
  = "<img " +:+ attribute "src" squote rewrapped squote +:+ ">" /\
  rewrapped <> proxied /\
  rewriteHtml URL_model "https://example.com"
    ("<img " +:+ attribute "src" squote "https://cdn.x.com/a.png" squote +:+ ">")
  = "<img " +:+ attribute "src" squote rewrapped squote +:+ ">".
Proof.
  intros proxied rewrapped.
  assert (Habs : absolute_http "https://cdn.x.com/a.png").
  { exists "https://", "cdn.x.com/a.png". repeat split; [now right | discriminate]. }
  assert (Hmon : monitored "src") by (unfold monitored; simpl; tauto).
  destruct (attribute_pass_output_is_rewrapped URL_model "https://example.com"
              (mkURL "https" "example.com" None) "<img " "<img " "src"
              "https://cdn.x.com/a.png" ">" squote squote
              eq_refl Hmon eq_refl eq_refl Habs eq_refl) as (H1 & H3 & Hne).
  split; [exact H1 |].
  split; [exact (H3 "<img " "<img " ">" eq_refl) |].
  split; [exact Hne |].
  vm_compute. reflexivity.
Defined.

(** ** Pass 2: [srcset] *)

Lemma starts_slash_not_http (s : string) :
  startsWith s "/" = true -> startsWith s "http" = false.
Proof.
  destruct s as [|c s]; [discriminate |].
  unfold startsWith. simpl. unfold eqb_ascii.
  destruct (code "/" =? code c) eqn:E; [| discriminate].
  apply N.eqb_eq in E. rewrite <- E. reflexivity.
Qed.

(** C5: the claim fails on the code for the entries that begin with a slash.
    Inside the replacer the name [url] is the address of the entry, so
    [new URL(url)] is given the root-relative text; the constructor throws on
    it, as it does on any text that begins with a slash, and the entry comes
    back as it was read: neither resolved nor proxied. *)
Theorem srcset_entry_root_relative_unchanged
    (new_URL : string -> option URL) (src : string) :
  (forall s, startsWith s "/" = true -> new_URL s = None) ->
  startsWith (fst (token (trim src))) "/" = true ->
  srcsetEntry new_URL src = src.
Proof.
  intros Hrel Hs. unfold srcsetEntry.
  destruct (token (trim src)) as [u r]. cbn [fst] in Hs.
  rewrite (starts_slash_not_http u Hs), Hs, (Hrel u Hs). reflexivity.
Qed.

Lemma rstrip_head (p : ascii -> bool) (c : ascii) (s : string) :
  p c = false -> exists s', rstrip p (String c s) = String c s'.
Proof.
  intros H. cbn [rstrip]. destruct (rstrip p s) as [|x t].
  - rewrite H. now exists EmptyString.
  - now exists (String x t).
Qed.

(** Without a base, the constructor throws on a text that begins with a
    slash: it has no scheme. *)
Lemma URL_model_needs_scheme (s : string) :
  startsWith s "/" = true -> URL_model s = None.
Proof.
  intros H. destruct s as [|c s]; [discriminate |].
  unfold startsWith in H. simpl in H. unfold eqb_ascii in H.
  destruct (code "/" =? code c) eqn:E; [| discriminate].
  apply N.eqb_eq in E. unfold code in E. apply (f_equal ascii_of_N) in E.
  rewrite !ascii_N_embedding in E. subst c.
  unfold URL_model, URL_parse.
  change (lstrip is_c0_or_space (String "/" s)) with (String "/"%char s).
  destruct (rstrip_head is_c0_or_space "/" s eq_refl) as [s' ->].
  reflexivity.
Qed.

(** The statement above on the entry of [<img srcset="/img/a.png 1x">], and
    the pass on that tag. *)
Lemma srcset_entry_root_relative_unchanged_witness :
  srcsetEntry URL_model "/img/a.png 1x" = "/img/a.png 1x" /\
  rewriteSrcset URL_model ("<img " +:+ attribute "srcset" dquote "/img/a.png 1x" dquote +:+ ">")
  = "<img " +:+ attribute "srcset" dquote "/img/a.png 1x" dquote +:+ ">".
Proof.
  split.
  - apply (srcset_entry_root_relative_unchanged URL_model "/img/a.png 1x").
    + exact URL_model_needs_scheme.
    + reflexivity.
  - vm_compute. reflexivity.
Defined.

(** The other half of the pass: an entry that begins with [http] is proxied
    and keeps its descriptor. *)
Lemma srcset_entry_absolute :
  rewriteSrcset URL_model "<img srcset='https://a.com/1.png 1x, https://a.com/2.png 100w'>"
  = "<img " +:+ attribute "srcset" dquote
      "/api/proxy?url=https%3A%2F%2Fa.com%2F1.png 1x, /api/proxy?url=https%3A%2F%2Fa.com%2F2.png 100w"
      dquote +:+ ">".
Proof. vm_compute. reflexivity. Qed.

(** ** URL Normalizer and the validation of the proxy endpoint *)

Lemma sanitizeUrl_unschemed (input : string) :
  startsWith input "http://" = false -> startsWith input "https://" = false ->
  sanitizeUrl input = "https://" +:+ input.
Proof. intros H1 H2. unfold sanitizeUrl. now rewrite H1, H2. Qed.

Lemma sanitizeUrl_schemed (input : string) :
  startsWith input "http://" = true \/ startsWith input "https://" = true ->
  sanitizeUrl input = input.
Proof.
  intros [H|H]; unfold sanitizeUrl; rewrite H; [reflexivity |].
  now rewrite andb_false_r.
Qed.

(** After the Normalizer the text always carries one of the two schemes. *)
Lemma sanitizeUrl_has_scheme (input : string) :
  startsWith (sanitizeUrl input) "http://" = true \/
  startsWith (sanitizeUrl input) "https://" = true.
Proof.
  unfold sanitizeUrl.
  destruct (startsWith input "http://") eqn:H1; [now left |].
  destruct (startsWith input "https://") eqn:H2; [now right |].
  right. reflexivity.
Qed.

Lemma proxyHandler_invalid new_URL fetch (req : Request) (input : string) :
  truthy (query_url req) = Some input ->
  isValidUrl new_URL (sanitizeUrl input) = false ->
  proxyHandler new_URL fetch req = (json_message 400 "Invalid URL provided", []).
Proof. intros Hq Hv. unfold proxyHandler. now rewrite Hq, Hv. Qed.

Lemma proxyHandler_valid new_URL fetch (req : Request) (input : string) :
  truthy (query_url req) = Some input ->
  isValidUrl new_URL (sanitizeUrl input) = true ->
  snd (proxyHandler new_URL fetch req) = [proxyFetchCall req (sanitizeUrl input)].
Proof.
  intros Hq Hv. unfold proxyHandler. rewrite Hq, Hv. cbn [negb].
  destruct (fetch _) as [e | up]; [reflexivity |].
  destruct (up_body up); [| reflexivity].
  now destruct (includes _ _).
Qed.

(** C2, as amended.  An input without [http://] or [https://] at its head
    gets [https://] in front, an input with one of them is left as it is;
    the result need not parse; when it does not, the handler answers 400
    with [Invalid URL provided] and calls [fetch] not at all, and when it
    does, the one call of [fetch] is for the normalized address. *)
Theorem normalizer_contract
    (new_URL : string -> option URL) (fetch : FetchCall -> FetchOutcome)
    (req : Request) (input : string) :
  truthy (query_url req) = Some input ->
  (startsWith input "http://" = false -> startsWith input "https://" = false ->
   sanitizeUrl input = "https://" +:+ input) /\
  (startsWith input "http://" = true \/ startsWith input "https://" = true ->
   sanitizeUrl input = input) /\
  (isValidUrl new_URL (sanitizeUrl input) = false ->
   proxyHandler new_URL fetch req = (json_message 400 "Invalid URL provided", [])) /\
  (isValidUrl new_URL (sanitizeUrl input) = true ->
   snd (proxyHandler new_URL fetch req) = [proxyFetchCall req (sanitizeUrl input)]).
Proof.
  intros Hq. repeat split.
  - apply sanitizeUrl_unschemed.
  - apply sanitizeUrl_schemed.
  - now apply proxyHandler_invalid.
  - now apply proxyHandler_valid.
Qed.

(** The statement above on [example.com], which gets its scheme and is
    fetched, and on [a b], which gets its scheme and is refused. *)
Lemma normalizer_contract_witness :
  sanitizeUrl "example.com" = "https://example.com" /\
  snd (proxyHandler URL_model typeless_upstream (get_request "example.com"))
  = [proxyFetchCall (get_request "example.com") "https://example.com"] /\
  sanitizeUrl "http://example.com" = "http://example.com" /\
  proxyHandler URL_model typeless_upstream (get_request "a b")
  = (json_message 400 "Invalid URL provided", []).
Proof.
  destruct (normalizer_contract URL_model typeless_upstream
              (get_request "example.com") "example.com" eq_refl) as (H1 & _ & _ & H4).
  destruct (normalizer_contract URL_model typeless_upstream
              (get_request "http://example.com") "http://example.com" eq_refl)
    as (_ & H2 & _ & _).
  destruct (normalizer_contract URL_model typeless_upstream
              (get_request "a b") "a b" eq_refl) as (_ & _ & H3 & _).
  split; [exact (H1 eq_refl eq_refl) |].
  split; [exact (H4 eq_refl) |].
  split; [exact (H2 (or_introl eq_refl)) |].
  exact (H3 eq_refl).
Defined.

(** C2, as the specification states it, fails: [a b] has no scheme, gets
    [https://] in front, and the result does not parse (a space is not
    allowed in a host). *)
Lemma normalized_input_need_not_parse :
  startsWith "a b" "http://" = false /\
  startsWith "a b" "https://" = false /\
  sanitizeUrl "a b" = "https://a b" /\
  URL_parse (sanitizeUrl "a b") = Failure /\
  isValidUrl URL_model (sanitizeUrl "a b") = false.
Proof. repeat split. Qed.

(** ** Response Relay: the branch on the content type *)

Lemma proxyHandler_relays new_URL fetch (req : Request) (input : string)
    (up : Upstream) (bytes : Buffer) :
  truthy (query_url req) = Some input ->
  isValidUrl new_URL (sanitizeUrl input) = true ->
  fetch (proxyFetchCall req (sanitizeUrl input)) = Resolved up ->
  up_body up = inl bytes ->
  fst (proxyHandler new_URL fetch req)
  = mkResponse 200 (relayHeaders (up_headers up))
      (if includes (contentTypeOf (up_headers up)) "text/html"
       then SendText (rewriteHtml new_URL (sanitizeUrl input) (Buffer_toString bytes))
       else SendBuffer bytes).
Proof.
  intros Hq Hv Hf Hb. unfold proxyHandler. rewrite Hq, Hv. cbn [negb].
  rewrite Hf, Hb. now destruct (includes _ _).
Qed.

(** C3, as amended.  When the upstream response carries a [Content-Type]
    header that is not empty and does not contain [text/html] (as written,
    in lower case), the body sent is the buffer of upstream bytes itself: no
    pass of the Rewriter is applied to it.  When the header is absent or
    empty, the body is decoded and sent through the Rewriter as a page. *)
Theorem non_html_body_is_relayed_unchanged
    (new_URL : string -> option URL) (fetch : FetchCall -> FetchOutcome)
    (req : Request) (input : string) (up : Upstream) (bytes : Buffer) :
  truthy (query_url req) = Some input ->
  isValidUrl new_URL (sanitizeUrl input) = true ->
  fetch (proxyFetchCall req (sanitizeUrl input)) = Resolved up ->
  up_body up = inl bytes ->
  (forall contentType,
     headers_get (up_headers up) "content-type" = Some contentType ->
     is_empty contentType = false ->
     includes contentType "text/html" = false ->
     body (fst (proxyHandler new_URL fetch req)) = SendBuffer bytes) /\
  (headers_get (up_headers up) "content-type" = None \/
   headers_get (up_headers up) "content-type" = Some EmptyString ->
   body (fst (proxyHandler new_URL fetch req))
   = SendText (rewriteHtml new_URL (sanitizeUrl input) (Buffer_toString bytes))).
Proof.
  intros Hq Hv Hf Hb.
  rewrite (proxyHandler_relays _ _ _ _ _ _ Hq Hv Hf Hb). cbn [body].
  unfold contentTypeOf. split.
  - intros contentType Hct Hne Hinc. rewrite Hct, Hne. now rewrite Hinc.
  - intros [Hct | Hct]; rewrite Hct; reflexivity.
Qed.

(** The statement above on an image, and on a page served without a content
    type. *)
Lemma non_html_body_is_relayed_unchanged_witness :
  body (fst (proxyHandler URL_model png_upstream (get_request "example.com/a.png")))
  = SendBuffer png_bytes /\
  body (fst (proxyHandler URL_model typeless_upstream (get_request "example.com")))
  = SendText (rewriteHtml URL_model "https://example.com" (Buffer_toString sample_page)).
Proof.
  destruct (non_html_body_is_relayed_unchanged URL_model png_upstream
              (get_request "example.com/a.png") "example.com/a.png"
              (mkUpstream [("content-type", "image/png")] (inl png_bytes)) png_bytes
              eq_refl eq_refl eq_refl eq_refl) as [Himage _].
  destruct (non_html_body_is_relayed_unchanged URL_model typeless_upstream
              (get_request "example.com") "example.com"
              (mkUpstream [("etag", "abc")] (inl sample_page)) sample_page
              eq_refl eq_refl eq_refl eq_refl) as [_ Hpage].
  split.
  - exact (Himage "image/png" eq_refl eq_refl eq_refl).
  - exact (Hpage (or_introl eq_refl)).
Defined.

(** C3, as the specification states it, fails: an upstream response without
    a [Content-Type], and one with an empty [Content-Type], have a content
    type that does not contain [text/html], and what is sent is not the
    upstream bytes: it is a text, and another one than the bytes decode to. *)
Lemma absent_content_type_is_rewritten :
  let sent (upstream : FetchCall -> FetchOutcome) :=
    body (fst (proxyHandler URL_model upstream (get_request "example.com"))) in
  let rewritten :=
    rewriteHtml URL_model "https://example.com" (Buffer_toString sample_page) in
  headers_get [("etag", "abc")] "content-type" = None /\
  sent typeless_upstream = SendText rewritten /\
  headers_get [("content-type", EmptyString)] "content-type" = Some EmptyString /\
  includes EmptyString "text/html" = false /\
  sent empty_type_upstream = SendText rewritten /\
  rewritten <> Buffer_toString sample_page /\
  SendText rewritten <> SendBuffer sample_page.
Proof.
  cbv zeta. repeat split; try (vm_compute; reflexivity); vm_compute; discriminate.
Qed.

(** C10.  When the upstream response has no [Content-Type] header, the relay
    takes the content type to be [text/html]: the body is decoded as text and
    sent through the Rewriter, bridge script included, and what is sent is
    that text, not the upstream bytes. *)
Theorem missing_content_type_is_rewritten
    (new_URL : string -> option URL) (fetch : FetchCall -> FetchOutcome)
    (req : Request) (input : string) (up : Upstream) (bytes : Buffer) :
  truthy (query_url req) = Some input ->
  isValidUrl new_URL (sanitizeUrl input) = true ->
  fetch (proxyFetchCall req (sanitizeUrl input)) = Resolved up ->
  up_body up = inl bytes ->
  headers_get (up_headers up) "content-type" = None ->
  contentTypeOf (up_headers up) = "text/html" /\
  body (fst (proxyHandler new_URL fetch req))
  = SendText
      (injectScript
         (injectBaseTag (sanitizeUrl input)
            (rewriteLocation
               (rewriteInlineStyles new_URL (sanitizeUrl input)
                  (rewriteCssUrls new_URL (sanitizeUrl input)
                     (rewriteRelative new_URL (sanitizeUrl input)
                        (rewriteSrcset new_URL
                           (rewriteAttributes (Buffer_toString bytes))))))))).
Proof.
  intros Hq Hv Hf Hb Hct.
  assert (Hdef : contentTypeOf (up_headers up) = "text/html")
    by (unfold contentTypeOf; now rewrite Hct).
  split; [exact Hdef |].
  rewrite (proxyHandler_relays _ _ _ _ _ _ Hq Hv Hf Hb). cbn [body].
  rewrite Hdef. reflexivity.
Qed.

(** The statement above on a page served without a content type: the text
    sent carries the bridge script. *)
Lemma missing_content_type_is_rewritten_witness :
  contentTypeOf [("etag", "abc")] = "text/html" /\
  body (fst (proxyHandler URL_model typeless_upstream (get_request "example.com")))
  = SendText
      (injectScript
         (injectBaseTag "https://example.com"
            (rewriteLocation
               (rewriteInlineStyles URL_model "https://example.com"
                  (rewriteCssUrls URL_model "https://example.com"
                     (rewriteRelative URL_model "https://example.com"
                        (rewriteSrcset URL_model
                           (rewriteAttributes (Buffer_toString sample_page))))))))).
Proof.
  apply (missing_content_type_is_rewritten URL_model typeless_upstream
           (get_request "example.com") "example.com"
           (mkUpstream [("etag", "abc")] (inl sample_page)) sample_page);
    reflexivity.
Defined.

Lemma typeless_page_gets_the_script :
  match body (fst (proxyHandler URL_model typeless_upstream (get_request "example.com"))) with
  | SendText html => includes html enhancementScript
  | _ => false
  end = true.
Proof. vm_compute. reflexivity. Qed.

(** ** Response Relay: the headers *)

Lemma lookup_setHeaders (l : Headers) (h : gmap string (string * string)) (k : string) :
  setHeaders l h !! k
  = match last_named l k with
    | Some kv => Some kv
    | None => h !! k
    end.
Proof.
  induction l as [|[n v] l IH] using rev_ind; [reflexivity |].
  unfold setHeaders, last_named in *. rewrite fold_left_app, rev_app_distr.
  cbn [fold_left rev app List.find fst snd]. unfold setHeader at 1.
  destruct (String.eqb_spec (toLowerCase n) k) as [->|Hne].
  - now rewrite lookup_insert_eq.
  - rewrite lookup_insert_ne by exact Hne. exact IH.
Qed.

Lemma forwardHeaders_filter (upstream : Headers) (h : gmap string (string * string)) :
  forwardHeaders upstream h = setHeaders (List.filter is_safe upstream) h.
Proof.
  revert h. induction upstream as [|kv l IH]; intros h; [reflexivity |].
  unfold forwardHeaders, setHeaders in *. cbn [fold_left List.filter].
  unfold is_safe at 1. destruct (list_includes safeHeaderKeys (toLowerCase (fst kv))).
  - cbn [fold_left]. apply IH.
  - apply IH.
Qed.

Lemma filter_rev {A} (f : A -> bool) (l : list A) :
  List.filter f (rev l) = rev (List.filter f l).
Proof.
  induction l as [|x l IH]; [reflexivity |].
  cbn [rev List.filter]. rewrite List.filter_app, IH. cbn [List.filter].
  destruct (f x); cbn [rev]; [reflexivity | now rewrite app_nil_r].
Qed.

Lemma find_filter {A} (p f : A -> bool) (l : list A) :
  (forall x, p x = true -> f x = true) ->
  List.find p (List.filter f l) = List.find p l.
Proof.
  intros Hpf. induction l as [|x l IH]; [reflexivity |].
  cbn [List.filter List.find]. destruct (p x) eqn:Hp.
  - rewrite (Hpf x Hp). cbn [List.find]. now rewrite Hp.
  - destruct (f x); [cbn [List.find]; rewrite Hp |]; exact IH.
Qed.

Lemma last_named_safe (upstream : Headers) (k : string) :
  list_includes safeHeaderKeys k = true ->
  last_named (List.filter is_safe upstream) k = last_named upstream k.
Proof.
  intros Hk. unfold last_named. rewrite <- filter_rev. apply find_filter.
  intros [n v] Hn. cbn [fst] in Hn. apply String.eqb_eq in Hn.
  unfold is_safe. cbn [fst]. now rewrite Hn.
Qed.

Lemma last_named_in (l : Headers) (k n v : string) :
  last_named l k = Some (n, v) -> In (n, v) l /\ toLowerCase n = k.
Proof.
  unfold last_named. intros H. apply List.find_some in H. destruct H as [Hin Hk].
  split; [now apply in_rev | now apply String.eqb_eq in Hk].
Qed.

Lemma lookup_relayHeaders (upstream : Headers) (k : string) :
  relayHeaders upstream !! k
  = match last_named overrideHeaders k with
    | Some kv => Some kv
    | None => last_named (List.filter is_safe upstream) k
    end.
Proof.
  unfold relayHeaders. rewrite lookup_setHeaders, forwardHeaders_filter.
  rewrite lookup_setHeaders, lookup_empty.
  destruct (last_named overrideHeaders k); [reflexivity |].
  now destruct (last_named _ k).
Qed.

(** C4.  A header of the relayed response is one of the fixed headers the
    relay sets, or an upstream header whose lower-cased name is in the allow
    list: no other upstream header is copied.  The allow-listed headers are
    copied (the last one of a name, and [cache-control] gives way to the fixed
    one).  The fixed headers, among them the CORS headers,
    [X-Frame-Options: ALLOWALL], the Content-Security-Policy and
    [Cache-Control: no-cache, no-store, must-revalidate], are there whatever
    the upstream sent, and these are the headers of every response the
    handler relays. *)
Theorem relay_headers_allow_list
    (new_URL : string -> option URL) (fetch : FetchCall -> FetchOutcome)
    (req : Request) (input : string) (up : Upstream) (bytes : Buffer) :
  truthy (query_url req) = Some input ->
  isValidUrl new_URL (sanitizeUrl input) = true ->
  fetch (proxyFetchCall req (sanitizeUrl input)) = Resolved up ->
  up_body up = inl bytes ->
  let sent := headers (fst (proxyHandler new_URL fetch req)) in
  (forall k n v, sent !! k = Some (n, v) ->
     toLowerCase n = k /\
     (In (n, v) overrideHeaders \/
      (list_includes safeHeaderKeys k = true /\ In (n, v) (up_headers up)))) /\
  (forall k, list_includes safeHeaderKeys k = true -> k <> "cache-control" ->
     sent !! k = last_named (up_headers up) k) /\
  (forall n v, In (n, v) overrideHeaders -> sent !! toLowerCase n = Some (n, v)).
Proof.
  intros Hq Hv Hf Hb sent. subst sent.
  rewrite (proxyHandler_relays _ _ _ _ _ _ Hq Hv Hf Hb). cbn [headers].
  set (upstream := up_headers up). split; [| split].
  - intros k n v. rewrite lookup_relayHeaders.
    destruct (last_named overrideHeaders k) as [kv|] eqn:Ho.
    + intros [= ->]. apply last_named_in in Ho. tauto.
    + intros H. apply last_named_in in H. destruct H as [Hin Hk].
      apply List.filter_In in Hin. destruct Hin as [Hin Hs].
      unfold is_safe in Hs. cbn [fst] in Hs. rewrite Hk in Hs. tauto.
  - intros k Hk Hcc. rewrite lookup_relayHeaders.
    rewrite (last_named_safe upstream k Hk).
    unfold list_includes in Hk. apply existsb_exists in Hk.
    destruct Hk as (x & Hin & Hx). apply String.eqb_eq in Hx. subst x.
    unfold safeHeaderKeys in Hin. cbn [In] in Hin.
    repeat (destruct Hin as [<-|Hin]; [try reflexivity; congruence |]).
    contradiction.
  - intros n v Hin. rewrite lookup_relayHeaders.
    unfold overrideHeaders in Hin. cbn [In] in Hin.
    repeat (destruct Hin as [[= <- <-]|Hin]; [reflexivity |]).
    contradiction.
Qed.

(** The statement above on that upstream: [etag] is relayed,
    [x-powered-by] is not, and the framing and cache headers are the relay's
    own. *)
Lemma relay_headers_allow_list_witness :
  let sent := headers (fst (proxyHandler URL_model guarded_upstream (get_request "example.com"))) in
  sent !! "etag" = Some ("etag", "abc") /\
  sent !! "x-powered-by" = None /\
  sent !! "x-frame-options" = Some ("X-Frame-Options", "ALLOWALL") /\
  sent !! "cache-control" = Some ("Cache-Control", "no-cache, no-store, must-revalidate") /\
  sent !! "access-control-allow-origin" = Some ("Access-Control-Allow-Origin", "*") /\
  sent !! "content-security-policy" = Some ("Content-Security-Policy", contentSecurityPolicy).
Proof.
  intros sent.
  destruct (relay_headers_allow_list URL_model guarded_upstream
              (get_request "example.com") "example.com"
              (mkUpstream guarded_upstream_headers (inl png_bytes)) png_bytes
              eq_refl eq_refl eq_refl eq_refl) as (Honly & Hcopy & Hfixed).
  fold sent in Honly, Hcopy, Hfixed.
  split; [exact (Hcopy "etag" eq_refl ltac:(discriminate)) |].
  split.
  { destruct (sent !! "x-powered-by") as [[n v]|] eqn:E; [| reflexivity].
    destruct (Honly _ _ _ E) as [Hk [Ho | [Hs _]]]; [| discriminate Hs].
    unfold overrideHeaders in Ho. cbn [In] in Ho.
    repeat (destruct Ho as [[= <- <-]|Ho]; [discriminate Hk |]).
    contradiction. }
  split; [apply (Hfixed "X-Frame-Options" "ALLOWALL");
          unfold overrideHeaders; cbn [In]; tauto |].
  split; [apply (Hfixed "Cache-Control" "no-cache, no-store, must-revalidate");
          unfold overrideHeaders; cbn [In]; tauto |].
  split; [apply (Hfixed "Access-Control-Allow-Origin" "*");
          unfold overrideHeaders; cbn [In]; tauto |].
  apply (Hfixed "Content-Security-Policy" contentSecurityPolicy).
  unfold overrideHeaders; cbn [In]; tauto.
Defined.

(** ** Recent searches: the upsert *)



Lemma truthy_some (s : string) : is_empty s = false -> truthy (Some s) = Some s.
Proof. intros H. unfold truthy. now rewrite H. Qed.






Lemma recent_search_rejects :
  postRecentSearch URL_model no_other_truthy no_other_text 100 None None None (mkDb [] 1)
  = (json_message 400 "URL is required", mkDb [] 1) /\
  postRecentSearch URL_model no_other_truthy no_other_text 100
    (Some (BString "a b")) None None (mkDb [] 1)
  = (json_message 400 "Invalid URL provided", mkDb [] 1).
Proof. split; reflexivity. Qed.

(** ** Recent searches: the deletion *)

Lemma digit_facts (c : ascii) :
  is_digit c = true ->
  digit_val 10 c = Some (Z.of_N (code c - 48)) /\
  (code c =? 45) = false /\ (code c =? 43) = false /\
  (code (lower c) =? 120) = false.
Proof. each_char c; repeat split. Qed.

Lemma ws_len_digit (c : ascii) (r : string) :
  is_digit c = true -> ws_len (String c r) = O.
Proof.
  destruct c as [[] [] [] [] [] [] [] []]; vm_compute; try discriminate;
    intros _; destruct r as [|b [|b' r]]; reflexivity.
Qed.

Lemma read_digits_decimal (s : string) :
  forall a : N,
    all_chars is_digit s = true ->
    read_digits 10 (Some (Z.of_N a)) s = Some (Z.of_N (decimal_value a s)).
Proof.
  induction s as [|c r IH]; intros a Hd; [reflexivity |].
  cbn [all_chars] in Hd. apply andb_true_iff in Hd. destruct Hd as [Hc Hr].
  destruct (digit_facts c Hc) as (Hv & _).
  cbn [read_digits decimal_value]. rewrite Hv.
  replace (Z.of_N 10 * Z.of_N a + Z.of_N (code c - 48))%Z
    with (Z.of_N (10 * a + (code c - 48))) by lia.
  now apply IH.
Qed.

Lemma parseInt_decimal (s : string) :
  is_decimal s = true -> parseInt s = Some (Z.of_N (decimal_value 0 s)).
Proof.
  unfold is_decimal. intros H. apply andb_true_iff in H. destruct H as [Hne Hd].
  destruct s as [|c r]; [discriminate |].
  pose proof Hd as Hd'. cbn [all_chars] in Hd'.
  apply andb_true_iff in Hd'. destruct Hd' as [Hc Hr].
  destruct (digit_facts c Hc) as (Hv & Hminus & Hplus & _).
  unfold parseInt, skip_ws. cbn [skip_ws_from].
  rewrite (ws_len_digit c r Hc), Hminus, Hplus.
  assert (Hradix :
    match String c r with
    | String z (String x r0) =>
        if (code z =? 48) && (code (lower x) =? 120) then (16, r0) else (10, String c r)
    | _ => (10, String c r)
    end = (10, String c r)).
  { destruct r as [|x r0]; [reflexivity |].
    cbn [all_chars] in Hr. apply andb_true_iff in Hr. destruct Hr as [Hx _].
    destruct (digit_facts x Hx) as (_ & _ & _ & Hnx).
    now rewrite Hnx, andb_false_r. }
  rewrite Hradix.
  cbn [read_digits]. rewrite Hv.
  replace (Z.of_N 10 * 0 + Z.of_N (code c - 48))%Z
    with (Z.of_N (10 * 0 + (code c - 48))) by lia.
  rewrite (read_digits_decimal r _ Hr). cbn [decimal_value].
  f_equal. lia.
Qed.

Lemma pg_int4_spec (n : Z) :
  pg_int4 n = true <-> (-2147483648 <= n <= 2147483647)%Z.
Proof. unfold pg_int4. rewrite andb_true_iff, !Z.leb_le. tauto. Qed.

Lemma delete_by_id_rows (id : Z) (db : Db) (r : RecentSearch) :
  In r (rows (delete_by_id id db)) <-> In r (rows db) /\ rs_id r <> id.
Proof.
  unfold delete_by_id. cbn [rows]. rewrite List.filter_In.
  rewrite negb_true_iff, Z.eqb_neq. tauto.
Qed.

(** C9, as amended.  The answer is 400 exactly when [parseInt] finds no
    number at the head of the id (after white space, a sign and an optional
    [0x]).  When it finds one that fits the 32-bit key, the rows whose key is
    that number are deleted, the other rows stay, and the answer is
    [{success: true}]; an id made of decimal digits is read with its value.
    When the number does not fit the key, nothing is deleted and the answer
    is 500. *)
Theorem delete_answers_by_parseInt (id_param : string) (db : Db) :
  (status (fst (deleteRecentSearch id_param db)) = 400 <-> parseInt id_param = None) /\
  (parseInt id_param = None ->
   deleteRecentSearch id_param db = (json_message 400 "Invalid ID provided", db)) /\
  (forall id, parseInt id_param = Some id ->
     (-2147483648 <= id <= 2147483647)%Z ->
     deleteRecentSearch id_param db
     = (mkResponse 200 ∅ (SendJson [("success", JBool true)]), delete_by_id id db) /\
     (forall r, In r (rows (delete_by_id id db)) <-> In r (rows db) /\ rs_id r <> id)) /\
  (forall id, parseInt id_param = Some id ->
     (id < -2147483648 \/ 2147483647 < id)%Z ->
     deleteRecentSearch id_param db
     = (json_message 500 "Failed to delete recent search", db)) /\
  (is_decimal id_param = true ->
   parseInt id_param = Some (Z.of_N (decimal_value 0 id_param))).
Proof.
  unfold deleteRecentSearch. split; [| split; [| split; [| split]]].
  - destruct (parseInt id_param) as [id|]; [| split; reflexivity].
    split; [| discriminate]. destruct (pg_int4 id); discriminate.
  - intros ->. reflexivity.
  - intros id -> Hid. rewrite (proj2 (pg_int4_spec id) Hid).
    split; [reflexivity |]. intros r. apply delete_by_id_rows.
  - intros id -> Hid. destruct (pg_int4 id) eqn:E; [| reflexivity].
    apply pg_int4_spec in E. lia.
  - apply parseInt_decimal.
Qed.

(** The statement above on the ids [12], [abc] and [2147483648]. *)
Lemma delete_answers_by_parseInt_witness :
  deleteRecentSearch "12" (mkDb [sample_row 12; sample_row 13] 14)
  = (mkResponse 200 ∅ (SendJson [("success", JBool true)]), mkDb [sample_row 13] 14) /\
  deleteRecentSearch "abc" (mkDb [sample_row 12; sample_row 13] 14)
  = (json_message 400 "Invalid ID provided", mkDb [sample_row 12; sample_row 13] 14) /\
  deleteRecentSearch "2147483648" (mkDb [sample_row 12; sample_row 13] 14)
  = (json_message 500 "Failed to delete recent search",
     mkDb [sample_row 12; sample_row 13] 14).
Proof.
  destruct (delete_answers_by_parseInt "12" (mkDb [sample_row 12; sample_row 13] 14))
    as (_ & _ & Hdel & _ & Hdec).
  destruct (delete_answers_by_parseInt "abc" (mkDb [sample_row 12; sample_row 13] 14))
    as (_ & Hnan & _).
  destruct (delete_answers_by_parseInt "2147483648"
              (mkDb [sample_row 12; sample_row 13] 14))
    as (_ & _ & _ & Hwide & Hdec').
  split; [| split].
  - exact (proj1 (Hdel 12%Z (Hdec eq_refl) ltac:(lia))).
  - exact (Hnan eq_refl).
  - exact (Hwide 2147483648%Z (Hdec' eq_refl) ltac:(lia)).
Defined.

(** C9, as the specification states it, fails: [12abc] is not numeric, and the
    answer is not 400; the record 12 is deleted. *)
Lemma delete_accepts_numeric_prefix :
  is_decimal "12abc" = false /\
  parseInt "12abc" = Some 12%Z /\
  deleteRecentSearch "12abc" (mkDb [sample_row 12; sample_row 13] 14)
  = (mkResponse 200 ∅ (SendJson [("success", JBool true)]), mkDb [sample_row 13] 14).
Proof. repeat split. Qed.

(** ** The text of a decoded body is well-formed *)

Lemma utf8_from_start (lo hi lo' hi' : N) (s : string) :
  utf8_from O lo hi s = utf8_from O lo' hi' s.
Proof. destruct s; reflexivity. Qed.

Lemma utf8_from_append (a b : string) :
  forall need lo hi,
    utf8_from need lo hi a = true -> utf8_valid b = true ->
    utf8_from need lo hi (a +:+ b) = true.
Proof.
  induction a as [|c a IH]; intros need lo hi Ha Hb.
  - destruct need; [| discriminate]. simpl.
    now rewrite (utf8_from_start lo hi 128 191).
  - simpl in *. destruct need as [|k].
    + destruct (utf8_lead (code c)) as [[[n l] h]|]; [| discriminate].
      now apply IH.
    + apply andb_true_iff in Ha. destruct Ha as [Hr Ha].
      rewrite Hr. now apply IH.
Qed.

Lemma utf8_decode_valid (l : Buffer) :
  forall need lo hi pending,
    (forall s, utf8_from need lo hi s = true -> utf8_valid (pending +:+ s) = true) ->
    utf8_valid (utf8_decode need lo hi pending l) = true.
Proof.
  induction l as [|b t IH]; intros need lo hi pending Hinv.
  - destruct need; reflexivity.
  - cbn [utf8_decode].
    set (c := ascii_of_byte b).
    assert (Hplain : utf8_valid (utf8_decode O 128 191 EmptyString t) = true).
    { apply IH. intros s Hs. exact Hs. }
    assert (Hstart :
      utf8_valid
        match utf8_lead (code c) with
        | Some (O, _, _) => String c (utf8_decode O 128 191 EmptyString t)
        | Some (n, lo', hi') => utf8_decode n lo' hi' (str1 c) t
        | None => replacement_char +:+ utf8_decode O 128 191 EmptyString t
        end = true).
    { destruct (utf8_lead (code c)) as [[[n lo'] hi']|] eqn:Hlead.
      - destruct n as [|n].
        + unfold utf8_valid. cbn [utf8_from]. rewrite Hlead.
          now rewrite (utf8_from_start lo' hi' 128 191).
        + apply IH. intros s Hs. unfold utf8_valid, str1.
          cbn [String.append utf8_from]. now rewrite Hlead.
      - now apply (utf8_from_append replacement_char). }
    destruct need as [|k]; [exact Hstart |].
    destruct (in_range lo hi c) eqn:Hr.
    + destruct k as [|k].
      * apply Hinv. cbn [utf8_from]. now rewrite Hr.
      * apply IH. intros s Hs. rewrite append_assoc. apply Hinv.
        unfold str1. cbn [String.append utf8_from]. now rewrite Hr.
    + now apply (utf8_from_append replacement_char).
Qed.

(** Whatever the bytes, [body.toString()] is well-formed text: the Rewriter
    never meets a sequence [encodeURIComponent] would refuse. *)
Lemma Buffer_toString_valid (body : Buffer) :
  utf8_valid (Buffer_toString body) = true.
Proof. apply utf8_decode_valid. intros s Hs. exact Hs. Qed.

(** * Further properties of the routes *)

(** ** The Normalizer *)

(** X1.  The Normalizer leaves what it has produced as it is, and what it
    produces always begins with one of the two schemes. *)
Theorem sanitizeUrl_idempotent (input : string) :
  sanitizeUrl (sanitizeUrl input) = sanitizeUrl input /\
  (startsWith (sanitizeUrl input) "http://" = true \/
   startsWith (sanitizeUrl input) "https://" = true).
Proof.
  split; [| apply sanitizeUrl_has_scheme].
  apply sanitizeUrl_schemed, sanitizeUrl_has_scheme.
Qed.

(** ** The proxy endpoint: what is fetched *)

(** X2.  A call of [fetch] made by the handler is the only one it makes; its
    address is the normalized query parameter, which parses and carries a
    scheme; the method is the client's, and a body goes with it exactly when
    the method is neither GET nor HEAD. *)
Theorem proxy_fetches_only_validated
    (new_URL : string -> option URL) (fetch : FetchCall -> FetchOutcome)
    (req : Request) (call : FetchCall) :
  In call (snd (proxyHandler new_URL fetch req)) ->
  snd (proxyHandler new_URL fetch req) = [call] /\
  (exists input,
     truthy (query_url req) = Some input /\ fetch_url call = sanitizeUrl input) /\
  isValidUrl new_URL (fetch_url call) = true /\
  (startsWith (fetch_url call) "http://" = true \/
   startsWith (fetch_url call) "https://" = true) /\
  fetch_method call = method req /\
  (fetch_body call = None <->
   String.eqb (method req) "GET" || String.eqb (method req) "HEAD" = true).
Proof.
  unfold proxyHandler.
  destruct (truthy (query_url req)) as [input|] eqn:Hq; [| intros []].
  destruct (isValidUrl new_URL (sanitizeUrl input)) eqn:Hv; cbn [negb]; [| intros []].
  assert (Hcalls :
    forall r : Response * list FetchCall,
      snd r = [proxyFetchCall req (sanitizeUrl input)] ->
      In call (snd r) ->
      snd r = [call] /\
      (exists i, Some input = Some i /\ fetch_url call = sanitizeUrl i) /\
      isValidUrl new_URL (fetch_url call) = true /\
      (startsWith (fetch_url call) "http://" = true \/
       startsWith (fetch_url call) "https://" = true) /\
      fetch_method call = method req /\
      (fetch_body call = None <->
       String.eqb (method req) "GET" || String.eqb (method req) "HEAD" = true)).
  { intros r -> [<-|[]]. cbn [proxyFetchCall fetch_url fetch_method fetch_body].
    split; [reflexivity |]. split; [now exists input |].
    split; [exact Hv |]. split; [apply sanitizeUrl_has_scheme |].
    split; [reflexivity |].
    destruct (String.eqb (method req) "GET"), (String.eqb (method req) "HEAD");
      cbn; split; intros H; try reflexivity; discriminate. }
  destruct (fetch _) as [e | up]; [now apply Hcalls |].
  destruct (up_body up); [| now apply Hcalls].
  destruct (includes _ _); now apply Hcalls.
Qed.

(** The statement above on a POST for [example.com]. *)
Lemma proxy_fetches_only_validated_witness :
  let req := mkRequest "POST" (Some "example.com") None None None [] in
  let call := proxyFetchCall req "https://example.com" in
  snd (proxyHandler URL_model typeless_upstream req) = [call] /\
  (exists input,
     truthy (query_url req) = Some input /\ fetch_url call = sanitizeUrl input) /\
  isValidUrl URL_model (fetch_url call) = true /\
  (startsWith (fetch_url call) "http://" = true \/
   startsWith (fetch_url call) "https://" = true) /\
  fetch_method call = method req /\
  (fetch_body call = None <->
   String.eqb (method req) "GET" || String.eqb (method req) "HEAD" = true).
Proof.
  intros req call.
  apply (proxy_fetches_only_validated URL_model typeless_upstream req call).
  simpl. now left.
Defined.

(** X3.  Of the client's headers the upstream sees the cookie and the
    authorization, when they are there and not empty, and the content type
    only when the method is POST; the referer is the address fetched and the
    origin is [null]. *)
Theorem proxy_forwards_client_headers (req : Request) (url : string) :
  let sent := fetch_headers (proxyFetchCall req url) in
  headers_get sent "Referer" = Some url /\
  headers_get sent "Origin" = Some "null" /\
  headers_get sent "Cookie" = truthy (cookie req) /\
  headers_get sent "Authorization" = truthy (authorization req) /\
  headers_get sent "Content-Type"
  = (if String.eqb (method req) "POST" then truthy (content_type req) else None).
Proof.
  cbv zeta. unfold proxyFetchCall, optional_header. cbn [fetch_headers].
  destruct (truthy (cookie req)) as [c|], (truthy (authorization req)) as [a|],
    (String.eqb (method req) "POST"), (truthy (content_type req)) as [t|];
    repeat split; reflexivity.
Qed.

(** ** The relay's headers and the preflight *)

(** X5.  The preflight answers 200 with the five CORS headers, and each of
    them has the same value on every relayed response, whatever the upstream
    sent. *)
Theorem preflight_agrees_with_relay (upstream : Headers) (n v : string) :
  In (n, v) preflightHeaders ->
  status optionsHandler = 200 /\
  headers optionsHandler !! toLowerCase n = Some (n, v) /\
  relayHeaders upstream !! toLowerCase n = headers optionsHandler !! toLowerCase n.
Proof.
  intros Hin. unfold optionsHandler. cbn [status headers].
  rewrite lookup_relayHeaders, lookup_setHeaders.
  unfold preflightHeaders in Hin. cbn [In] in Hin.
  repeat (destruct Hin as [[= <- <-]|Hin]; [repeat split; reflexivity |]).
  contradiction.
Qed.

(** The statement above on the allowed origin. *)
Lemma preflight_agrees_with_relay_witness :
  status optionsHandler = 200 /\
  headers optionsHandler !! "access-control-allow-origin"
  = Some ("Access-Control-Allow-Origin", "*") /\
  relayHeaders guarded_upstream_headers !! "access-control-allow-origin"
  = headers optionsHandler !! "access-control-allow-origin".
Proof.
  apply (preflight_agrees_with_relay guarded_upstream_headers
           "Access-Control-Allow-Origin" "*").
  simpl. now left.
Defined.

(** X6.  An upstream header whose name is not in the allow list has no
    effect on the headers of the relayed response: with or without it they
    are the same. *)
Theorem relay_ignores_unlisted_header (before after : Headers) (n v : string) :
  list_includes safeHeaderKeys (toLowerCase n) = false ->
  relayHeaders (before ++ (n, v) :: after) = relayHeaders (before ++ after).
Proof.
  intros Hn. unfold relayHeaders. rewrite !forwardHeaders_filter.
  rewrite !List.filter_app. cbn [List.filter]. unfold is_safe at 2.
  cbn [fst]. now rewrite Hn.
Qed.

(** The statement above on [x-frame-options: DENY]. *)
Lemma relay_ignores_unlisted_header_witness :
  relayHeaders ([("etag", "abc")] ++ ("x-frame-options", "DENY") :: [("date", "now")])
  = relayHeaders ([("etag", "abc")] ++ [("date", "now")]).
Proof.
  apply (relay_ignores_unlisted_header [("etag", "abc")] [("date", "now")]
           "x-frame-options" "DENY").
  reflexivity.
Defined.

(** ** The recent searches: the list *)

Lemma insert_desc_perm (r : RecentSearch) (l : list RecentSearch) :
  Permutation (insert_desc r l) (r :: l).
Proof.
  induction l as [|x t IH]; cbn [insert_desc]; [reflexivity |].
  destruct (rs_visited_at x <=? rs_visited_at r)%Z; [reflexivity |].
  rewrite IH. apply perm_swap.
Qed.

Lemma order_by_visited_desc_perm (l : list RecentSearch) :
  Permutation (order_by_visited_desc l) l.
Proof.
  induction l as [|x t IH]; cbn [order_by_visited_desc]; [reflexivity |].
  rewrite insert_desc_perm. now apply perm_skip.
Qed.

Lemma insert_desc_sorted (r : RecentSearch) (l : list RecentSearch) :
  newest_first l -> newest_first (insert_desc r l).
Proof.
  unfold newest_first. induction l as [|x t IH]; intros Hs; cbn [insert_desc].
  - constructor; [constructor | constructor].
  - apply StronglySorted_inv in Hs. destruct Hs as [Ht Hx].
    destruct (rs_visited_at x <=? rs_visited_at r)%Z eqn:E.
    + apply Z.leb_le in E. constructor.
      * now constructor.
      * constructor; [exact E |].
        eapply List.Forall_impl; [| exact Hx]. unfold not_older. intros a Ha. lia.
    + apply Z.leb_gt in E. constructor; [now apply IH |].
      eapply Permutation_Forall; [symmetry; apply insert_desc_perm |].
      constructor; [unfold not_older; lia | exact Hx].
Qed.

Lemma order_by_visited_desc_sorted (l : list RecentSearch) :
  newest_first (order_by_visited_desc l).
Proof.
  induction l as [|x t IH]; cbn [order_by_visited_desc].
  - constructor.
  - now apply insert_desc_sorted.
Qed.

Lemma newest_first_split (a b : list RecentSearch) :
  newest_first (a ++ b) ->
  newest_first a /\
  (forall x y, In x a -> In y b -> not_older x y).
Proof.
  unfold newest_first. induction a as [|h a IH]; cbn [app]; intros Hs.
  - split; [constructor | intros x y []].
  - apply StronglySorted_inv in Hs. destruct Hs as [Hs Hh].
    destruct (IH Hs) as [Ha Hab]. split.
    + constructor; [exact Ha |].
      apply List.Forall_forall. intros x Hx.
      apply (proj1 (List.Forall_forall _ _) Hh). apply in_or_app. now left.
    + intros x y [<-|Hx] Hy; [| now apply Hab].
      apply (proj1 (List.Forall_forall _ _) Hh). apply in_or_app. now right.
Qed.

(** X7.  The list route answers with at most ten records, all of the
    table, newest first, and no record it leaves out is newer than one it
    gives. *)
Theorem recent_list_is_newest_ten (db : Db) :
  fst (getRecentSearches db) = 200 /\
  snd (getRecentSearches db) = map row_json (select_recent db) /\
  length (select_recent db) = Nat.min 10 (length (rows db)) /\
  newest_first (select_recent db) /\
  exists rest,
    Permutation (select_recent db ++ rest) (rows db) /\
    forall x y, In x (select_recent db) -> In y rest -> not_older x y.
Proof.
  split; [reflexivity |]. split; [reflexivity |].
  unfold select_recent.
  pose proof (order_by_visited_desc_perm (rows db)) as Hp.
  pose proof (order_by_visited_desc_sorted (rows db)) as Hs.
  rewrite <- (firstn_skipn 10 (order_by_visited_desc (rows db))) in Hs.
  apply newest_first_split in Hs. destruct Hs as [Hfirst Hrest].
  split.
  - rewrite length_firstn. now rewrite (Permutation_length Hp).
  - split; [exact Hfirst |].
    exists (skipn 10 (order_by_visited_desc (rows db))). split.
    + now rewrite firstn_skipn.
    + exact Hrest.
Qed.

(** ** The recent searches: the keys of the table *)








(** ** The recent searches: a save, then the list *)

Lemma newest_first_head (h : RecentSearch) (t l : list RecentSearch) :
  newest_first (h :: t) -> Permutation (h :: t) l ->
  forall x, In x l -> not_older h x.
Proof.
  intros Hs Hp x Hx. apply (Permutation_in _ (Permutation_sym Hp)) in Hx.
  destruct Hx as [<-|Hx]; [unfold not_older; lia |].
  apply StronglySorted_inv in Hs.
  exact (proj1 (List.Forall_forall _ _) (proj2 Hs) x Hx).
Qed.

Lemma select_recent_head (db : Db) (r : RecentSearch) :
  In r (rows db) ->
  exists h rest,
    select_recent db = h :: rest /\ In h (rows db) /\
    forall x, In x (rows db) -> not_older h x.
Proof.
  intros Hr. unfold select_recent.
  pose proof (order_by_visited_desc_perm (rows db)) as Hp.
  pose proof (order_by_visited_desc_sorted (rows db)) as Hs.
  destruct (order_by_visited_desc (rows db)) as [|h t] eqn:E.
  - apply Permutation_nil in Hp. rewrite Hp in Hr. destruct Hr.
  - exists h, (firstn 9 t). split; [reflexivity |]. split.
    + apply (Permutation_in _ Hp). now left.
    + now apply (newest_first_head h t).
Qed.

(** X9.  A save that was answered 200, at a time later than every visit in
    the table, was a save of a text: the list route then gives the record of
    its normalized address first, with that time, whether the save added the
    record or found it. *)
Theorem saved_search_heads_the_list
    (new_URL : string -> option URL) {Other : Type}
    (other_truthy : Other -> bool) (driver_text : Other -> option string) (now : Z)
    (url title favicon : option (BodyValue Other)) (db : Db) :
  status (fst (postRecentSearch new_URL other_truthy driver_text now url title favicon db))
  = 200 ->
  Forall (fun r => (rs_visited_at r < now)%Z) (rows db) ->
  exists input h rest,
    url = Some (BString input) /\
    select_recent
      (snd (postRecentSearch new_URL other_truthy driver_text now url title favicon db))
    = h :: rest /\
    rs_url h = sanitizeUrl input /\ rs_visited_at h = now.
Proof.
  intros Hst Hold.
  set (db' := snd (postRecentSearch new_URL other_truthy driver_text now url title favicon db)).
  assert (Hrows :
    exists input, url = Some (BString input) /\
    (exists r, In r (rows db') /\ rs_visited_at r = now) /\
    (forall x, In x (rows db') ->
       (rs_visited_at x <= now)%Z /\
       (rs_visited_at x = now -> rs_url x = sanitizeUrl input))).
  { subst db'. revert Hst. unfold postRecentSearch, truthy_value.
    destruct url as [[input | o] |]; [| | discriminate].
    2:{ destruct (other_truthy o); discriminate. }
    destruct (is_empty input); [discriminate |].
    destruct (isValidUrl new_URL (sanitizeUrl input)); cbn [negb]; [| discriminate].
    destruct (new_URL (sanitizeUrl input)) as [parsed|]; [| discriminate].
    destruct (pg_text (sanitizeUrl input)); cbn [negb]; [| discriminate].
    exists input. split; [reflexivity |].
    destruct (select_by_url (sanitizeUrl input) db) as [|e others] eqn:Hsel.
    - destruct (text_param driver_text _) as [t|]; [| discriminate Hst].
      destruct (text_param driver_text _) as [f|]; [| discriminate Hst].
      unfold insert_search. cbn [snd rows]. split.
      + eexists. split; [apply in_or_app; right; now left | reflexivity].
      + intros x Hx. apply in_app_or in Hx. destruct Hx as [Hx | [<-|[]]].
        * pose proof (proj1 (List.Forall_forall _ _) Hold x Hx). cbn in *. lia.
        * cbn. split; [lia | reflexivity].
    - cbn [snd]. unfold touch_url. cbn [rows].
      assert (He' : In e (rows db) /\ String.eqb (rs_url e) (sanitizeUrl input) = true).
      { apply (proj1 (List.filter_In
                          (fun r => String.eqb (rs_url r) (sanitizeUrl input)) e (rows db))).
        unfold select_by_url in Hsel. rewrite Hsel. now left. }
      split.
      + eexists. split.
        * apply in_map_iff. exists e. split; [reflexivity | exact (proj1 He')].
        * rewrite (proj2 He'). reflexivity.
      + intros x Hx. apply in_map_iff in Hx. destruct Hx as (y & <- & Hy).
        pose proof (proj1 (List.Forall_forall _ _) Hold y Hy) as Hlt. cbn in Hlt.
        destruct (String.eqb_spec (rs_url y) (sanitizeUrl input)) as [Eq|Ne]; cbn.
        * split; [lia | intros _; exact Eq].
        * split; [lia | intros Hc; lia]. }
  destruct Hrows as (input & Hurl & (r & Hr & Hrn) & Hall).
  destruct (select_recent_head db' r Hr) as (h & rest & Hsel & Hh & Hmax).
  exists input, h, rest. split; [exact Hurl |]. split; [exact Hsel |].
  pose proof (Hmax r Hr) as Hge. unfold not_older in Hge.
  destruct (Hall h Hh) as [Hle Hu].
  assert (rs_visited_at h = now) by lia. split; [now apply Hu | assumption].
Qed.

(** The statement above on [foo.com], saved again at 250 in a table where it
    is the older of two records. *)
Lemma saved_search_heads_the_list_witness :
  exists input h rest,
    Some (@BString Empty_set "foo.com") = Some (BString input) /\
    select_recent
      (snd (postRecentSearch URL_model no_other_truthy no_other_text 250
              (Some (BString "foo.com")) None None
              (mkDb [sample_row 1;
                     mkRecentSearch 2 "https://bar.org" (Some "bar.org") None 200 None] 3)))
    = h :: rest /\
    rs_url h = sanitizeUrl input /\ rs_visited_at h = 250%Z.
Proof.
  apply (saved_search_heads_the_list URL_model no_other_truthy no_other_text 250
           (Some (BString "foo.com")) None None).
  - reflexivity.
  - repeat constructor.
Defined.

(** ** The recent searches: deleting twice, deleting nothing *)

Lemma filter_filter_same {A} (p : A -> bool) (l : list A) :
  List.filter p (List.filter p l) = List.filter p l.
Proof.
  induction l as [|x l IH]; [reflexivity |].
  cbn [List.filter]. destruct (p x) eqn:E; [| exact IH].
  cbn [List.filter]. now rewrite E, IH.
Qed.

Lemma filter_all {A} (p : A -> bool) (l : list A) :
  Forall (fun x => p x = true) l -> List.filter p l = l.
Proof.
  induction l as [|x l IH]; intros H; [reflexivity |].
  apply List.Forall_cons_iff in H. destruct H as [Hx Hl].
  cbn [List.filter]. now rewrite Hx, IH.
Qed.

(** X10.  For an id that fits the 32-bit key: after a deletion no record
    has the id; the same deletion once more changes nothing and is answered
    with success again; and a deletion for an id that no record has leaves
    the table as it was and is answered with success all the same. *)
Theorem delete_is_idempotent (id_param : string) (id : Z) (db : Db) :
  parseInt id_param = Some id ->
  (-2147483648 <= id <= 2147483647)%Z ->
  let success := mkResponse 200 ∅ (SendJson [("success", JBool true)]) in
  let db' := snd (deleteRecentSearch id_param db) in
  Forall (fun r => rs_id r <> id) (rows db') /\
  deleteRecentSearch id_param db' = (success, db') /\
  (Forall (fun r => rs_id r <> id) (rows db) ->
   deleteRecentSearch id_param db = (success, db)).
Proof.
  intros Hp Hid success db'. subst db'. unfold deleteRecentSearch. rewrite Hp.
  rewrite (proj2 (pg_int4_spec id) Hid).
  cbn [snd]. split; [| split].
  - apply List.Forall_forall. intros r Hr. now apply delete_by_id_rows in Hr.
  - unfold delete_by_id. cbn [rows next_id]. now rewrite filter_filter_same.
  - intros Hnone. f_equal. destruct db as [rs next]. unfold delete_by_id.
    cbn [rows next_id] in *. f_equal. apply filter_all.
    eapply List.Forall_impl; [| exact Hnone].
    intros r Hr. cbn in Hr. apply negb_true_iff, Z.eqb_neq. exact Hr.
Qed.

(** The statement above on the id [12]: deleted twice from a table that has
    it, and deleted from a table that does not have it. *)
Lemma delete_is_idempotent_witness :
  let success := mkResponse 200 ∅ (SendJson [("success", JBool true)]) in
  let db' := snd (deleteRecentSearch "12" (mkDb [sample_row 12; sample_row 13] 14)) in
  (Forall (fun r => rs_id r <> 12%Z) (rows db') /\
   deleteRecentSearch "12" db' = (success, db')) /\
  Forall (fun r => rs_id r <> 12%Z) (rows (mkDb [sample_row 13] 14)) /\
  deleteRecentSearch "12" (mkDb [sample_row 13] 14) = (success, mkDb [sample_row 13] 14).
Proof.
  intros success db'.
  destruct (delete_is_idempotent "12" 12%Z (mkDb [sample_row 12; sample_row 13] 14)
              eq_refl ltac:(lia)) as (H1 & H2 & _).
  destruct (delete_is_idempotent "12" 12%Z (mkDb [sample_row 13] 14)
              eq_refl ltac:(lia)) as (_ & _ & H3).
  assert (Hnone : Forall (fun r => rs_id r <> 12%Z) (rows (mkDb [sample_row 13] 14))).
  { repeat constructor. cbn. lia. }
  exact (conj (conj H1 H2) (conj Hnone (H3 Hnone))).
Defined.

(** * Further properties of the Rewriter *)

Section ScanFacts.
Variable exec : string -> option (nat * string).
Variable P : string -> Prop.
Hypothesis P_tail : forall c r, P (String c r) -> P r.
Hypothesis P_none : forall s, P s -> exec s = None.

(** Where the pattern matches nowhere, nothing is replaced. *)
Lemma replace_all_fixed (s : string) : P s -> replace_all exec s = s.
Proof.
  unfold replace_all. induction s as [|c r IH]; intros Hs; cbn [replace_from].
  - now rewrite (P_none _ Hs).
  - rewrite (P_none _ Hs). f_equal. apply IH. exact (P_tail _ _ Hs).
Qed.

Lemma replace_first_fixed (s : string) : P s -> replace_first exec s = s.
Proof.
  induction s as [|c r IH]; intros Hs; cbn [replace_first].
  - now rewrite (P_none _ Hs).
  - rewrite (P_none _ Hs). f_equal. apply IH. exact (P_tail _ _ Hs).
Qed.
End ScanFacts.

Lemma drop_str_append (a b : string) : drop_str (strlen a) (a +:+ b) = b.
Proof. induction a as [|x a IH]; simpl; [reflexivity | exact IH]. Qed.

(** The leftmost match is replaced, and nothing after it. *)
Lemma replace_first_at (exec : string -> option (nat * string))
    (pre m rep post : string) :
  unmatched exec pre (m +:+ post) = true ->
  exec (m +:+ post) = Some (strlen m, rep) ->
  replace_first exec (pre +:+ m +:+ post) = pre +:+ rep +:+ post.
Proof.
  intros Hun He. induction pre as [|c pre IH].
  - cbn [String.append]. destruct (m +:+ post) eqn:E; cbn [replace_first];
      rewrite He, <- E; now rewrite drop_str_append.
  - destruct (unmatched_tail _ _ _ _ Hun) as [H0 Hun'].
    cbn [String.append replace_first]. rewrite H0. f_equal. now apply IH.
Qed.

Lemma includes_tail (c : ascii) (r sub : string) :
  includes (String c r) sub = false -> includes r sub = false.
Proof.
  cbn [includes]. intros H. apply orb_false_iff in H. tauto.
Qed.

Lemma includes_no_prefix (s sub : string) :
  includes s sub = false -> strip_prefix sub s = None.
Proof.
  intros H.
  assert (Hs : startsWith s sub = false).
  { destruct s; cbn [includes] in H; apply orb_false_iff in H; tauto. }
  unfold startsWith in Hs. now destruct (strip_prefix sub s).
Qed.

(** ** The two injections *)

(** X11.  The bridge script goes in once, before the first [</head>], and
    the rest of the page is left as it is; a page without [</head>] comes out
    unchanged. *)
Theorem script_injected_once (html pre post : string) :
  (includes html "</head>" = false -> injectScript html = html) /\
  (unmatched closeHeadExec pre ("</head>" +:+ post) = true ->
   injectScript (pre +:+ "</head>" +:+ post)
   = pre +:+ enhancementScript +:+ "</head>" +:+ post).
Proof.
  split.
  - apply (replace_first_fixed closeHeadExec (fun s => includes s "</head>" = false)).
    + intros c r. apply includes_tail.
    + intros s Hs. unfold closeHeadExec. now rewrite (includes_no_prefix _ _ Hs).
  - intros Hun. unfold injectScript.
    rewrite (replace_first_at closeHeadExec pre "</head>"
               (enhancementScript +:+ "</head>") post Hun eq_refl).
    now rewrite append_assoc.
Qed.

(** The statement above on a page with two closing head tags, and on one
    with none. *)
Lemma script_injected_once_witness :
  injectScript "<p>no head</p>" = "<p>no head</p>" /\
  injectScript ("<head>" +:+ "</head>" +:+ "<body></head>")
  = "<head>" +:+ enhancementScript +:+ "</head>" +:+ "<body></head>".
Proof.
  destruct (script_injected_once "<p>no head</p>" "<head>" "<body></head>")
    as [Hnone Hone].
  split; [exact (Hnone eq_refl) | exact (Hone eq_refl)].
Defined.

Lemma headPattern_match (attrs post : string) :
  all_chars (fun c => negb (is_char 62 c)) attrs = true ->
  headPattern ("<head" +:+ attrs +:+ ">" +:+ post) = Some ("<head" +:+ attrs +:+ ">").
Proof.
  intros Ha. unfold headPattern.
  change (strip_prefix "<head" ("<head" +:+ attrs +:+ ">" +:+ post))
    with (Some (attrs +:+ ">" +:+ post)).
  cbn [mbind option_bind].
  change (">" +:+ post) with (String ">"%char post).
  rewrite span_all; [| exact Ha | reflexivity].
  rewrite one_head by reflexivity. reflexivity.
Qed.

(** X12.  The base tag goes in once, right after the first opening head
    tag with whatever attributes it has, and names the page address; a page
    without [<head] comes out unchanged. *)
Theorem base_tag_injected_once (url html pre attrs post : string) :
  (includes html "<head" = false -> injectBaseTag url html = html) /\
  (all_chars (fun c => negb (is_char 62 c)) attrs = true ->
   unmatched (headExec url) pre ("<head" +:+ attrs +:+ ">" +:+ post) = true ->
   injectBaseTag url (pre +:+ "<head" +:+ attrs +:+ ">" +:+ post)
   = pre +:+ "<head" +:+ attrs +:+ ">" +:+
     "<base href=" +:+ str1 dquote +:+ url +:+ str1 dquote +:+ ">" +:+ post).
Proof.
  split.
  - apply (replace_first_fixed (headExec url) (fun s => includes s "<head" = false)).
    + intros c r. apply includes_tail.
    + intros s Hs. unfold headExec, headPattern.
      now rewrite (includes_no_prefix _ _ Hs).
  - intros Ha Hun. unfold injectBaseTag.
    pose proof (headPattern_match attrs post Ha) as Hm.
    assert (He : headExec url (("<head" +:+ attrs +:+ ">") +:+ post)
                 = Some (strlen ("<head" +:+ attrs +:+ ">"),
                         ("<head" +:+ attrs +:+ ">") +:+ baseTag url)).
    { unfold headExec.
      replace (("<head" +:+ attrs +:+ ">") +:+ post)
        with ("<head" +:+ attrs +:+ ">" +:+ post)
        by (now rewrite !append_assoc).
      rewrite Hm. reflexivity. }
    replace (pre +:+ "<head" +:+ attrs +:+ ">" +:+ post)
      with (pre +:+ ("<head" +:+ attrs +:+ ">") +:+ post)
      by (now rewrite !append_assoc).
    replace ("<head" +:+ attrs +:+ ">" +:+ post)
      with (("<head" +:+ attrs +:+ ">") +:+ post) in Hun
      by (now rewrite !append_assoc).
    rewrite (replace_first_at (headExec url) pre _ _ post Hun He).
    unfold baseTag. now rewrite !append_assoc.
Qed.

(** The statement above on a head tag with an attribute, and on a page whose
    only head tag is written in capitals. *)
Lemma base_tag_injected_once_witness :
  injectBaseTag "https://example.com" "<HEAD></HEAD>" = "<HEAD></HEAD>" /\
  injectBaseTag "https://example.com" ("<html>" +:+ "<head" +:+ " lang='en'" +:+ ">" +:+ "<title>")
  = "<html>" +:+ "<head" +:+ " lang='en'" +:+ ">" +:+
    "<base href=" +:+ str1 dquote +:+ "https://example.com" +:+ str1 dquote +:+ ">" +:+ "<title>".
Proof.
  destruct (base_tag_injected_once "https://example.com" "<HEAD></HEAD>"
              "<html>" " lang='en'" "<title>") as [Hnone Hone].
  split; [exact (Hnone eq_refl) | exact (Hone eq_refl eq_refl)].
Defined.

(** ** Text the passes leave alone *)

Lemma any_char_tail (p : ascii -> bool) (c : ascii) (r : string) :
  any_char p (String c r) = false -> any_char p r = false.
Proof. cbn [any_char]. intros H. apply orb_false_iff in H. tauto. Qed.

Lemma one_none (p : ascii -> bool) (s : string) :
  any_char p s = false -> one p s = None.
Proof.
  destruct s as [|c r]; [reflexivity |]. cbn [any_char one]. intros H.
  apply orb_false_iff in H. destruct H as [-> _]. reflexivity.
Qed.

Lemma lit_ci_rest (f : ascii -> bool) (p : string) :
  forall s m r,
    lit_ci p s = Some (m, r) -> any_char f s = false -> any_char f r = false.
Proof.
  induction p as [|a p IH]; intros s m r H Hs.
  - cbn [lit_ci] in H. now injection H as _ <-.
  - destruct s as [|b s]; cbn [lit_ci] in H; [discriminate |].
    destruct (eq_ci a b); [| discriminate].
    destruct (lit_ci p s) as [[m' r']|] eqn:E; [| discriminate].
    injection H as _ <-. exact (IH s m' r' E (any_char_tail _ _ _ Hs)).
Qed.

Lemma attr_eq_rest (f : ascii -> bool) (alts : list string) :
  forall s m r,
    attr_eq alts s = Some (m, r) -> any_char f s = false -> any_char f r = false.
Proof.
  induction alts as [|a alts IH]; intros s m r H Hs; cbn [attr_eq] in H;
    [discriminate |].
  destruct (lit_ci (a +:+ "=") s) as [[m' r']|] eqn:E.
  - injection H as _ <-. exact (lit_ci_rest f _ _ _ _ E Hs).
  - exact (IH s m r H Hs).
Qed.

Lemma attributePattern_needs_quote (s : string) :
  any_char is_quote s = false -> attributePattern s = None.
Proof.
  intros Hs. unfold attributePattern.
  destruct (attr_eq urlAttributes s) as [[name r1]|] eqn:E;
    cbn [mbind option_bind]; [| reflexivity].
  now rewrite (one_none _ _ (attr_eq_rest _ _ _ _ _ E Hs)).
Qed.

Lemma relativeUrlPattern_needs_quote (s : string) :
  any_char is_quote s = false -> relativeUrlPattern s = None.
Proof.
  intros Hs. unfold relativeUrlPattern.
  destruct (attr_eq urlAttributes s) as [[name r1]|] eqn:E;
    cbn [mbind option_bind]; [| reflexivity].
  now rewrite (one_none _ _ (attr_eq_rest _ _ _ _ _ E Hs)).
Qed.

Lemma srcsetPattern_needs_quote (s : string) :
  any_char is_quote s = false -> srcsetPattern s = None.
Proof.
  intros Hs. unfold srcsetPattern.
  destruct (lit_ci "srcset=" s) as [[name r1]|] eqn:E;
    cbn [mbind option_bind]; [| reflexivity].
  now rewrite (one_none _ _ (lit_ci_rest _ _ _ _ _ E Hs)).
Qed.

Lemma stylePattern_needs_quote (s : string) :
  any_char is_quote s = false -> stylePattern s = None.
Proof.
  intros Hs. unfold stylePattern.
  destruct (lit_ci "style=" s) as [[name r1]|] eqn:E;
    cbn [mbind option_bind]; [| reflexivity].
  now rewrite (one_none _ _ (lit_ci_rest _ _ _ _ _ E Hs)).
Qed.

(** X13.  The attribute, srcset, root-relative and inline-style passes
    only see quoted values: a text with no quote character in it, unquoted
    attributes included, goes through the four of them unchanged, whatever
    the page address and the URL constructor. *)
Theorem unquoted_text_is_left_alone
    (new_URL : string -> option URL) (url html : string) :
  any_char is_quote html = false ->
  rewriteAttributes html = html /\
  rewriteSrcset new_URL html = html /\
  rewriteRelative new_URL url html = html /\
  rewriteInlineStyles new_URL url html = html.
Proof.
  intros Hq.
  assert (Htail : forall c r,
             any_char is_quote (String c r) = false -> any_char is_quote r = false)
    by (intros c r; apply any_char_tail).
  split; [| split; [| split]].
  - apply (replace_all_fixed attributeExec _ Htail); [| exact Hq].
    intros s Hs. unfold attributeExec.
    now rewrite (attributePattern_needs_quote s Hs).
  - apply (replace_all_fixed (srcsetExec new_URL) _ Htail); [| exact Hq].
    intros s Hs. unfold srcsetExec.
    now rewrite (srcsetPattern_needs_quote s Hs).
  - apply (replace_all_fixed (relativeExec new_URL url) _ Htail); [| exact Hq].
    intros s Hs. unfold relativeExec.
    now rewrite (relativeUrlPattern_needs_quote s Hs).
  - apply (replace_all_fixed (styleExec new_URL url) _ Htail); [| exact Hq].
    intros s Hs. unfold styleExec.
    now rewrite (stylePattern_needs_quote s Hs).
Qed.

(** The statement above on a link and an image written without quotes. *)
Lemma unquoted_text_is_left_alone_witness :
  let html := "<a href=/about>About</a><img src=https://cdn.example.com/a.png>" in
  rewriteAttributes html = html /\
  rewriteSrcset URL_model html = html /\
  rewriteRelative URL_model "https://example.com" html = html /\
  rewriteInlineStyles URL_model "https://example.com" html = html.
Proof.
  exact (unquoted_text_is_left_alone URL_model "https://example.com"
           "<a href=/about>About</a><img src=https://cdn.example.com/a.png>"
           eq_refl).
Defined.

(** X14.  The location pass puts the navigation message in front of every
    [window.location] that the scan reaches and keeps the expression itself;
    a text that does not contain [window.location] comes out unchanged. *)
Theorem location_pass_prefixes_each_use (html pre post out : string) :
  (includes html "window.location" = false -> rewriteLocation html = html) /\
  (scanned locationExec O pre ("window.location" +:+ post) = Some out ->
   rewriteLocation (pre +:+ "window.location" +:+ post)
   = out +:+ "window.parent.postMessage('navigate:', '*'); " +:+
     "window.location" +:+ rewriteLocation post).
Proof.
  split.
  - apply (replace_all_fixed locationExec
             (fun s => includes s "window.location" = false)).
    + intros c r. apply includes_tail.
    + intros s Hs. unfold locationExec. now rewrite (includes_no_prefix _ _ Hs).
  - intros Hs. unfold rewriteLocation.
    now rewrite (replace_all_reached locationExec pre "window.location"
                   "window.parent.postMessage('navigate:', '*'); window.location"
                   post out Hs ltac:(discriminate) eq_refl).
Qed.

(** The statement above on a script with two uses of the expression. *)
Lemma location_pass_prefixes_each_use_witness :
  rewriteLocation "var a = 1;" = "var a = 1;" /\
  rewriteLocation ("x = window.location.href; " +:+ "window.location" +:+ " = y;")
  = "x = window.parent.postMessage('navigate:', '*'); window.location.href; " +:+
    "window.parent.postMessage('navigate:', '*'); " +:+
    "window.location" +:+ rewriteLocation " = y;".
Proof.
  destruct (location_pass_prefixes_each_use "var a = 1;"
              "x = window.location.href; " " = y;"
              "x = window.parent.postMessage('navigate:', '*'); window.location.href; ")
    as [Hnone Hone].
  split; [exact (Hnone eq_refl) | exact (Hone eq_refl)].
Defined.

(** ** The CSS pass *)

Lemma lit_ci_spelled (p : string) :
  forall m r, toLowerCase m = toLowerCase p -> lit_ci p (m +:+ r) = Some (m, r).
Proof.
  induction p as [|a p IH]; intros m r H.
  - destruct m; [reflexivity | discriminate].
  - destruct m as [|b m]; [discriminate |].
    cbn [toLowerCase] in H. injection H as Hc Hm.
    cbn [String.append lit_ci]. unfold eq_ci. rewrite Hc, N.eqb_refl.
    now rewrite (IH m r Hm).
Qed.

Lemma css_plain_head (v : string) :
  v <> EmptyString -> all_chars css_plain v = true ->
  exists c r, v = String c r /\ is_quote c = false.
Proof.
  destruct v as [|c r]; [congruence |]. intros _ H. cbn [all_chars] in H.
  apply andb_true_iff in H. destruct H as [H _].
  exists c, r. split; [reflexivity |].
  unfold css_plain in H. apply negb_true_iff, orb_false_iff in H. tauto.
Qed.

Lemma opt_quote_there (cq rest : string) :
  optional_quote cq ->
  opt is_quote (cq +:+ String ")" rest) = (cq, String ")" rest).
Proof.
  intros [-> | (q & Hq & ->)]; [reflexivity |].
  unfold opt, str1. cbn [String.append one]. now rewrite Hq.
Qed.

Lemma cssUrlPattern_match (lit oq v cq post : string) :
  toLowerCase lit = "url(" ->
  optional_quote oq -> optional_quote cq ->
  v <> EmptyString -> all_chars css_plain v = true ->
  cssUrlPattern (css_url lit oq v cq +:+ post) = Some (css_url lit oq v cq, v).
Proof.
  intros Hlit Hoq Hcq Hv Hall. unfold cssUrlPattern, css_url.
  rewrite !append_assoc.
  rewrite (lit_ci_spelled "url(" lit _ Hlit). cbn [mbind option_bind].
  assert (Hopen : opt is_quote (oq +:+ v +:+ cq +:+ ")" +:+ post)
                  = (oq, v +:+ cq +:+ ")" +:+ post)).
  { destruct Hoq as [-> | (q & Hq & ->)].
    - destruct (css_plain_head v Hv Hall) as (c & r & -> & Hc).
      unfold opt. cbn [String.append one]. now rewrite Hc.
    - unfold opt, str1. cbn [String.append one]. now rewrite Hq. }
  rewrite Hopen.
  assert (Hrun : span css_plain (v +:+ cq +:+ ")" +:+ post)
                 = (v, cq +:+ ")" +:+ post)).
  { destruct Hcq as [-> | (q & Hq & ->)].
    - cbn [String.append]. apply span_all; [exact Hall | reflexivity].
    - unfold str1. cbn [String.append]. apply span_all; [exact Hall |].
      unfold css_plain. now rewrite Hq. }
  change (fun c => negb (is_quote c || is_char 41 c)) with css_plain.
  rewrite Hrun.
  destruct v as [|c r]; [congruence |]. cbn [is_empty].
  change (")" +:+ post) with (String ")" post).
  rewrite (opt_quote_there cq post Hcq).
  rewrite one_head by reflexivity. reflexivity.
Qed.

(** X15.  The CSS pass, at every [url(...)] reference that the scan reaches
    (the reference non-empty, without quote or closing parenthesis inside,
    between optional quotes): a reference that begins with [http] is
    proxied, one that begins with [/] is resolved against the scheme and host
    of the page address and proxied, both rewritten between single quotes;
    any other reference is copied as it stands. *)
Theorem css_pass_proxies_reference
    (new_URL : string -> option URL) (url : string) (originalUrlObj : URL)
    (pre lit oq v cq post out : string) :
  new_URL url = Some originalUrlObj ->
  toLowerCase lit = "url(" ->
  optional_quote oq -> optional_quote cq ->
  v <> EmptyString -> all_chars css_plain v = true ->
  scanned (cssUrlExec new_URL url) O pre (css_url lit oq v cq +:+ post) = Some out ->
  rewriteCssUrls new_URL url (pre +:+ css_url lit oq v cq +:+ post)
  = out +:+
    (if startsWith v "http"
     then "url('" +:+ proxyPrefix +:+ encodeURIComponent v +:+ "')"
     else if startsWith v "/"
     then "url('" +:+ proxyPrefix +:+
          encodeURIComponent (base_of originalUrlObj +:+ v) +:+ "')"
     else css_url lit oq v cq) +:+
    rewriteCssUrls new_URL url post.
Proof.
  intros Hurl Hlit Hoq Hcq Hv Hall Hs. unfold rewriteCssUrls.
  assert (Hm : css_url lit oq v cq <> EmptyString).
  { unfold css_url. destruct lit; [discriminate Hlit | discriminate]. }
  assert (He : cssUrlExec new_URL url (css_url lit oq v cq +:+ post)
               = Some (strlen (css_url lit oq v cq),
                       cssUrlReplacer new_URL url (css_url lit oq v cq) v)).
  { unfold cssUrlExec.
    now rewrite (cssUrlPattern_match lit oq v cq post Hlit Hoq Hcq Hv Hall). }
  rewrite (replace_all_reached _ pre _ _ post out Hs Hm He).
  unfold cssUrlReplacer. rewrite Hurl. reflexivity.
Qed.

(** The statement above on a style sheet with a root-relative reference
    between double quotes. *)
Lemma css_pass_proxies_reference_witness :
  rewriteCssUrls URL_model "https://example.com/page"
    ("body{background:" +:+ css_url "URL(" (str1 dquote) "/img/bg.png" (str1 dquote) +:+ "}")
  = "body{background:" +:+
    ("url('" +:+ proxyPrefix +:+
     encodeURIComponent ("https://example.com" +:+ "/img/bg.png") +:+ "')") +:+
    rewriteCssUrls URL_model "https://example.com/page" "}".
Proof.
  refine (css_pass_proxies_reference URL_model "https://example.com/page"
            {| url_scheme := "https"; hostname := "example.com"; url_port := None |}
            "body{background:" "URL(" (str1 dquote) "/img/bg.png" (str1 dquote) "}"
            "body{background:" eq_refl eq_refl _ _ _ eq_refl eq_refl).
  - right. exists dquote. split; reflexivity.
  - right. exists dquote. split; reflexivity.
  - discriminate.
Defined.

(** * Properties of the client *)

Lemma code_inj (a b : ascii) : code a = code b -> a = b.
Proof.
  unfold code. intros H.
  rewrite <- (ascii_N_embedding a), <- (ascii_N_embedding b). now rewrite H.
Qed.

Lemma strip_prefix_spec (p : string) :
  forall s r, strip_prefix p s = Some r <-> s = p +:+ r.
Proof.
  induction p as [|a p IH]; intros s r; cbn [strip_prefix String.append].
  - split; [now intros [= ->] | now intros ->].
  - destruct s as [|b s]; [split; discriminate |].
    unfold eqb_ascii. destruct (code a =? code b) eqn:E.
    + apply N.eqb_eq, code_inj in E. subst b. rewrite IH.
      split; [now intros -> | now intros [= ->]].
    + apply N.eqb_neq in E. split; [discriminate |].
      intros [= -> _]. congruence.
Qed.

Lemma startsWith_spec (s p : string) :
  startsWith s p = true <-> exists r, s = p +:+ r.
Proof.
  unfold startsWith. destruct (strip_prefix p s) as [r|] eqn:E.
  - apply strip_prefix_spec in E. split; [now exists r | reflexivity].
  - split; [discriminate |]. intros [r Hr].
    apply strip_prefix_spec in Hr. congruence.
Qed.

(** ** The link of the client *)

Lemma uri_escape_safe (c : ascii) : all_chars query_safe (uri_escape c) = true.
Proof. each_char c. Qed.

Lemma encodeURIComponent_safe (s : string) :
  all_chars query_safe (encodeURIComponent s) = true.
Proof.
  induction s as [|c r IH]; [reflexivity |]. cbn [encodeURIComponent].
  destruct (uri_unreserved c) eqn:E.
  - cbn [all_chars]. unfold query_safe at 1. now rewrite E, IH.
  - now rewrite all_chars_append, uri_escape_safe, IH.
Qed.

(** X16.  The link that [proxyUrl] builds for an address is the proxy route
    with one query parameter: the parameter has only unreserved characters
    and percent signs, so nothing in it ends or splits the parameter, and for
    a well-formed text it decodes to the address. *)
Theorem proxy_link_round_trip (url : string) :
  utf8_valid url = true ->
  exists param,
    strip_prefix "/api/proxy?url=" (ProxyUtils.proxyUrl url) = Some param /\
    all_chars query_safe param = true /\
    decodeURIComponent param = Some url.
Proof.
  intros Hv. exists (encodeURIComponent url). split; [| split].
  - now apply strip_prefix_spec.
  - apply encodeURIComponent_safe.
  - now apply decode_encode.
Qed.

(** The statement above on an address with a query of its own. *)
Lemma proxy_link_round_trip_witness :
  exists param,
    strip_prefix "/api/proxy?url="
      (ProxyUtils.proxyUrl "https://example.com/a?b=1&c=2#d") = Some param /\
    all_chars query_safe param = true /\
    decodeURIComponent param = Some "https://example.com/a?b=1&c=2#d".
Proof.
  exact (proxy_link_round_trip "https://example.com/a?b=1&c=2#d" eq_refl).
Defined.

(** ** From the form to the table *)

Lemma value_or_same {Other : Type} (other_truthy : Other -> bool) (s : string) :
  value_or other_truthy (Some (BString s)) s = BString s.
Proof. unfold value_or, truthy_value. now destruct (is_empty s). Qed.

Lemma sanitizeUrl_nonempty (input : string) : is_empty (sanitizeUrl input) = false.
Proof.
  destruct (sanitizeUrl_has_scheme input) as [H|H];
    destruct (sanitizeUrl input); [discriminate H | reflexivity
                                  | discriminate H | reflexivity].
Qed.

(** X17.  An address that the search form accepts is the normalized text of
    the field; the page finds a host name for it and posts it, and the route
    never answers 400 to that request.  The title and the favicon the page
    sends are the ones the route would fill in itself: the answer and the
    table are those of a request that carries the address alone. *)
Theorem form_address_is_saved
    (new_URL : string -> option URL) {Other : Type}
    (other_truthy : Other -> bool) (driver_text : Other -> option string)
    (now : Z) (text address : string) (db : Db) :
  SearchForm.handleSubmit new_URL text = Some address ->
  let post := postRecentSearch new_URL other_truthy driver_text now in
  address = sanitizeUrl text /\
  exists data,
    Home.handleSearch new_URL address = Some data /\
    sd_url data = address /\
    post (Some (BString (sd_url data))) (BString <$> sd_title data)
         (BString <$> sd_favicon data) db
    = post (Some (BString address)) None None db /\
    status (fst (post (Some (BString address)) None None db)) <> 400.
Proof.
  intros Hsub post. subst post. revert Hsub.
  unfold SearchForm.handleSubmit, SearchForm.isValidUrl.
  change (if negb (startsWith text "http://") && negb (startsWith text "https://")
          then "https://" +:+ text else text) with (sanitizeUrl text).
  destruct (new_URL (sanitizeUrl text)) as [parsed|] eqn:Hp; [| discriminate].
  rewrite (truthy_some _ (sanitizeUrl_nonempty text)). intros [= <-].
  split; [reflexivity |].
  unfold Home.handleSearch. rewrite Hp. eexists. split; [reflexivity |].
  cbn [sd_url sd_title sd_favicon fmap option_fmap option_map].
  split; [reflexivity |].
  unfold postRecentSearch, truthy_value.
  rewrite (sanitizeUrl_nonempty text).
  rewrite (sanitizeUrl_schemed _ (sanitizeUrl_has_scheme text)).
  unfold isValidUrl. rewrite Hp. cbn [negb].
  rewrite !value_or_same.
  change (value_or other_truthy None ?b) with (@BString Other b).
  split; [reflexivity |].
  destruct (pg_text (sanitizeUrl text)); cbn [negb]; [| discriminate].
  destruct (select_by_url (sanitizeUrl text) db); [| discriminate].
  destruct (text_param driver_text _); [| discriminate].
  destruct (text_param driver_text _); [| discriminate].
  unfold insert_search. discriminate.
Qed.

(** The statement above on a field without a scheme and an empty table. *)
Lemma form_address_is_saved_witness :
  let post := postRecentSearch URL_model no_other_truthy no_other_text 100 in
  "https://example.com" = sanitizeUrl "example.com" /\
  exists data,
    Home.handleSearch URL_model "https://example.com" = Some data /\
    sd_url data = "https://example.com" /\
    post (Some (BString (sd_url data))) (BString <$> sd_title data)
         (BString <$> sd_favicon data) (mkDb [] 1)
    = post (Some (BString "https://example.com")) None None (mkDb [] 1) /\
    status (fst (post (Some (BString "https://example.com")) None None (mkDb [] 1)))
    <> 400.
Proof.
  exact (form_address_is_saved URL_model no_other_truthy no_other_text 100
           "example.com" "https://example.com" (mkDb [] 1) eq_refl).
Defined.

(** ** The messages of the frame *)

(** X18.  The listener of the frame host tells the three kinds of message
    apart by their text alone: it reports a load exactly for [iframe:loaded],
    an error with message [m] exactly for [error:] followed by [m], and a
    navigation to [u] exactly for [navigate:] followed by a non-empty [u]. *)
Theorem frame_messages_are_told_apart (data m : string) :
  (ProxyFrame.handleIframeEvent data = CallOnLoad <-> data = "iframe:loaded") /\
  (ProxyFrame.handleIframeEvent data = CallOnError m <-> data = "error:" +:+ m) /\
  (ProxyFrame.handleIframeEvent data = LogNavigation m
   <-> data = "navigate:" +:+ m /\ m <> EmptyString).
Proof.
  unfold ProxyFrame.handleIframeEvent.
  destruct (String.eqb data "iframe:loaded") eqn:E0.
  { apply String.eqb_eq in E0. subst data.
    repeat split; try discriminate; try tauto; intros [[=] _]. }
  apply String.eqb_neq in E0.
  unfold startsWith.
  destruct (strip_prefix "error:" data) as [r|] eqn:E1.
  { apply strip_prefix_spec in E1. subst data.
    change (drop_str 6 ("error:" +:+ r)) with r.
    repeat split; try discriminate; try tauto.
    - now intros [= ->].
    - now intros [= ->].
    - intros [[=] _]. }
  assert (N1 : forall r, data <> "error:" +:+ r).
  { intros r Hr. apply (strip_prefix_spec "error:") in Hr. congruence. }
  destruct (strip_prefix "navigate:" data) as [r|] eqn:E2.
  { apply strip_prefix_spec in E2. subst data.
    change (drop_str 9 ("navigate:" +:+ r)) with r.
    split; [| split].
    - split; [destruct (is_empty r); discriminate | tauto].
    - split; [destruct (is_empty r); discriminate | intros [=]].
    - destruct r as [|c r]; cbn [is_empty].
      + split; [discriminate |]. intros [[= <-] H]. congruence.
      + split; [intros [= <-]; split; [reflexivity | discriminate] |].
        now intros [[= <-] _]. }
  assert (N2 : forall r, data <> "navigate:" +:+ r).
  { intros r Hr. apply (strip_prefix_spec "navigate:") in Hr. congruence. }
  split; [| split].
  - split; [discriminate | tauto].
  - split; [discriminate | intros H; now apply N1 in H].
  - split; [discriminate | intros [H _]; now apply N2 in H].
Qed.

(** X19.  The host shows the connection as secure for every address that
    comes from the search form, except for a text that is written with
    [http://]. *)
Theorem form_address_is_shown_secure (text : string) :
  ProxyFrame.secureConnection (sanitizeUrl text) = negb (startsWith text "http://").
Proof.
  unfold ProxyFrame.secureConnection, sanitizeUrl.
  destruct (startsWith text "http://") eqn:H1; cbn [negb andb].
  - apply startsWith_spec in H1. destruct H1 as [r ->]. reflexivity.
  - destruct (startsWith text "https://") eqn:H2; cbn [negb]; [exact H2 | reflexivity].
Qed.

(** ** The list the page keeps in the browser *)

Lemma firstn_incl {A} (n : nat) (l : list A) (x : A) :
  In x (firstn n l) -> In x l.
Proof.
  revert n. induction l as [|y l IH]; intros [|n]; cbn [firstn In]; try tauto.
  intros [H|H]; [now left | right; exact (IH n H)].
Qed.

Lemma NoDup_firstn {A} (n : nat) (l : list A) :
  List.NoDup l -> List.NoDup (firstn n l).
Proof.
  revert n. induction l as [|x l IH]; intros [|n] H; cbn [firstn];
    try constructor.
  - apply List.NoDup_cons_iff in H. destruct H as [Hx _].
    intros Hin. apply Hx. exact (firstn_incl n l x Hin).
  - apply IH. now apply List.NoDup_cons_iff in H.
Qed.

Lemma existsb_url_In (url : string) (l : list LocalSearch) :
  existsb (fun search => String.eqb (ls_url search) url) l = true
  <-> In url (map ls_url l).
Proof.
  rewrite existsb_exists, in_map_iff.
  split; intros (x & H1 & H2); exists x.
  - apply String.eqb_eq in H2. tauto.
  - split; [tauto |]. now apply String.eqb_eq.
Qed.

(** X20.  The list of the browser-side page keeps its shape through a
    search: no address twice and at most five entries, the address searched
    for among them; an address that is new goes to the head, the addresses
    after the fourth are dropped, and a search that throws in the URL
    constructor changes nothing (there is no new list).  Removing an
    address leaves no entry with it and keeps every other entry. *)
Theorem local_list_keeps_its_shape
    (new_URL : string -> option URL) (url : string)
    (recentSearches updated : list LocalSearch) :
  List.NoDup (map ls_url recentSearches) ->
  (length recentSearches <= 5)%nat ->
  HomeLocal.handleSearch new_URL url recentSearches = Some updated ->
  List.NoDup (map ls_url updated) /\
  (length updated <= 5)%nat /\
  In url (map ls_url updated) /\
  (In url (map ls_url recentSearches) -> updated = recentSearches) /\
  (~ In url (map ls_url recentSearches) ->
   exists entry, ls_url entry = url /\ updated = entry :: firstn 4 recentSearches) /\
  ~ In url (map ls_url (HomeLocal.handleRemoveSearch url updated)) /\
  (forall entry, ls_url entry <> url ->
     (In entry (HomeLocal.handleRemoveSearch url updated) <-> In entry updated)).
Proof.
  intros Hnd Hlen. unfold HomeLocal.handleSearch.
  destruct (existsb (fun search => String.eqb (ls_url search) url) recentSearches)
    eqn:Hex; cbn [negb].
  - intros [= <-]. apply existsb_url_In in Hex.
    repeat split; try tauto.
    + unfold HomeLocal.handleRemoveSearch. rewrite in_map_iff.
      intros (x & Hx & Hin). apply List.filter_In in Hin. destruct Hin as [_ Hin].
      apply negb_true_iff, String.eqb_neq in Hin. congruence.
    + unfold HomeLocal.handleRemoveSearch. intros Hin.
      apply List.filter_In in Hin. tauto.
    + unfold HomeLocal.handleRemoveSearch. intros Hin.
      apply List.filter_In. split; [exact Hin |].
      now apply negb_true_iff, String.eqb_neq.
  - assert (Hnot : ~ In url (map ls_url recentSearches)).
    { intros Hin. apply existsb_url_In in Hin. congruence. }
    destruct (new_URL url) as [parsed|]; [| discriminate].
    intros [= <-]. cbn [map ls_url length].
    split; [| split; [| split; [| split; [| split; [| split]]]]].
    + apply List.NoDup_cons_iff. split.
      * intros Hin. apply Hnot. rewrite <- firstn_map in Hin.
        exact (firstn_incl _ _ _ Hin).
      * rewrite <- firstn_map. now apply NoDup_firstn.
    + pose proof (firstn_le_length 4 recentSearches). lia.
    + now left.
    + tauto.
    + intros _. eexists. split; [| reflexivity]. reflexivity.
    + unfold HomeLocal.handleRemoveSearch. rewrite in_map_iff.
      intros (x & Hx & Hin). apply List.filter_In in Hin. destruct Hin as [_ Hin].
      apply negb_true_iff, String.eqb_neq in Hin. congruence.
    + intros entry Hne. unfold HomeLocal.handleRemoveSearch.
      rewrite List.filter_In. split; [tauto |]. intros Hin.
      split; [exact Hin |]. now apply negb_true_iff, String.eqb_neq.
Qed.

(** The statement above on a list of five and an address that is new. *)
Lemma local_list_keeps_its_shape_witness :
  let entry (u : string) := mkLocalSearch u "icon" "title" in
  let l := [entry "https://a.com"; entry "https://b.com"; entry "https://c.com";
            entry "https://d.com"; entry "https://e.com"] in
  exists updated,
    HomeLocal.handleSearch URL_model "https://f.com" l = Some updated /\
    (length updated <= 5)%nat /\
    In "https://f.com" (map ls_url updated) /\
    ~ In "https://f.com" (map ls_url (HomeLocal.handleRemoveSearch "https://f.com" updated)).
Proof.
  intros entry l.
  assert (Hnd : List.NoDup (map ls_url l)).
  { repeat (apply List.NoDup_cons; [cbn; intuition discriminate |]).
    apply List.NoDup_nil. }
  eexists. split; [reflexivity |].
  destruct (local_list_keeps_its_shape URL_model "https://f.com" l _ Hnd
              ltac:(cbn; lia) eq_refl)
    as (_ & Hlen & Hin & _ & _ & Hrm & _).
  exact (conj Hlen (conj Hin Hrm)).
Defined.

(** ** The page analysis of [script.js] *)

Lemma list_includes_In (l : list string) (x : string) :
  list_includes l x = true <-> In x l.
Proof.
  unfold list_includes. rewrite existsb_exists. split.
  - intros (y & Hy & E). apply String.eqb_eq in E. now subst.
  - intros H. exists x. split; [exact H | apply String.eqb_refl].
Qed.

Lemma note_domains_spec (src : string) (domains : list string) :
  forall found,
    List.NoDup found ->
    List.NoDup (Script.note_domains domains found src) /\
    forall d, In d (Script.note_domains domains found src)
              <-> In d found \/ (In d domains /\ includes src d = true).
Proof.
  unfold Script.note_domains.
  induction domains as [|domain domains IH]; intros found Hnd; cbn [fold_left].
  - split; [exact Hnd |]. intros d. cbn [In]. tauto.
  - destruct (includes src domain) eqn:Hi; cbn [andb].
    + destruct (list_includes found domain) eqn:Hl; cbn [negb].
      * apply list_includes_In in Hl.
        destruct (IH found Hnd) as [H1 H2]. split; [exact H1 |].
        intros d. rewrite H2. cbn [In]. split; [tauto |].
        intros [H | [[<- | H] H']]; tauto.
      * assert (Hnot : ~ In domain found).
        { intros H. apply list_includes_In in H. congruence. }
        assert (Hnd' : List.NoDup (found ++ [domain])).
        { apply List.NoDup_rev in Hnd.
          rewrite <- (rev_involutive (found ++ [domain])).
          apply List.NoDup_rev. rewrite rev_app_distr. cbn [rev app].
          apply List.NoDup_cons; [| exact Hnd].
          intros H. apply Hnot. now apply in_rev. }
        destruct (IH _ Hnd') as [H1 H2]. split; [exact H1 |].
        intros d. rewrite H2, in_app_iff. cbn [In]. split.
        -- intros [[H | [<- | []]] | H]; tauto.
        -- intros [H | [[<- | H] H']]; tauto.
    + destruct (IH found Hnd) as [H1 H2]. split; [exact H1 |].
      intros d. rewrite H2. cbn [In]. split; [tauto |].
      intros [H | [[<- | H] H']]; [tauto | congruence | tauto].
Qed.

Lemma scan_scripts_spec (domains : list string) (scripts : list string) :
  forall found,
    List.NoDup found ->
    List.NoDup (fold_left (Script.note_domains domains) scripts found) /\
    forall d, In d (fold_left (Script.note_domains domains) scripts found)
              <-> In d found \/
                  (In d domains /\ exists src, In src scripts /\ includes src d = true).
Proof.
  induction scripts as [|src scripts IH]; intros found Hnd; cbn [fold_left].
  - split; [exact Hnd |]. intros d. cbn [In]. split; [tauto |].
    intros [H | (_ & src & [] & _)]. exact H.
  - destruct (note_domains_spec src domains found Hnd) as [H1 H2].
    destruct (IH _ H1) as [H3 H4]. split; [exact H3 |].
    intros d. rewrite H4, H2. cbn [In]. split.
    + intros [[H | [H H']] | (H & s & Hs & H')]; [tauto | |].
      * right. split; [exact H |]. exists src. tauto.
      * right. split; [exact H |]. exists s. tauto.
    + intros [H | (H & s & [<- | Hs] & H')]; [tauto | tauto |].
      right. split; [exact H |]. now exists s.
Qed.

(** X21.  The page analysis reports exactly the listed tracker domains,
    and exactly the listed ad domains, that occur in the address of some
    script of the page, each of them once; the two counts are the lengths of
    the two lists and never exceed the eight domains of each list. *)
Theorem page_analysis_reports_listed_domains (scripts : list string) :
  let result := Script.analyzePageContent scripts in
  List.NoDup (trackers result) /\ List.NoDup (ads result) /\
  (forall d, In d (trackers result)
             <-> In d Script.trackerDomains /\
                 exists src, In src scripts /\ includes src d = true) /\
  (forall d, In d (ads result)
             <-> In d Script.adDomains /\
                 exists src, In src scripts /\ includes src d = true) /\
  trackerCount result = length (trackers result) /\
  adCount result = length (ads result) /\
  (trackerCount result <= 8)%nat /\ (adCount result <= 8)%nat.
Proof.
  cbn zeta. unfold Script.analyzePageContent.
  cbn [trackers ads trackerCount adCount].
  destruct (scan_scripts_spec Script.trackerDomains scripts [] (List.NoDup_nil _))
    as [T1 T2].
  destruct (scan_scripts_spec Script.adDomains scripts [] (List.NoDup_nil _))
    as [A1 A2].
  assert (T3 : forall d,
             In d (fold_left (Script.note_domains Script.trackerDomains) scripts [])
             <-> In d Script.trackerDomains /\
                 exists src, In src scripts /\ includes src d = true).
  { intros d. rewrite T2. cbn [In]. tauto. }
  assert (A3 : forall d,
             In d (fold_left (Script.note_domains Script.adDomains) scripts [])
             <-> In d Script.adDomains /\
                 exists src, In src scripts /\ includes src d = true).
  { intros d. rewrite A2. cbn [In]. tauto. }
  split; [exact T1 |]. split; [exact A1 |]. split; [exact T3 |].
  split; [exact A3 |]. split; [reflexivity |]. split; [reflexivity |]. split.
  - change 8%nat with (length Script.trackerDomains).
    apply List.NoDup_incl_length; [exact T1 |]. intros d Hd. now apply T3 in Hd.
  - change 8%nat with (length Script.adDomains).
    apply List.NoDup_incl_length; [exact A1 |]. intros d Hd. now apply A3 in Hd.
Qed.

(** ** Navigation in [script.js] *)

(** X22.  [handleNavigation] hands the callback nothing but the normalized
    address, and it fails open: an address that the URL constructor rejects is
    not blocked but passed on.  It refuses exactly when the address parses and
    its host name contains one of the blocked domains. *)
Theorem navigation_fails_open (new_URL : string -> option URL) (navigationUrl : string) :
  let result := Script.handleNavigation new_URL navigationUrl in
  (new_URL (sanitizeUrl navigationUrl) = None ->
   result = (true, Some (sanitizeUrl navigationUrl))) /\
  (forall address, snd result = Some address ->
     fst result = true /\ address = sanitizeUrl navigationUrl) /\
  (fst result = false
   <-> snd result = None /\
       exists urlObj domain,
         new_URL (sanitizeUrl navigationUrl) = Some urlObj /\
         In domain Script.blockedDomains /\
         includes (hostname urlObj) domain = true).
Proof.
  cbn zeta. unfold Script.handleNavigation, Script.shouldBlockRedirect.
  change (if negb (startsWith navigationUrl "http://") &&
             negb (startsWith navigationUrl "https://")
          then "https://" +:+ navigationUrl else navigationUrl)
    with (sanitizeUrl navigationUrl).
  destruct (new_URL (sanitizeUrl navigationUrl)) as [urlObj|] eqn:Hp.
  - destruct (existsb (fun domain => includes (hostname urlObj) domain)
                Script.blockedDomains) eqn:Hb; cbn [fst snd].
    + split; [discriminate |]. split; [discriminate |].
      split; [| reflexivity]. intros _. split; [reflexivity |].
      apply existsb_exists in Hb. destruct Hb as (d & Hd & Hi).
      now exists urlObj, d.
    + split; [discriminate |]. split; [now intros a [= <-] |].
      split; [discriminate |]. intros [[=] _].
  - cbn [fst snd]. split; [reflexivity |]. split; [now intros a [= <-] |].
    split; [discriminate |]. intros [[=] _].
Qed.

(** The statement above on a text that does not parse: it is passed on. *)
Lemma navigation_fails_open_witness :
  Script.handleNavigation URL_model "a b" = (true, Some "https://a b").
Proof.
  exact (proj1 (navigation_fails_open URL_model "a b") eq_refl).
Defined.

(** ** From the page to the delete route *)

Lemma pretty_N_char_digit (d : N) :
  d < 10 ->
  is_digit (pretty_N_char d) = true /\ code (pretty_N_char d) - 48 = d.
Proof.
  intros H.
  assert (d = 0 \/ d = 1 \/ d = 2 \/ d = 3 \/ d = 4 \/ d = 5 \/ d = 6 \/
          d = 7 \/ d = 8 \/ d = 9) as Hd by lia.
  repeat (destruct Hd as [-> | Hd]; [split; reflexivity |]).
  subst d. split; reflexivity.
Qed.

Lemma all_chars_snoc (p : ascii -> bool) (s : string) (c : ascii) :
  all_chars p s = true -> p c = true -> all_chars p (s +:+ str1 c) = true.
Proof.
  intros Hs Hc. rewrite all_chars_append, Hs. cbn [str1 all_chars].
  now rewrite Hc.
Qed.

(** The digits that [pretty_N_go] puts in front of its accumulator, read
    back as a decimal number. *)
Lemma pretty_N_go_digits (x : N) :
  exists pre k,
    all_chars is_digit pre = true /\
    (0 < x -> pre <> EmptyString) /\
    (forall s, pretty_N_go x s = pre +:+ s) /\
    (forall a r, decimal_value a (pre +:+ r) = decimal_value (k * a + x) r).
Proof.
  induction (N.lt_wf_0 x) as [x _ IH].
  destruct (N.eq_dec x 0) as [-> | Hx].
  - exists EmptyString, 1. split; [reflexivity |]. split; [lia |]. split.
    + intros s. now rewrite pretty_N_go_0.
    + intros a r. cbn [String.append]. f_equal. lia.
  - assert (Hpos : 0 < x) by lia.
    destruct (IH (x / 10) (N.div_lt x 10 Hpos eq_refl))
      as (pre & k & Hd & _ & Hgo & Hval).
    assert (Hmod : x mod 10 < 10) by (apply N.mod_lt; lia).
    destruct (pretty_N_char_digit _ Hmod) as [Hc Hcode].
    exists (pre +:+ str1 (pretty_N_char (x mod 10))), (10 * k).
    split; [now apply all_chars_snoc |]. split; [| split].
    + intros _. destruct pre; discriminate.
    + intros s. rewrite (pretty_N_go_step x s Hpos), Hgo.
      now rewrite append_assoc.
    + intros a r. rewrite append_assoc. cbn [str1 String.append].
      rewrite Hval. cbn [decimal_value]. rewrite Hcode. f_equal.
      pose proof (N.div_mod x 10 ltac:(lia)). lia.
Qed.

Lemma append_empty_r (s : string) : s +:+ EmptyString = s.
Proof. induction s as [|c s IH]; [reflexivity |]. cbn [String.append]. now rewrite IH. Qed.

(** [parseInt] reads back the decimal text of a positive whole number. *)
Lemma parseInt_pretty (id : Z) : (0 < id)%Z -> parseInt (pretty id) = Some id.
Proof.
  intros Hid. destruct id as [|p|p]; try lia.
  change (pretty (Z.pos p)) with (pretty (N.pos p)).
  unfold pretty, pretty_N.
  destruct (decide (N.pos p = 0)) as [E|_]; [discriminate E |].
  destruct (pretty_N_go_digits (N.pos p)) as (pre & k & Hd & Hne & Hgo & Hval).
  rewrite Hgo, append_empty_r.
  rewrite parseInt_decimal.
  - pose proof (Hval 0 EmptyString) as Hv. rewrite append_empty_r in Hv.
    rewrite Hv. cbn [decimal_value]. f_equal. lia.
  - unfold is_decimal. rewrite Hd, andb_true_r.
    destruct pre; [now destruct (Hne ltac:(lia)) | reflexivity].
Qed.

(** X23.  The request that the page sends to remove an entry reaches the
    entry: for every key of the table (a positive 32-bit number) the path is
    the route followed by a parameter from which the route reads the same
    key; the answer is [success], the row with that key is gone and every
    other row is kept. *)
Theorem removal_request_reaches_its_row (id : Z) (db : Db) :
  (1 <= id <= 2147483647)%Z ->
  exists id_param,
    strip_prefix "/api/recent-searches/" (Home.handleRemoveSearch id) = Some id_param /\
    deleteRecentSearch id_param db
    = (mkResponse 200 ∅ (SendJson [("success", JBool true)]), delete_by_id id db) /\
    forall r, In r (rows (delete_by_id id db)) <-> In r (rows db) /\ rs_id r <> id.
Proof.
  intros Hid. exists (pretty id). split; [| split].
  - now apply strip_prefix_spec.
  - unfold deleteRecentSearch. rewrite parseInt_pretty by lia.
    now rewrite (proj2 (pg_int4_spec id)) by lia.
  - intros r. unfold delete_by_id. cbn [rows]. rewrite List.filter_In.
    rewrite negb_true_iff, Z.eqb_neq. tauto.
Qed.

(** The statement above on key 12 of a table of two rows. *)
Lemma removal_request_reaches_its_row_witness :
  exists id_param,
    strip_prefix "/api/recent-searches/" (Home.handleRemoveSearch 12) = Some id_param /\
    deleteRecentSearch id_param (mkDb [sample_row 12; sample_row 13] 14)
    = (mkResponse 200 ∅ (SendJson [("success", JBool true)]),
       delete_by_id 12 (mkDb [sample_row 12; sample_row 13] 14)) /\
    forall r, In r (rows (delete_by_id 12 (mkDb [sample_row 12; sample_row 13] 14)))
              <-> In r (rows (mkDb [sample_row 12; sample_row 13] 14)) /\ rs_id r <> 12%Z.
Proof.
  exact (removal_request_reaches_its_row 12 (mkDb [sample_row 12; sample_row 13] 14)
           ltac:(lia)).
Defined.

(** * The Rewriter as a whole *)

Lemma lit_ci_lower (p : string) :
  forall s m r,
    lit_ci p s = Some (m, r) -> startsWith (toLowerCase s) (toLowerCase p) = true.
Proof.
  unfold startsWith.
  induction p as [|a p IH]; intros s m r H; [reflexivity |].
  destruct s as [|b s]; cbn [lit_ci] in H; [discriminate |].
  cbn [toLowerCase strip_prefix].
  change (eqb_ascii (lower a) (lower b)) with (eq_ci a b).
  destruct (eq_ci a b); [| discriminate].
  destruct (lit_ci p s) as [[m' r']|] eqn:E; [| discriminate].
  exact (IH s m' r' E).
Qed.

Lemma cssUrlPattern_needs_url (s : string) :
  includes (toLowerCase s) "url(" = false -> cssUrlPattern s = None.
Proof.
  intros Hs. unfold cssUrlPattern.
  destruct (lit_ci "url(" s) as [[u r1]|] eqn:E; [| reflexivity].
  apply lit_ci_lower in E. change (toLowerCase "url(") with "url(" in E.
  destruct (toLowerCase s); cbn [includes] in Hs;
    apply orb_false_iff in Hs; destruct Hs as [Hs _]; congruence.
Qed.

(** X24.  A page with nothing for the eight passes to act on, that is no
    quote character, no [url(] in any spelling, no [window.location] and no
    opening or closing head tag, leaves the Rewriter exactly as it came in:
    no pass adds anything of its own, and without a head element neither the
    base tag nor the bridge script is injected. *)
Theorem plain_page_is_unchanged
    (new_URL : string -> option URL) (url html : string) :
  any_char is_quote html = false ->
  includes (toLowerCase html) "url(" = false ->
  includes html "window.location" = false ->
  includes html "<head" = false ->
  includes html "</head>" = false ->
  rewriteHtml new_URL url html = html.
Proof.
  intros Hq Hcss Hloc Hhead Hclose. unfold rewriteHtml.
  assert (Htail : forall c r,
             any_char is_quote (String c r) = false -> any_char is_quote r = false)
    by (intros c r; apply any_char_tail).
  assert (H1 : rewriteAttributes html = html).
  { apply (replace_all_fixed attributeExec _ Htail); [| exact Hq].
    intros s Hs. unfold attributeExec.
    now rewrite (attributePattern_needs_quote s Hs). }
  assert (H2 : rewriteSrcset new_URL html = html).
  { apply (replace_all_fixed (srcsetExec new_URL) _ Htail); [| exact Hq].
    intros s Hs. unfold srcsetExec.
    now rewrite (srcsetPattern_needs_quote s Hs). }
  assert (H3 : rewriteRelative new_URL url html = html).
  { apply (replace_all_fixed (relativeExec new_URL url) _ Htail); [| exact Hq].
    intros s Hs. unfold relativeExec.
    now rewrite (relativeUrlPattern_needs_quote s Hs). }
  assert (H4 : rewriteCssUrls new_URL url html = html).
  { apply (replace_all_fixed (cssUrlExec new_URL url)
             (fun s => includes (toLowerCase s) "url(" = false)); [| | exact Hcss].
    - intros c r. cbn [toLowerCase]. apply includes_tail.
    - intros s Hs. unfold cssUrlExec. now rewrite (cssUrlPattern_needs_url s Hs). }
  assert (H5 : rewriteInlineStyles new_URL url html = html).
  { apply (replace_all_fixed (styleExec new_URL url) _ Htail); [| exact Hq].
    intros s Hs. unfold styleExec.
    now rewrite (stylePattern_needs_quote s Hs). }
  assert (H6 : rewriteLocation html = html).
  { apply (replace_all_fixed locationExec
             (fun s => includes s "window.location" = false)); [| | exact Hloc].
    - intros c r. apply includes_tail.
    - intros s Hs. unfold locationExec. now rewrite (includes_no_prefix _ _ Hs). }
  assert (H7 : injectBaseTag url html = html).
  { apply (replace_first_fixed (headExec url)
             (fun s => includes s "<head" = false)); [| | exact Hhead].
    - intros c r. apply includes_tail.
    - intros s Hs. unfold headExec, headPattern.
      now rewrite (includes_no_prefix _ _ Hs). }
  assert (H8 : injectScript html = html).
  { apply (replace_first_fixed closeHeadExec
             (fun s => includes s "</head>" = false)); [| | exact Hclose].
    - intros c r. apply includes_tail.
    - intros s Hs. unfold closeHeadExec. now rewrite (includes_no_prefix _ _ Hs). }
  cbn zeta. now rewrite H1, H2, H3, H4, H5, H6, H7, H8.
Qed.

(** The statement above on a page fragment with an unquoted link. *)
Lemma plain_page_is_unchanged_witness :
  rewriteHtml URL_model "https://example.com"
    "<body><p>Hello</p><a href=/about>About</a></body>"
  = "<body><p>Hello</p><a href=/about>About</a></body>".
Proof.
  exact (plain_page_is_unchanged URL_model "https://example.com"
           "<body><p>Hello</p><a href=/about>About</a></body>"
           eq_refl eq_refl eq_refl eq_refl eq_refl).
Defined.
